(** * JSON-RPC 2.0 dispatcher and user service: a shallow embedding

    The development follows [jsonrpc_server/server.py] (class [JSONRPCServer])
    and [jsonrpc_server/methods.py] (classes [UserService], [SystemService],
    [CalculationService], and [calculate_tax] of [TaxService]).

    - JSON data decoded by the transport are Python values ([value]); a JSON
      object is an insertion-ordered association list with string keys.
    - Python exceptions are values of type [exn]; code that may raise and that
      mutates the services runs in the state-and-error monad [M].
    - What the source reads from its environment (the wall clock, [uuid4]), the
      texts the interpreter itself puts in a [TypeError], the [repr] of floats
      and containers, and the float arithmetic of [TaxService] and
      [CalculationService] are parameters of the development (Section
      variables): every theorem holds for all of them.
    - The input of [_handle_request] is what [request.get_json] does (raise,
      or return the decoded value); its output is the value [jsonify]
      serialises, or the empty body with status 204.  [jsonify] runs inside
      the [try] of [_handle_request] and fails on a result that is no JSON
      data.  Floats are data only (binary64 values compared for equality);
      no float arithmetic is modelled.
    - The user records are shared objects: the responses of a batch hold
      the records of the table, not copies of them. *)

From Stdlib Require Import ZArith List String Ascii Bool Lia Sorted.
From Stdlib Require Import DecimalString SpecFloat.
Import ListNotations.
Open Scope string_scope.
Open Scope Z_scope.

(** ** Python dictionaries *)

(** Keys of a dictionary: a decidable equality. *)
Class Key (K : Type) := {
  keqb : K -> K -> bool;
  keqb_spec : forall x y, reflect (x = y) (keqb x y)
}.

#[export] Instance string_Key : Key string :=
  {| keqb := String.eqb; keqb_spec := String.eqb_spec |}.

#[export] Instance Z_Key : Key Z :=
  {| keqb := Z.eqb; keqb_spec := Z.eqb_spec |}.

Module Dict.
Section Ops.
Context {K V : Type} `{Key K}.

(** [d.get(k)] *)
Fixpoint get (k : K) (d : list (K * V)) : option V :=
  match d with
  | [] => None
  | (k', v) :: d' => if keqb k k' then Some v else get k d'
  end.

(** [k in d] *)
Definition mem (k : K) (d : list (K * V)) : bool :=
  match get k d with Some _ => true | None => false end.

(** [d[k] = v]: an existing key keeps its place, a new key goes last. *)
Fixpoint set (k : K) (v : V) (d : list (K * V)) : list (K * V) :=
  match d with
  | [] => [(k, v)]
  | (k', v') :: d' => if keqb k k' then (k, v) :: d' else (k', v') :: set k v d'
  end.

(** [del d[k]] *)
Definition del (k : K) (d : list (K * V)) : list (K * V) :=
  filter (fun kv => negb (keqb k (fst kv))) d.

(** [d.keys()], [d.values()] *)
Definition keys (d : list (K * V)) : list K := map fst d.
Definition values (d : list (K * V)) : list V := map snd d.
End Ops.
End Dict.

(** ** Python values *)

(** The JSON data [get_json] decodes, and the complex numbers, which [**]
    can return and for which JSON has no form. *)
#[warnings="-register-all"]
Inductive value : Type :=
| VNone
| VBool (b : bool)
| VInt (z : Z)
| VFloat (f : spec_float)
| VStr (s : string)
| VList (l : list value)
| VDict (d : list (string * value))
| VComplex (re im : spec_float).

Definition dict := list (string * value).

(** The integer a float is equal to, if any ([1.0 == 1], [float('inf')] has
    none). *)
Definition float_to_Z (f : spec_float) : option Z :=
  match f with
  | S754_zero _ => Some 0
  | S754_finite s m e =>
      let sign := if s then (-1) else 1 in
      if 0 <=? e then Some (sign * (Z.pos m * 2 ^ e))
      else if (Z.pos m mod 2 ^ (- e)) =? 0 then Some (sign * (Z.pos m / 2 ^ (- e)))
      else None
  | S754_infinity _ | S754_nan => None
  end.

(** Numbers: [bool] is a subclass of [int], and ints and floats compare by
    value. *)
Definition numeric (v : value) : option (Z + spec_float) :=
  match v with
  | VBool b => Some (inl (if b then 1 else 0))
  | VInt z => Some (inl z)
  | VFloat f => Some (inr f)
  | _ => None
  end.

(** The real number a value is equal to, if any: a complex number is equal
    to its real part when its imaginary part is zero. *)
Definition real_part (v : value) : option (Z + spec_float) :=
  match v with
  | VComplex re im =>
      if SFeqb im (S754_zero false) then Some (inr re) else None
  | _ => numeric v
  end.

Definition num_eq (a b : Z + spec_float) : bool :=
  match a, b with
  | inl x, inl y => x =? y
  | inl x, inr f | inr f, inl x =>
      match float_to_Z f with Some y => x =? y | None => false end
  | inr f, inr g => SFeqb f g
  end.

(** [a == b].  Lists compare element by element, dictionaries by key. (The
    identity shortcut the interpreter takes inside containers, visible only
    on a shared NaN object, is not modelled.) *)
Fixpoint py_eq (a b : value) {struct a} : bool :=
  match a, b with
  | VNone, VNone => true
  | VStr s, VStr t => String.eqb s t
  | VList l, VList m =>
      (fix go (l m : list value) : bool :=
         match l, m with
         | [], [] => true
         | x :: l', y :: m' => py_eq x y && go l' m'
         | _, _ => false
         end) l m
  | VDict d, VDict e =>
      Nat.eqb (List.length d) (List.length e) &&
      (fix go (d : list (string * value)) : bool :=
         match d with
         | [] => true
         | (k, v) :: d' =>
             match Dict.get k e with
             | Some v' => py_eq v v'
             | None => false
             end && go d'
         end) d
  | VComplex re im, VComplex re' im' => SFeqb re re' && SFeqb im im'
  | _, _ =>
      match real_part a, real_part b with
      | Some x, Some y => num_eq x y
      | _, _ => false
      end
  end.

(** [bool(v)] *)
Definition truthy (v : value) : bool :=
  match v with
  | VNone => false
  | VBool b => b
  | VInt z => negb (z =? 0)
  | VFloat (S754_zero _) => false
  | VFloat _ => true
  | VStr s => negb (String.eqb s "")
  | VList l => match l with [] => false | _ => true end
  | VDict d => match d with [] => false | _ => true end
  | VComplex (S754_zero _) (S754_zero _) => false
  | VComplex _ _ => true
  end.

Definition is_None (v : value) : bool :=
  match v with VNone => true | _ => false end.

(** ** Strings *)

(** [s.lower()]: the strings of the model are byte strings; only the
    letters A-Z change. *)
Definition lower_ascii (c : ascii) : ascii :=
  let n := N_of_ascii c in
  if (65 <=? n)%N && (n <=? 90)%N then ascii_of_N (n + 32) else c.

Fixpoint lower (s : string) : string :=
  match s with
  | EmptyString => EmptyString
  | String c s' => String (lower_ascii c) (lower s')
  end.

(** [needle in hay] *)
Fixpoint contains (needle hay : string) : bool :=
  String.prefix needle hay ||
  match hay with
  | EmptyString => false
  | String _ hay' => contains needle hay'
  end.

(** [str(z)] for an int. *)
Definition str_of_Z (z : Z) : string := NilZero.string_of_int (Z.to_int z).

(** ** Exceptions and the monad of the server *)

(** The class of an exception, as far as the [except] clauses of the source
    tell classes apart: [TypeError], [ValueError] (each with its subclasses)
    and any other subclass of [Exception]. *)
Inductive exn_class := TypeError | ValueError | Exception_.

Record exn := mkExn { exn_cls : exn_class; exn_str : string }.

Inductive result (A : Type) : Type :=
| Ret (a : A)
| Raise (e : exn).
Arguments Ret {A} a.
Arguments Raise {A} e.

(** [UserService]: the user table (insertion ordered, keyed by int) and the
    id counter. *)
Record UserService := mkUserService {
  users : list (Z * dict);
  next_id : Z
}.

(** The server's mutable state: the one stateful service, and the number of
    readings of the environment (clock, uuid) made so far. *)
Record World := mkWorld {
  user_service : UserService;
  clock : nat
}.

Definition M (A : Type) : Type := World -> result A * World.

Definition ret {A} (a : A) : M A := fun w => (Ret a, w).
Definition raise {A} (e : exn) : M A := fun w => (Raise e, w).
Definition bind {A B} (m : M A) (k : A -> M B) : M B :=
  fun w => match m w with
           | (Ret a, w') => k a w'
           | (Raise e, w') => (Raise e, w')
           end.
(** [try: m  except Exception as e: h e] *)
Definition try_except {A} (m : M A) (h : exn -> M A) : M A :=
  fun w => match m w with
           | (Ret a, w') => (Ret a, w')
           | (Raise e, w') => h e w'
           end.

Notation "x <- m ;; k" := (bind m (fun x => k))
  (at level 61, m at next level, right associativity).
Notation "m ;;; k" := (bind m (fun _ => k))
  (at level 61, right associativity).

Definition get_users : M (list (Z * dict)) :=
  fun w => (Ret (users (user_service w)), w).
Definition set_users (us : list (Z * dict)) : M unit :=
  fun w => (Ret tt, mkWorld (mkUserService us (next_id (user_service w))) (clock w)).
Definition get_next_id : M Z :=
  fun w => (Ret (next_id (user_service w)), w).
Definition set_next_id (n : Z) : M unit :=
  fun w => (Ret tt, mkWorld (mkUserService (users (user_service w)) n) (clock w)).

(** ** JSON-RPC error codes *)

Module JSONRPCError.
Definition PARSE_ERROR : Z := -32700.
Definition INVALID_REQUEST : Z := -32600.
Definition METHOD_NOT_FOUND : Z := -32601.
Definition INVALID_PARAMS : Z := -32602.
Definition INTERNAL_ERROR : Z := -32603.
End JSONRPCError.

(** ** A sample environment

    One concrete choice of what the development is parametric in, to run the
    model on concrete requests. *)
Module Sample.
Definition isoformat_now (n : nat) : string :=
  "2024-01-01T00:00:00." ++ str_of_Z (Z.of_nat n).
Definition repr_value (v : value) : string := "<object>".
Definition call_error_text (fname : string) (args : list value) (kw : dict)
  : string := fname ++ "() got arguments that do not fit its signature".
Definition unhashable_text (v : value) : string := "unhashable type".
Definition uuid4_str (n : nat) : string :=
  "00000000-0000-4000-8000-" ++ str_of_Z (Z.of_nat n).

(** The float [0.5], and what [power(-8, 0.5)] returns: the result of
    [(-8) ** 0.5] is the complex number
    [1.7319121124709868e-16+2.8284271247461903j]. *)
Definition one_half : spec_float := S754_finite false 4503599627370496 (-53).
Definition power_record (n : nat) : value :=
  VDict [("operation", VStr "power");
         ("operands", VList [VInt (-8); VFloat one_half]);
         ("result", VComplex (S754_finite false 7025470172532439 (-105))
                             (S754_finite false 6369051672525773 (-51)));
         ("calculation_id", VStr (uuid4_str n));
         ("calculated_at", VStr (isoformat_now (S n)))].

(** [power(-8, 0.5)] is computed; every other call of a numeric method
    is refused. *)
Definition numeric_service (name : string) (args : list value) (kw : dict)
    (n : nat) : result value :=
  match args, kw with
  | [VInt z; VFloat f], [] =>
      if String.eqb name "power" && (z =? -8) && SFeqb f one_half
      then Ret (power_record n)
      else Raise (mkExn TypeError "unsupported operand type(s)")
  | _, _ => Raise (mkExn TypeError "unsupported operand type(s)")
  end.

Definition int_max_str_digits : Z := 4300.
Definition jsonify_error (response : value) : exn :=
  mkExn TypeError "Object of type complex is not JSON serializable".
Definition py_arith (op : string) (a b : value) : result value :=
  Raise (mkExn TypeError ("unsupported operand type(s) for " ++ op)).
Definition builtin_error_text (what : string) (v : value) : string :=
  "object does not support " ++ what.

(** Requests. *)
Definition request (method : value) (rest : dict) : dict :=
  ("jsonrpc", VStr "2.0") :: ("method", method) :: rest.

Definition ping_notification : dict := request (VStr "ping") [].
Definition ping_call : dict := request (VStr "ping") [("id", VNone)].
Definition ping_with_argument : dict :=
  request (VStr "ping") [("params", VList [VInt 1]); ("id", VInt 2)].
Definition ping_with_scalar_params : dict :=
  request (VStr "ping") [("params", VStr "now"); ("id", VInt 7)].
Definition get_missing_user : dict :=
  request (VStr "get_user_by_id") [("params", VList [VInt 99]); ("id", VInt 1)].
Definition unknown_method_call : dict := request (VStr "nope") [("id", VInt 4)].
Definition empty_method_call : dict := request (VStr "") [("id", VInt 4)].

Definition wrong_version_call : dict :=
  [("jsonrpc", VStr "1.0"); ("method", VStr "ping"); ("id", VInt 3)].
Definition ping_call_1 : dict := request (VStr "ping") [("id", VInt 1)].
Definition power_call : dict :=
  request (VStr "power")
    [("params", VList [VInt (-8); VFloat one_half]); ("id", VInt 7)].

(** An entry of a batch of calculations. *)
Definition divide_by_zero : dict :=
  [("operation", VStr "divide"); ("a", VInt 10); ("b", VInt 0)].

(** A state with one user. *)
Definition ann : dict :=
  [("id", VInt 1); ("name", VStr "Ann"); ("email", VStr "ann@example.com");
   ("age", VNone); ("created_at", VStr "2024-01-01T00:00:00.0");
   ("updated_at", VStr "2024-01-01T00:00:00.1")].
Definition one_user : World := mkWorld (mkUserService [(1, ann)] 2) 2.
End Sample.

(** ** The services and the dispatcher *)

Section Server.

(** The [n]-th reading of [datetime.now().isoformat()]. *)
Variable isoformat_now : nat -> string.

(** [repr] of a float, a list or a dictionary. *)
Variable repr_value : value -> string.

(** The text of the [TypeError] the interpreter raises when the call
    [fname] on positional arguments [args] and keyword arguments
    [kwargs] does not fit the signature of [fname]. *)
Variable call_error_text : string -> list value -> dict -> string.

(** The text of the [TypeError] raised on hashing a list or a dictionary. *)
Variable unhashable_text : value -> string.

(** [TaxService] and [CalculationService] keep no state; what a call
    returns or raises is fixed by the method, its arguments and the
    environment (clock, uuid) at the reading it starts from.  What a
    method returns is an object of its own, and need not be JSON data
    ([power] gives a complex number on a negative base and a fractional
    exponent). *)
Variable numeric_service : string -> list value -> dict -> nat -> result value.

(** [str(v)], as the f-strings of the source apply it. *)
Definition py_str (v : value) : string :=
  match v with
  | VNone => "None"
  | VBool true => "True"
  | VBool false => "False"
  | VInt z => str_of_Z z
  | VStr s => s
  | _ => repr_value v
  end.

(** [datetime.now().isoformat()] *)
Definition now : M string :=
  fun w => (Ret (isoformat_now (clock w)),
            mkWorld (user_service w) (S (clock w))).

(** *** Calling a bound method *)

(** The signature of a method, [self] left out: the required parameters,
    the optional ones with their defaults, and whether [**kwargs] ends
    it. *)
Record signature := mkSig {
  sig_name : string;
  sig_required : list string;
  sig_optional : list (string * value);
  sig_var_kw : bool
}.

Definition sig_params (sg : signature) : list string :=
  (sig_required sg ++ Dict.keys (sig_optional sg))%list.

(** Positional arguments fill the parameters from the left. *)
Fixpoint bind_positional (ps : list string) (args : list value) : option dict :=
  match args, ps with
  | [], _ => Some []
  | a :: args', p :: ps' =>
      match bind_positional ps' args' with
      | Some b => Some ((p, a) :: b)
      | None => None
      end
  | _ :: _, [] => None
  end.

(** Keyword arguments: [self] and a parameter already filled are refused,
    a name that is no parameter goes to [**kwargs] when there is one. *)
Fixpoint bind_keywords (sg : signature) (kw : dict) (bound extra : dict)
  : option (dict * dict) :=
  match kw with
  | [] => Some (bound, extra)
  | (k, v) :: kw' =>
      if String.eqb k "self" then None
      else if existsb (String.eqb k) (sig_params sg) then
        if Dict.mem k bound then None
        else bind_keywords sg kw' (bound ++ [(k, v)])%list extra
      else if sig_var_kw sg then bind_keywords sg kw' bound (extra ++ [(k, v)])%list
      else None
  end.

(** The values of the parameters, in the order of the signature, and the
    content of [**kwargs]; [None] when the call does not fit. *)
Definition bind_call (sg : signature) (args : list value) (kw : dict)
  : option (list value * dict) :=
  match bind_positional (sig_params sg) args with
  | None => None
  | Some b0 =>
      match bind_keywords sg kw b0 [] with
      | None => None
      | Some (b, extra) =>
          if forallb (fun p => Dict.mem p b) (sig_required sg) then
            Some (map (fun p => match Dict.get p b with
                                | Some v => v
                                | None =>
                                    match Dict.get p (sig_optional sg) with
                                    | Some dflt => dflt
                                    | None => VNone
                                    end
                                end) (sig_params sg), extra)
          else None
      end
  end.

Definition call_with {A} (sg : signature) (args : list value) (kw : dict)
    (body : list value -> dict -> M A) : M A :=
  match bind_call sg args kw with
  | Some (vs, extra) => body vs extra
  | None => raise (mkExn TypeError (call_error_text (sig_name sg) args kw))
  end.

(** *** UserService *)

Definition UserService_init : UserService := mkUserService [] 1.

(** The key of the user table a value stands for: [True], [1], [1.0] and
    [1+0j] all hit key 1, a string or [None] hits none, a list or a
    dictionary cannot be hashed. *)
Definition table_key (v : value) : M (option Z) :=
  match v with
  | VList _ | VDict _ => raise (mkExn TypeError (unhashable_text v))
  | VBool b => ret (Some (if b then 1 else 0))
  | VInt z => ret (Some z)
  | VFloat f => ret (float_to_Z f)
  | VComplex re im =>
      ret (if SFeqb im (S754_zero false) then float_to_Z re else None)
  | VNone | VStr _ => ret None
  end.

Definition lookup_user (k : option Z) (us : list (Z * dict)) : option dict :=
  match k with
  | Some z => Dict.get z us
  | None => None
  end.

(** The loop [for user in self.users.values(): if user['email'] == email]. *)
Fixpoint check_duplicate_email (email : value) (us : list dict) : M unit :=
  match us with
  | [] => ret tt
  | user :: us' =>
      match Dict.get "email" user with
      | None => raise (mkExn Exception_ "'email'")
      | Some e =>
          if py_eq e email then
            raise (mkExn ValueError
                     ("User with email " ++ py_str email ++ " already exists"))
          else check_duplicate_email email us'
      end
  end.

Definition create_user (name email age : value) : M value :=
  if negb (truthy name) || negb (truthy email) then
    raise (mkExn ValueError "Name and email are required")
  else
    us <- get_users ;;
    check_duplicate_email email (Dict.values us) ;;;
    user_id <- get_next_id ;;
    set_next_id (user_id + 1) ;;;
    created_at <- now ;;
    updated_at <- now ;;
    let user : dict :=
      [("id", VInt user_id); ("name", name); ("email", email); ("age", age);
       ("created_at", VStr created_at); ("updated_at", VStr updated_at)] in
    us <- get_users ;;
    set_users (Dict.set user_id user us) ;;;
    ret (VDict user).

Definition user_not_found {A} (user_id : value) : M A :=
  raise (mkExn ValueError ("User with ID " ++ py_str user_id ++ " not found")).

Definition get_user_by_id (user_id : value) : M value :=
  k <- table_key user_id ;;
  us <- get_users ;;
  match lookup_user k us with
  | None => user_not_found user_id
  | Some user => ret (VDict user)
  end.

(** One turn of [for key, value in kwargs.items()]. *)
Definition update_field (user : dict) (kv : string * value) : dict :=
  if existsb (String.eqb (fst kv)) ["name"; "email"; "age"]
  then Dict.set (fst kv) (snd kv) user
  else user.

(** [user] is the dictionary held by the table, changed in place: the
    table sees every assignment. *)
Definition update_user (user_id : value) (kwargs : dict) : M value :=
  k <- table_key user_id ;;
  us <- get_users ;;
  match k, lookup_user k us with
  | Some z, Some user =>
      let user1 := fold_left update_field kwargs user in
      t <- now ;;
      let user2 := Dict.set "updated_at" (VStr t) user1 in
      us <- get_users ;;
      set_users (Dict.set z user2 us) ;;;
      ret (VDict user2)
  | _, _ => user_not_found user_id
  end.

Definition delete_user (user_id : value) : M value :=
  k <- table_key user_id ;;
  us <- get_users ;;
  match k, lookup_user k us with
  | Some z, Some _ =>
      set_users (Dict.del z us) ;;;
      ret (VDict [("message",
                   VStr ("User " ++ py_str user_id ++ " deleted successfully"))])
  | _, _ => user_not_found user_id
  end.

Definition list_users : M value :=
  us <- get_users ;;
  ret (VList (map VDict (Dict.values us))).

(** *** SystemService *)

Definition supported_methods : list string :=
  ["calculate_tax"; "calculate_progressive_tax"; "create_user";
   "get_user_by_id"; "update_user"; "delete_user"; "list_users"; "add";
   "subtract"; "multiply"; "divide"; "power"; "batch_calculate";
   "get_server_info"; "ping"].

Definition get_server_info : M value :=
  t <- now ;;
  ret (VDict [("server_type", VStr "JSON-RPC"); ("version", VStr "1.0.0");
              ("timestamp", VStr t); ("status", VStr "running");
              ("supported_methods", VList (map VStr supported_methods))]).

Definition ping : M value :=
  t <- now ;;
  ret (VDict [("message", VStr "pong"); ("timestamp", VStr t)]).

(** *** JSONRPCServer *)

(** The signatures of the methods the server calls itself. *)
Definition sig_create_user := mkSig "create_user" ["name"; "email"] [("age", VNone)] false.
Definition sig_get_user_by_id := mkSig "get_user_by_id" ["user_id"] [] false.
Definition sig_update_user := mkSig "update_user" ["user_id"] [] true.
Definition sig_delete_user := mkSig "delete_user" ["user_id"] [] false.
Definition sig_list_users := mkSig "list_users" [] [] false.
Definition sig_get_server_info := mkSig "get_server_info" [] [] false.
Definition sig_ping := mkSig "ping" [] [] false.

Definition arg (i : nat) (vs : list value) : value := nth i vs VNone.

(** A bound method, ready to be applied to positional and keyword
    arguments. *)
Definition handler := list value -> dict -> M value.

Definition numeric_method (name : string) : handler :=
  fun args kw w =>
    (numeric_service name args kw (clock w),
     mkWorld (user_service w) (S (clock w))).

Definition method_map : list (string * handler) :=
  [ ("calculate_tax", numeric_method "calculate_tax");
    ("calculate_progressive_tax", numeric_method "calculate_progressive_tax");
    ("create_user", fun args kw =>
       call_with sig_create_user args kw
         (fun vs _ => create_user (arg 0 vs) (arg 1 vs) (arg 2 vs)));
    ("get_user_by_id", fun args kw =>
       call_with sig_get_user_by_id args kw
         (fun vs _ => get_user_by_id (arg 0 vs)));
    ("update_user", fun args kw =>
       call_with sig_update_user args kw
         (fun vs kwargs => update_user (arg 0 vs) kwargs));
    ("delete_user", fun args kw =>
       call_with sig_delete_user args kw
         (fun vs _ => delete_user (arg 0 vs)));
    ("list_users", fun args kw =>
       call_with sig_list_users args kw (fun _ _ => list_users));
    ("add", numeric_method "add");
    ("subtract", numeric_method "subtract");
    ("multiply", numeric_method "multiply");
    ("divide", numeric_method "divide");
    ("power", numeric_method "power");
    ("batch_calculate", numeric_method "batch_calculate");
    ("get_server_info", fun args kw =>
       call_with sig_get_server_info args kw (fun _ _ => get_server_info));
    ("ping", fun args kw =>
       call_with sig_ping args kw (fun _ _ => ping)) ].

(** [func] applied to [params]: keyword arguments from a dictionary,
    positional ones from a list, none otherwise. *)
Definition apply_params (func : handler) (params : value) : M value :=
  match params with
  | VDict kw => func [] kw
  | VList l => func l []
  | _ => func [] []
  end.

Definition _call_method (method : string) (params : value) : M value :=
  match Dict.get method method_map with
  | None => raise (mkExn Exception_ ("Method '" ++ method ++ "' not found"))
  | Some func =>
      try_except (apply_params func params)
        (fun e =>
           match exn_cls e with
           | TypeError =>
               raise (mkExn Exception_
                        ("Invalid parameters for method '" ++ method ++ "': "
                         ++ exn_str e))
           | ValueError =>
               raise (mkExn Exception_
                        ("Invalid parameter values for method '" ++ method
                         ++ "': " ++ exn_str e))
           | Exception_ => raise e
           end)
  end.

Definition _create_error_response (request_id : value) (code : Z)
    (message : string) : value :=
  VDict [("jsonrpc", VStr "2.0");
         ("error", VDict [("code", VInt code); ("message", VStr message)]);
         ("id", request_id)].

Definition success_response (result : value) (request_id : value) : value :=
  VDict [("jsonrpc", VStr "2.0"); ("result", result); ("id", request_id)].

(** [d.get(k, default)] *)
Definition get_default (k : string) (d : dict) (default : value) : value :=
  match Dict.get k d with Some v => v | None => default end.

(** The code of the error envelope for a failed call. *)
Definition error_code_of (message : string) : Z :=
  if contains "not found" (lower message)
  then JSONRPCError.METHOD_NOT_FOUND
  else JSONRPCError.INTERNAL_ERROR.

(** [None] is the Python [None] a notification is answered with. *)
Definition _process_single_request (data : value) : M (option value) :=
  match data with
  | VDict d =>
      let jsonrpc := get_default "jsonrpc" d VNone in
      let method := get_default "method" d VNone in
      let params := get_default "params" d (VList []) in
      let request_id := get_default "id" d VNone in
      let is_notification := negb (Dict.mem "id" d) in
      let invalid_request : M (option value) :=
        if negb is_notification then
          ret (Some (_create_error_response request_id
                       JSONRPCError.INVALID_REQUEST "Invalid Request"))
        else ret None in
      if negb (py_eq jsonrpc (VStr "2.0")) then invalid_request
      else
        match method with
        | VStr name =>
            if negb (truthy method) then invalid_request
            else
              try_except
                (result <- _call_method name params ;;
                 if is_notification then ret None
                 else ret (Some (success_response result request_id)))
                (fun e =>
                   if negb is_notification then
                     ret (Some (_create_error_response request_id
                                  (error_code_of (exn_str e)) (exn_str e)))
                   else ret None)
        | _ => invalid_request
        end
  | _ => ret (Some (_create_error_response VNone
                      JSONRPCError.INVALID_REQUEST "Invalid Request"))
  end.

(** *** Records shared with the user table

    A user record is one dictionary object.  The table holds it;
    [create_user], [get_user_by_id] and [update_user] return it and
    [list_users] returns a new list of the records; [update_user] changes it
    in place.  A response built from such a result holds the record itself,
    not a copy: until the list of responses of a batch is serialised, what
    it shows of a record is what the record has become.  The methods are
    modelled as returning the value the record has when the call returns;
    the loop over a batch keeps, with each response, the keys of the table
    whose records the response holds, and brings the response up to date
    after each further entry. *)

(** What the result of a response shares with the user table: nothing;
    the record held under a key; or, for a new list of records, for each
    element the key it is held under ([None] once the table holds that
    record no more). *)
Inductive sharing :=
| Own
| TheRecord (k : Z)
| Records (ks : list (option Z)).

(** A response in the list of a batch. *)
Record held := mkHeld { held_envelope : value; held_records : sharing }.

Definition result_of (response : value) : option value :=
  match response with
  | VDict d => Dict.get "result" d
  | _ => None
  end.

Definition with_result (response result : value) : value :=
  match response with
  | VDict d => VDict (Dict.set "result" result d)
  | _ => response
  end.

(** The positional and the keyword arguments [params] stands for. *)
Definition call_arguments (params : value) : list value * dict :=
  match params with
  | VDict kw => ([], kw)
  | VList l => (l, [])
  | _ => ([], [])
  end.

(** The key of the table that [user_id], the first parameter of the
    method, stands for. *)
Definition looked_up (sg : signature) (params : value) (w : World)
  : option Z :=
  let '(args, kw) := call_arguments params in
  match bind_call sg args kw with
  | Some (vs, _) =>
      match table_key (arg 0 vs) w with
      | (Ret k, _) => k
      | (Raise _, _) => None
      end
  | None => None
  end.

(** What the response to [item], processed from the state [w], shares with
    the table: [create_user] returns the record it stored under the value
    the counter had, [get_user_by_id] and [update_user] the record they
    looked up, [list_users] the records of the table; every other result,
    and every error, is an object of its own. *)
Definition shares (item response : value) (w : World) : sharing :=
  match item, result_of response with
  | VDict d, Some _ =>
      let params := get_default "params" d (VList []) in
      match get_default "method" d VNone with
      | VStr name =>
          if String.eqb name "create_user" then
            TheRecord (next_id (user_service w))
          else if String.eqb name "get_user_by_id" then
            match looked_up sig_get_user_by_id params w with
            | Some k => TheRecord k
            | None => Own
            end
          else if String.eqb name "update_user" then
            match looked_up sig_update_user params w with
            | Some k => TheRecord k
            | None => Own
            end
          else if String.eqb name "list_users" then
            Records (map Some (Dict.keys (users (user_service w))))
          else Own
      | _ => Own
      end
  | _, _ => Own
  end.

(** Whether the record the table held under [k] in the state [w] is still
    held under [k] after a request that led to [w']: [delete_user] takes it
    out, and [create_user], the one method that moves the counter, puts a
    new record under the value the counter had. *)
Definition still_held (w w' : World) (k : Z) : bool :=
  Dict.mem k (users (user_service w')) &&
  negb ((next_id (user_service w) =? k) &&
        negb (next_id (user_service w') =? next_id (user_service w))).

(** A record a response holds, after a request that led from [w] to
    [w']: what the table has under its key, or what it was when the table
    let go of it. *)
Definition refresh_record (w w' : World) (slot : option Z * value)
  : option Z * value :=
  match slot with
  | (Some k, old) =>
      if still_held w w' k then
        match Dict.get k (users (user_service w')) with
        | Some user => (Some k, VDict user)
        | None => (None, old)
        end
      else (None, old)
  | (None, old) => (None, old)
  end.

(** A response of the list, brought up to date after a request that led
    from [w] to [w']. *)
Definition refresh (w w' : World) (h : held) : held :=
  match held_records h, result_of (held_envelope h) with
  | TheRecord k, Some old =>
      match refresh_record w w' (Some k, old) with
      | (Some k', user) =>
          mkHeld (with_result (held_envelope h) user) (TheRecord k')
      | (None, _) => mkHeld (held_envelope h) Own
      end
  | Records ks, Some (VList l) =>
      let slots := map (refresh_record w w') (combine ks l) in
      mkHeld (with_result (held_envelope h) (VList (map snd slots)))
             (Records (map fst slots))
  | _, _ => h
  end.

(** The loop over a batch; [responses] is the list built so far. *)
Fixpoint collect_responses (items : list value) (responses : list held)
  : M (list held) :=
  match items with
  | [] => ret responses
  | item :: items' =>
      fun w =>
        match _process_single_request item w with
        | (Ret response, w') =>
            let responses' := map (refresh w w') responses in
            match response with
            | Some r =>
                collect_responses items'
                  (responses' ++ [mkHeld r (shares item r w)])%list w'
            | None => collect_responses items' responses' w'
            end
        | (Raise e, w') => (Raise e, w')
        end
  end.

(** The list of responses as it stands when the loop is over. *)
Definition process_batch (items : list value) (responses : list held)
  : M (list value) :=
  responses' <- collect_responses items responses ;;
  ret (map held_envelope responses').

(** *** The transport *)

(** What the transport hands over: a body that does not decode
    ([request.get_json()] raises), or the decoded value. *)
Inductive raw_body := Undecodable | Json (v : value).

Definition get_json (request : raw_body) : M value :=
  match request with
  | Undecodable => raise (mkExn Exception_ "400 Bad Request")
  | Json v => ret v
  end.

(** What goes back to the transport: a JSON body (from [jsonify] or from
    a returned dictionary), or the empty body with status 204. *)
Inductive reply := Body (v : value) | NoContent.

(** [sys.get_int_max_str_digits()]: the longest int, in decimal digits,
    that the interpreter converts to a string (4300 unless set otherwise;
    0 or less stands for no limit, as in the interpreters that have
    none). *)
Variable int_max_str_digits : Z.

(** The exception [jsonify] raises on a response it cannot serialise: the
    [TypeError] that names the type of the object, or the [ValueError] of
    the digit limit. *)
Variable jsonify_error : value -> exn.

Definition int_fits (z : Z) : bool :=
  (int_max_str_digits <=? 0) ||
  (Z.of_nat (String.length (str_of_Z (Z.abs z))) <=? int_max_str_digits).

(** The values [jsonify] can serialise: the JSON data, floats that are
    no numbers included; not a complex number, and not an int beyond the
    digit limit. *)
Fixpoint serialisable (v : value) : bool :=
  match v with
  | VNone | VBool _ | VFloat _ | VStr _ => true
  | VInt z => int_fits z
  | VList l => forallb serialisable l
  | VDict d =>
      (fix go (d : list (string * value)) : bool :=
         match d with
         | [] => true
         | (_, v) :: d' => serialisable v && go d'
         end) d
  | VComplex _ _ => false
  end.

(** The part of a response that a method computed: the result of an
    envelope, the results of the envelopes of a list.  This is where
    [jsonify] can fail.  The rest of an envelope is made of strings, of an
    error code and of the identifier, which is a value [get_json] decoded
    and which [jsonify] encodes back: on such an identifier, walking the
    results is walking the whole response (see
    [serialises_success_envelope] and [serialisable_error_envelope]). *)
Definition payload (response : value) : list value :=
  match result_of response with
  | Some result => [result]
  | None => []
  end.

Definition payloads (response : value) : list value :=
  match response with
  | VList responses => flat_map payload responses
  | _ => payload response
  end.

Definition serialises (response : value) : bool :=
  forallb serialisable (payloads response).

Definition jsonify (response : value) : M reply :=
  if serialises response then ret (Body response)
  else raise (jsonify_error response).

Definition parse_error : reply :=
  Body (_create_error_response VNone JSONRPCError.PARSE_ERROR "Parse error").

(** The reply of the outer [except] clause. *)
Definition internal_error (e : exn) : reply :=
  Body (_create_error_response VNone JSONRPCError.INTERNAL_ERROR
          ("Internal error: " ++ exn_str e)).

Definition _handle_request (request : raw_body) (w : World) : reply * World :=
  let body : M reply :=
    parsed <- try_except
                (data <- get_json request ;;
                 if is_None data then ret (inl parse_error)
                 else ret (inr data))
                (fun _ => ret (inl parse_error)) ;;
    match parsed with
    | inl r => ret r
    | inr (VList items) =>
        responses <- process_batch items [] ;;
        match responses with
        | [] => ret NoContent
        | _ => jsonify (VList responses)
        end
    | inr data =>
        response <- _process_single_request data ;;
        match response with
        | Some r => jsonify r
        | None => ret NoContent
        end
    end in
  match body w with
  | (Ret r, w') => (r, w')
  | (Raise e, w') => (internal_error e, w')
  end.

(** *** Shapes of the output *)

Definition is_error_object (v : value) : bool :=
  match v with
  | VDict [(k1, VInt c); (k2, VStr _)] =>
      String.eqb k1 "code" && String.eqb k2 "message" &&
      existsb (Z.eqb c) [JSONRPCError.PARSE_ERROR; JSONRPCError.INVALID_REQUEST;
       JSONRPCError.METHOD_NOT_FOUND; JSONRPCError.INVALID_PARAMS;
       JSONRPCError.INTERNAL_ERROR]
  | _ => false
  end.

(** A response envelope: the version tag, exactly one of [result] and
    [error], and the identifier. *)
Definition is_envelope (v : value) : bool :=
  match v with
  | VDict [(k1, VStr version); (k2, payload); (k3, _)] =>
      String.eqb k1 "jsonrpc" && String.eqb version "2.0" &&
      String.eqb k3 "id" &&
      (String.eqb k2 "result" ||
       (String.eqb k2 "error" && is_error_object payload))
  | _ => false
  end.

Definition envelope_id (v : value) : option value :=
  match v with VDict d => Dict.get "id" d | _ => None end.

Definition envelope_error_code (v : value) : option value :=
  match v with
  | VDict d =>
      match Dict.get "error" d with
      | Some (VDict e) => Dict.get "code" e
      | _ => None
      end
  | _ => None
  end.

Definition well_formed_reply (r : reply) : bool :=
  match r with
  | NoContent => true
  | Body (VList ((_ :: _) as l)) => forallb is_envelope l
  | Body v => is_envelope v
  end.

(** *** Vocabulary of the statements *)

(** A notification is a request object without the key [id]. *)
Definition is_notification (item : value) : bool :=
  match item with
  | VDict d => negb (Dict.mem "id" d)
  | _ => false
  end.

(** The identifier a request carries ([None] when there is none to read). *)
Definition request_id_of (item : value) : value :=
  match item with
  | VDict d => get_default "id" d VNone
  | _ => VNone
  end.

Definition is_mapping (v : value) : bool :=
  match v with VDict _ => true | _ => false end.

Definition is_list_or_mapping (v : value) : bool :=
  match v with VDict _ | VList _ => true | _ => false end.

(** The entries of a batch that are to be answered: all but the
    notifications. *)
Definition calls (items : list value) : list value :=
  filter (fun item => negb (is_notification item)) items.

(** [r] answers [item]: it is a response envelope and it carries the
    identifier of [item]. *)
Definition answers (item r : value) : Prop :=
  is_envelope r = true /\ envelope_id r = Some (request_id_of item).

(** The state the entries of a batch, processed in order, lead to. *)
Fixpoint run_requests (items : list value) (w : World) : World :=
  match items with
  | [] => w
  | item :: items' =>
      run_requests items' (snd (_process_single_request item w))
  end.

(** What [jsonify] and the outer [except] clause make of a response. *)
Definition sent (response : value) : reply :=
  if serialises response then Body response
  else internal_error (jsonify_error response).

(** The reply to a batch whose list of responses is [responses]. *)
Definition batch_reply (responses : list value) : reply :=
  match responses with
  | [] => NoContent
  | _ => sent (VList responses)
  end.

(** [b] has the frame of [a]: it is an envelope if [a] is one, with the
    same identifier and the same error code, if any. *)
Definition same_frame (a b : value) : Prop :=
  (is_envelope a = true -> is_envelope b = true) /\
  envelope_id b = envelope_id a /\
  envelope_error_code b = envelope_error_code a.

(** What a response of the list may have become when the loop is over:
    it keeps its frame, and it is what it was when it shares nothing
    with the table. *)
Definition evolves (h k : held) : Prop :=
  same_frame (held_envelope h) (held_envelope k) /\
  (held_records h = Own -> k = h).

(** [k] is what the list holds, when the loop is over, for the entry
    [item]. *)
Definition produced (item : value) (k : held) : Prop :=
  exists r w0,
    fst (_process_single_request item w0) = Ret (Some r) /\
    evolves (mkHeld r (shares item r w0)) k.

(** The text of the exception that leaves [_call_method] when the method
    it called raised [e]. *)
Definition call_failure_message (name : string) (e : exn) : string :=
  match exn_cls e with
  | TypeError => "Invalid parameters for method '" ++ name ++ "': " ++ exn_str e
  | ValueError =>
      "Invalid parameter values for method '" ++ name ++ "': " ++ exn_str e
  | Exception_ => exn_str e
  end.

(** The operations of [UserService] and runs of them. *)
Inductive user_op :=
| OpCreate (name email age : value)
| OpGet (user_id : value)
| OpUpdate (user_id : value) (kwargs : dict)
| OpDelete (user_id : value)
| OpList.

Definition run_op (op : user_op) : M value :=
  match op with
  | OpCreate name email age => create_user name email age
  | OpGet user_id => get_user_by_id user_id
  | OpUpdate user_id kwargs => update_user user_id kwargs
  | OpDelete user_id => delete_user user_id
  | OpList => list_users
  end.

(** The outcomes of a run, each with its operation, and the final state. *)
Fixpoint run_ops (ops : list user_op) (w : World)
  : list (user_op * result value) * World :=
  match ops with
  | [] => ([], w)
  | op :: ops' =>
      let '(r, w1) := run_op op w in
      let '(tr, w2) := run_ops ops' w1 in
      ((op, r) :: tr, w2)
  end.

(** Every key of the user table is below the id counter. *)
Definition table_inv (us : UserService) : Prop :=
  Forall (fun kv => fst kv < next_id us) (users us).

(** The id a successful [create_user] gave out. *)
Definition created_id (o : user_op * result value) : option Z :=
  match o with
  | (OpCreate _ _ _, Ret (VDict user)) =>
      match Dict.get "id" user with
      | Some (VInt z) => Some z
      | _ => None
      end
  | _ => None
  end.

(** The ids given out along a run, in the order of the calls. *)
Definition created_ids (trace : list (user_op * result value)) : list Z :=
  flat_map (fun o => match created_id o with Some z => [z] | None => [] end)
           trace.

(** The user table and the id counter of a state. *)
Definition table (w : World) : list (Z * dict) := users (user_service w).
Definition counter (w : World) : Z := next_id (user_service w).

(** The record [create_user] builds. *)
Definition new_user (user_id : Z) (name email age : value)
    (created_at updated_at : string) : dict :=
  [("id", VInt user_id); ("name", name); ("email", email); ("age", age);
   ("created_at", VStr created_at); ("updated_at", VStr updated_at)].

Definition updatable (k : string) : bool :=
  existsb (String.eqb k) ["name"; "email"; "age"].

Definition initial_world : World := mkWorld UserService_init 0.

(** *** CalculationService and TaxService *)

(** The [n]-th reading of [str(uuid.uuid4())]. *)
Variable uuid4_str : nat -> string.

(** What an arithmetic operator gives on operands that are not both ints
    (or, for [/] and for [**] with a negative exponent, on any operands):
    float arithmetic, concatenation and repetition of sequences, or the
    [TypeError] of unsupported operands. *)
Variable py_arith : string -> value -> value -> result value.

(** The text of the error the interpreter raises when a value does not
    support what is asked of it: an order comparison, iteration, the
    attribute [get]. *)
Variable builtin_error_text : string -> value -> string.

Definition uuid4 : M string :=
  fun w => (Ret (uuid4_str (clock w)), mkWorld (user_service w) (S (clock w))).

Definition lift {A} (r : result A) : M A := fun w => (r, w).

(** The int a value is, [bool] being a subclass of [int]. *)
Definition int_operand (v : value) : option Z :=
  match v with
  | VBool b => Some (if b then 1 else 0)
  | VInt z => Some z
  | _ => None
  end.

(** [a + b], [a - b], [a * b]: exact on ints. *)
Definition py_binop (op : string) (f : Z -> Z -> Z) (a b : value) : M value :=
  match int_operand a, int_operand b with
  | Some x, Some y => ret (VInt (f x y))
  | _, _ => lift (py_arith op a b)
  end.

(** [a / b]: true division, never an int. *)
Definition py_truediv (a b : value) : M value := lift (py_arith "/" a b).

(** [a ** b]: exact on ints when the exponent is not negative. *)
Definition py_pow (a b : value) : M value :=
  match int_operand a, int_operand b with
  | Some x, Some y =>
      if 0 <=? y then ret (VInt (x ^ y)) else lift (py_arith "**" a b)
  | _, _ => lift (py_arith "**" a b)
  end.

(** The record every method of [CalculationService] returns. *)
Definition calculation (operation : string) (a b result : value) : M value :=
  calculation_id <- uuid4 ;;
  calculated_at <- now ;;
  ret (VDict [("operation", VStr operation); ("operands", VList [a; b]);
              ("result", result); ("calculation_id", VStr calculation_id);
              ("calculated_at", VStr calculated_at)]).

Definition add (a b : value) : M value :=
  result <- py_binop "+" Z.add a b ;;
  calculation "addition" a b result.

Definition subtract (a b : value) : M value :=
  result <- py_binop "-" Z.sub a b ;;
  calculation "subtraction" a b result.

Definition multiply (a b : value) : M value :=
  result <- py_binop "*" Z.mul a b ;;
  calculation "multiplication" a b result.

Definition divide (a b : value) : M value :=
  if py_eq b (VInt 0) then
    raise (mkExn ValueError "Division by zero is not allowed")
  else
    result <- py_truediv a b ;;
    calculation "division" a b result.

Definition power (base exponent : value) : M value :=
  result <- py_pow base exponent ;;
  calculation "power" base exponent result.

(** [isinstance(v, (int, float))] *)
Definition is_number (v : value) : bool :=
  match v with
  | VBool _ | VInt _ | VFloat _ => true
  | _ => false
  end.

(** [op.get(k)]: only a dictionary has the method. *)
Definition op_get (op : value) (k : string) : M value :=
  match op with
  | VDict d => ret (get_default k d VNone)
  | _ => raise (mkExn Exception_ (builtin_error_text "get" op))
  end.

Definition batch_error (message : string) (operation a b : value) : value :=
  VDict [("error", VStr message); ("operation", operation);
         ("operands", VList [a; b])].

(** One turn of the loop of [batch_calculate]: the entry appended for
    [op].  The handler of the [try] reads [op] again, outside any [try]. *)
Definition batch_step (op : value) : M value :=
  try_except
    (operation <- op_get op "operation" ;;
     a <- op_get op "a" ;;
     b <- op_get op "b" ;;
     if is_None a || is_None b then
       ret (batch_error "Missing operands 'a' or 'b'" operation a b)
     else if negb (is_number a) || negb (is_number b) then
       ret (batch_error "Operands must be numbers" operation a b)
     else if py_eq operation (VStr "add") then add a b
     else if py_eq operation (VStr "subtract") then subtract a b
     else if py_eq operation (VStr "multiply") then multiply a b
     else if py_eq operation (VStr "divide") then divide a b
     else if py_eq operation (VStr "power") then power a b
     else
       ret (batch_error ("Unknown operation: " ++ py_str operation)
              operation a b))
    (fun e =>
       operation <- op_get op "operation" ;;
       a <- op_get op "a" ;;
       b <- op_get op "b" ;;
       ret (batch_error (exn_str e) operation a b)).

Fixpoint batch_loop (ops : list value) (results : list value)
  : M (list value) :=
  match ops with
  | [] => ret results
  | op :: ops' =>
      entry <- batch_step op ;;
      batch_loop ops' (results ++ [entry])%list
  end.

(** The one-character strings of a string. *)
Fixpoint characters (s : string) : list value :=
  match s with
  | EmptyString => []
  | String c s' => VStr (String c EmptyString) :: characters s'
  end.

(** What [for op in operations] goes through: the elements of a list, the
    keys of a dictionary, the characters of a string. *)
Definition py_iter (v : value) : M (list value) :=
  match v with
  | VList l => ret l
  | VDict d => ret (map VStr (Dict.keys d))
  | VStr s => ret (characters s)
  | _ => raise (mkExn TypeError (builtin_error_text "iter" v))
  end.

Definition batch_calculate (operations : value) : M value :=
  ops <- py_iter operations ;;
  results <- batch_loop ops [] ;;
  ret (VList results).

(** [v < 0] *)
Definition lt_zero (v : value) : M bool :=
  match v with
  | VBool _ => ret false
  | VInt z => ret (z <? 0)
  | VFloat (S754_finite true _ _) | VFloat (S754_infinity true) => ret true
  | VFloat _ => ret false
  | _ => raise (mkExn TypeError (builtin_error_text "<" v))
  end.

(** [max(0, v)]: [v] when [v > 0], and the int [0] otherwise. *)
Definition max_zero (v : value) : M value :=
  match v with
  | VBool b => ret (if b then v else VInt 0)
  | VInt z => ret (if 0 <? z then v else VInt 0)
  | VFloat (S754_finite false _ _) | VFloat (S754_infinity false) => ret v
  | VFloat _ => ret (VInt 0)
  | _ => raise (mkExn TypeError (builtin_error_text ">" v))
  end.

(** The default of [tax_rate]: the float [0.20]. *)
Definition default_tax_rate : value :=
  VFloat (S754_finite false 7205759403792794 (-55)).

Definition calculate_tax (income deductions tax_rate : value) : M value :=
  negative_income <- lt_zero income ;;
  negative <- (if negative_income then ret true else lt_zero deductions) ;;
  if negative then
    raise (mkExn ValueError "Income and deductions must be non-negative")
  else
    difference <- py_binop "-" Z.sub income deductions ;;
    taxable_income <- max_zero difference ;;
    tax_amount <- py_binop "*" Z.mul taxable_income tax_rate ;;
    net_income <- py_binop "-" Z.sub income tax_amount ;;
    calculation_id <- uuid4 ;;
    calculated_at <- now ;;
    ret (VDict [("income", income); ("deductions", deductions);
                ("taxable_income", taxable_income); ("tax_rate", tax_rate);
                ("tax_amount", tax_amount); ("net_income", net_income);
                ("calculation_id", VStr calculation_id);
                ("calculated_at", VStr calculated_at)]).

(** *** The route [/] *)

(** The names under [methods] in the answer of the route [/]. *)
Definition info_methods : list string :=
  ["calculate_tax"; "calculate_progressive_tax"; "create_user";
   "get_user_by_id"; "update_user"; "delete_user"; "list_users"; "add";
   "subtract"; "multiply"; "divide"; "power"; "batch_calculate";
   "get_server_info"; "ping"].

(** *** Vocabulary of the further properties *)

(** The method a request object names, when its envelope is valid:
    [jsonrpc] is "2.0" and [method] is a non-empty string. *)
Definition envelope_method (d : dict) : option string :=
  if py_eq (get_default "jsonrpc" d VNone) (VStr "2.0") then
    match get_default "method" d VNone with
    | VStr name => if truthy (VStr name) then Some name else None
    | _ => None
    end
  else None.

(** A call of [method] on [params] with the identifier [request_id], and
    the same as a notification. *)
Definition notification_of (method : string) (params : value) : value :=
  VDict [("jsonrpc", VStr "2.0"); ("method", VStr method);
         ("params", params)].

Definition call_of (method : string) (params request_id : value) : value :=
  VDict [("jsonrpc", VStr "2.0"); ("method", VStr method);
         ("params", params); ("id", request_id)].

(** The envelopes a reply carries. *)
Definition reply_envelopes (r : reply) : list value :=
  match r with
  | NoContent => []
  | Body (VList l) => l
  | Body v => [v]
  end.

(** The methods that write to the user table. *)
Definition writes_users (name : string) : bool :=
  existsb (String.eqb name) ["create_user"; "update_user"; "delete_user"].

(** A stored record has the six fields of [create_user], in their order,
    and its [id] is the key it is stored under. *)
Definition record_shape (kv : Z * dict) : Prop :=
  Dict.keys (snd kv) =
    ["id"; "name"; "email"; "age"; "created_at"; "updated_at"] /\
  Dict.get "id" (snd kv) = Some (VInt (fst kv)).

(** The state of a [UserService] that its methods keep: keys below the
    counter, strictly increasing in the order of the table (so that none
    comes twice), and records of the right shape. *)
Definition service_ok (us : UserService) : Prop :=
  table_inv us /\
  StronglySorted Z.lt (Dict.keys (users us)) /\
  Forall record_shape (users us).

(** The emails of the table, in its order. *)
Definition emails (t : list (Z * dict)) : list (option value) :=
  map (fun kv => Dict.get "email" (snd kv)) t.

(** No email of the table is equal ([==]) to one stored after it. *)
Definition emails_distinct (t : list (Z * dict)) : Prop :=
  ForallOrdPairs
    (fun o1 o2 => forall e1 e2,
         o1 = Some e1 -> o2 = Some e2 -> py_eq e1 e2 = false)
    (emails t).

(** Some stored email is equal ([==]) to [email]. *)
Definition email_taken (email : value) (t : list (Z * dict)) : bool :=
  existsb (fun o => match o with Some e => py_eq e email | None => false end)
          (emails t).

(** The key of the table a value stands for, or the [TypeError] of an
    unhashable value; the state has no part in it. *)
Definition key_of (v : value) : result (option Z) :=
  fst (table_key v initial_world).

(** The failure of the three methods that look a user up. *)
Definition not_found (user_id : value) : exn :=
  mkExn ValueError ("User with ID " ++ py_str user_id ++ " not found").

(** An operation that may write the field [email] of a stored record. *)
Definition updates_email (op : user_op) : bool :=
  match op with
  | OpUpdate _ kwargs => Dict.mem "email" kwargs
  | _ => false
  end.

(** A request that may write to the user table: a request object with a
    valid envelope that names one of the writing methods. *)
Definition may_write (item : value) : bool :=
  match item with
  | VDict d =>
      match envelope_method d with
      | Some name => writes_users name
      | None => false
      end
  | _ => false
  end.

(** An envelope that is no error envelope, or an error envelope with one
    of the four codes the server uses. *)
Definition uses_known_code (env : value) : bool :=
  match envelope_error_code env with
  | None => true
  | Some (VInt c) =>
      existsb (Z.eqb c)
        [JSONRPCError.PARSE_ERROR; JSONRPCError.INVALID_REQUEST;
         JSONRPCError.METHOD_NOT_FOUND; JSONRPCError.INTERNAL_ERROR]
  | Some _ => false
  end.

(** A computation that leaves the user service as it found it, whether it
    returns or raises. *)
Definition keeps_users {A} (m : M A) : Prop :=
  forall w, user_service (snd (m w)) = user_service w.

(** A number below zero. *)
Definition is_negative (v : value) : bool :=
  match v with
  | VInt z => z <? 0
  | VFloat (S754_finite true _ _) | VFloat (S754_infinity true) => true
  | _ => false
  end.

(** A zero of any numeric type: [0], [False], [0.0], [-0.0], and the
    complex zeros. *)
Definition is_zero (v : value) : bool :=
  match v with
  | VInt 0 | VBool false | VFloat (S754_zero _) => true
  | VComplex (S754_zero _) (S754_zero _) => true
  | _ => false
  end.

(** What is wrong with an entry of a batch of calculations, when this can
    be told before any arithmetic: the message of its error entry. *)
Definition operation_problem (d : dict) : option string :=
  let operation := get_default "operation" d VNone in
  let a := get_default "a" d VNone in
  let b := get_default "b" d VNone in
  if is_None a || is_None b then Some "Missing operands 'a' or 'b'"
  else if negb (is_number a) || negb (is_number b) then
    Some "Operands must be numbers"
  else if py_eq operation (VStr "add") || py_eq operation (VStr "subtract")
          || py_eq operation (VStr "multiply") then None
  else if py_eq operation (VStr "divide") then
    if is_zero b then Some "Division by zero is not allowed" else None
  else if py_eq operation (VStr "power") then None
  else Some ("Unknown operation: " ++ py_str operation).

(** The error entry of a batch of calculations for the entry [d]. *)
Definition error_entry (message : string) (d : dict) : value :=
  batch_error message (get_default "operation" d VNone)
    (get_default "a" d VNone) (get_default "b" d VNone).

(** ** Facts about dictionaries and strings *)

Lemma Dict_get_set {K V} `{Key K} (k k' : K) (v : V) (d : list (K * V)) :
  Dict.get k (Dict.set k' v d) = if keqb k k' then Some v else Dict.get k d.
Proof.
  induction d as [|[a b] d IH]; simpl.
  - destruct (keqb_spec k k'); reflexivity.
  - destruct (keqb_spec k' a) as [->|Hne]; simpl.
    + destruct (keqb_spec k a); reflexivity.
    + destruct (keqb_spec k a) as [->|Hka].
      * destruct (keqb_spec a k'); congruence.
      * exact IH.
Qed.

Lemma Dict_get_del {K V} `{Key K} (k k' : K) (d : list (K * V)) :
  Dict.get k (Dict.del k' d) = if keqb k k' then None else Dict.get k d.
Proof.
  unfold Dict.del.
  induction d as [|[a b] d IH]; simpl.
  - destruct (keqb k k'); reflexivity.
  - destruct (keqb_spec k' a) as [->|Hne]; simpl.
    + rewrite IH. destruct (keqb_spec k a); reflexivity.
    + destruct (keqb_spec k a) as [->|Hka].
      * destruct (keqb_spec a k'); congruence.
      * exact IH.
Qed.

Lemma Dict_get_app {K V} `{Key K} (k : K) (d1 d2 : list (K * V)) :
  Dict.get k (d1 ++ d2)%list =
  match Dict.get k d1 with Some v => Some v | None => Dict.get k d2 end.
Proof.
  induction d1 as [|[a b] d1 IH]; simpl; [reflexivity|].
  destruct (keqb k a); [reflexivity | exact IH].
Qed.

Lemma Dict_get_In {K V} `{Key K} (k : K) (v : V) (d : list (K * V)) :
  Dict.get k d = Some v -> In (k, v) d.
Proof.
  induction d as [|[a b] d IH]; simpl; [discriminate|].
  destruct (keqb_spec k a) as [->|Hne]; intros E.
  - injection E as ->. now left.
  - right. auto.
Qed.

Lemma Dict_mem_get {K V} `{Key K} (k : K) (d : list (K * V)) :
  Dict.mem k d = true <-> exists v, Dict.get k d = Some v.
Proof.
  unfold Dict.mem. destruct (Dict.get k d) as [v|]; split; intros E.
  - now exists v.
  - reflexivity.
  - discriminate.
  - destruct E as [v E]. discriminate.
Qed.

Lemma Dict_set_fresh {K V} `{Key K} (k : K) (v : V) (d : list (K * V)) :
  Dict.get k d = None -> Dict.set k v d = (d ++ [(k, v)])%list.
Proof.
  induction d as [|[a b] d IH]; cbn [Dict.get Dict.set app]; [reflexivity|].
  destruct (keqb k a); [discriminate|]. intros E. now rewrite IH.
Qed.

Lemma lower_app (a b : string) : lower (a ++ b) = lower a ++ lower b.
Proof. induction a as [|c a IH]; simpl; [reflexivity | now rewrite IH]. Qed.

Lemma contains_app_r (needle a b : string) :
  contains needle b = true -> contains needle (a ++ b) = true.
Proof.
  intros Hb. induction a as [|c a IH]; simpl; [exact Hb|].
  rewrite IH. apply orb_true_r.
Qed.

(** The message of [_call_method] for an unknown method always reads
    "... not found", whatever the name. *)
Lemma error_code_of_unknown_method (name : string) :
  error_code_of ("Method '" ++ name ++ "' not found")
  = JSONRPCError.METHOD_NOT_FOUND.
Proof.
  unfold error_code_of.
  rewrite !lower_app.
  rewrite contains_app_r; [reflexivity|].
  rewrite contains_app_r; reflexivity.
Qed.

Lemma error_code_of_cases (message : string) :
  error_code_of message = JSONRPCError.METHOD_NOT_FOUND \/
  error_code_of message = JSONRPCError.INTERNAL_ERROR.
Proof. unfold error_code_of. destruct (contains _ _); auto. Qed.

(** ** Facts about envelopes *)

Lemma is_envelope_failure (request_id : value) (message : string) :
  is_envelope
    (_create_error_response request_id (error_code_of message) message) = true.
Proof.
  destruct (error_code_of_cases message) as [-> | ->]; reflexivity.
Qed.

(** When the identifier is JSON data, as everything [get_json] decodes is,
    [jsonify] accepts a success envelope exactly when it accepts its
    result, and it accepts every error envelope (the digit limit, when
    there is one, is at least 640). *)
Lemma serialises_success_envelope (result request_id : value) :
  serialisable request_id = true ->
  serialisable (success_response result request_id)
  = serialises (success_response result request_id).
Proof.
  intros Hid. unfold serialises, success_response.
  cbn [payloads payload result_of Dict.get keqb string_Key serialisable].
  change (String.eqb "result" "jsonrpc") with false.
  change (String.eqb "result" "result") with true. cbv iota.
  cbn [forallb]. rewrite Hid. cbn [andb]. reflexivity.
Qed.

Lemma serialisable_error_envelope (request_id : value) (message : string) :
  serialisable request_id = true ->
  int_max_str_digits <= 0 \/ 640 <= int_max_str_digits ->
  forall code,
    In code [JSONRPCError.PARSE_ERROR; JSONRPCError.INVALID_REQUEST;
             JSONRPCError.METHOD_NOT_FOUND; JSONRPCError.INTERNAL_ERROR] ->
    serialisable (_create_error_response request_id code message) = true /\
    serialises (_create_error_response request_id code message) = true.
Proof.
  intros Hid Hlimit code Hcode. split; [|reflexivity].
  unfold _create_error_response. cbn [serialisable]. rewrite Hid.
  assert (Hfits : int_fits code = true).
  { unfold int_fits. apply orb_true_iff.
    destruct Hlimit as [H0 | H640]; [left; now apply Z.leb_le|].
    right. apply Z.leb_le.
    cbn [In] in Hcode.
    destruct Hcode as [<-|[<-|[<-|[<-|[]]]]]; cbn; lia. }
  now rewrite Hfits.
Qed.

Lemma well_formed_single (env : value) :
  is_envelope env = true -> well_formed_reply (Body env) = true.
Proof. destruct env; simpl; intros E; try discriminate; exact E. Qed.

(** ** The single-request pipeline *)

(** A value that is no mapping is answered with INVALID_REQUEST and a
    null identifier, and the state is left alone. *)
Lemma process_non_mapping (data : value) (w : World) :
  is_mapping data = false ->
  _process_single_request data w =
  (Ret (Some (_create_error_response VNone
                JSONRPCError.INVALID_REQUEST "Invalid Request")), w).
Proof. destruct data; simpl; intros E; try reflexivity; discriminate. Qed.

(** A request object never makes the pipeline raise; it is answered by
    nothing when it has no [id], and by one envelope carrying its [id]
    otherwise. *)
Lemma process_mapping (d : dict) (w : World) :
  exists w',
    if Dict.mem "id" d then
      exists env,
        _process_single_request (VDict d) w = (Ret (Some env), w') /\
        is_envelope env = true /\
        envelope_id env = Some (get_default "id" d VNone)
    else _process_single_request (VDict d) w = (Ret None, w').
Proof.
  unfold _process_single_request.
  set (request_id := get_default "id" d VNone).
  destruct (py_eq (get_default "jsonrpc" d VNone) (VStr "2.0")); simpl.
  2:{ exists w. destruct (Dict.mem "id" d); simpl; [|reflexivity].
      eexists; repeat split. }
  assert (Hinv :
    exists w', if Dict.mem "id" d then
      exists env,
        (if negb (negb (Dict.mem "id" d))
         then ret (Some (_create_error_response request_id
                           JSONRPCError.INVALID_REQUEST "Invalid Request"))
         else ret None) w = (Ret (Some env), w') /\
        is_envelope env = true /\ envelope_id env = Some request_id
    else (if negb (negb (Dict.mem "id" d))
          then ret (Some (_create_error_response request_id
                           JSONRPCError.INVALID_REQUEST "Invalid Request"))
          else ret None) w = (Ret None, w')).
  { exists w. destruct (Dict.mem "id" d); simpl; [|reflexivity].
    eexists; repeat split. }
  destruct (get_default "method" d VNone) as [| | | |name| | |]; try exact Hinv.
  destruct (truthy (VStr name)); simpl; [|exact Hinv].
  unfold try_except, bind.
  destruct (_call_method name (get_default "params" d (VList [])) w)
    as [[result|e] w'].
  - exists w'. destruct (Dict.mem "id" d); simpl; [|reflexivity].
    eexists; repeat split.
  - exists w'. destruct (Dict.mem "id" d); simpl; [|reflexivity].
    eexists; split; [reflexivity|]. split; [apply is_envelope_failure | reflexivity].
Qed.

(** ** The batch loop *)

Lemma sent_error (request_id : value) (code : Z) (message : string) :
  sent (_create_error_response request_id code message)
  = Body (_create_error_response request_id code message).
Proof. reflexivity. Qed.

Lemma handle_single (data : value) (w : World) :
  is_None data = false ->
  (forall items, data <> VList items) ->
  _handle_request (Json data) w =
  match _process_single_request data w with
  | (Ret (Some r), w') => (sent r, w')
  | (Ret None, w') => (NoContent, w')
  | (Raise e, w') => (internal_error e, w')
  end.
Proof.
  intros Hn Hl. unfold _handle_request, bind, try_except, get_json, ret.
  destruct data as [| | | | |l|d|re im]; try discriminate Hn;
    try (exfalso; apply (Hl l); reflexivity);
    cbn -[_process_single_request serialises];
    match goal with
    | |- context [_process_single_request ?x w] =>
        destruct (_process_single_request x w) as [[[r|]|e] w'];
          try reflexivity;
          unfold sent, jsonify, raise; destruct (serialises r); reflexivity
    end.
Qed.

Lemma handle_batch (items : list value) (w : World) :
  _handle_request (Json (VList items)) w =
  match process_batch items [] w with
  | (Ret rs, w') => (batch_reply rs, w')
  | (Raise e, w') => (internal_error e, w')
  end.
Proof.
  unfold _handle_request, bind, try_except, get_json, ret.
  cbn -[process_batch serialises].
  destruct (process_batch items [] w) as [[[|r rs]|e] w']; try reflexivity.
  unfold batch_reply, sent, jsonify, raise, ret.
  destruct (serialises (VList (r :: rs))); reflexivity.
Qed.

(** Processing one entry never raises; an entry is answered, by an
    envelope carrying its identifier, exactly when it is no
    notification. *)
Lemma process_single_cases (item : value) (w : World) :
  exists r,
    _process_single_request item w
    = (Ret r, snd (_process_single_request item w)) /\
    match r with
    | Some env => is_notification item = false /\ answers item env
    | None => is_notification item = true
    end.
Proof.
  destruct (is_mapping item) eqn:Hmap.
  - destruct item as [| | | | | |d|]; try discriminate.
    destruct (process_mapping d w) as [w' Hd].
    cbn [is_notification request_id_of]. unfold answers.
    destruct (Dict.mem "id" d).
    + destruct Hd as (env & Hp & Henv & Hidv). exists (Some env).
      rewrite Hp. cbn [request_id_of]. repeat split; assumption.
    + exists None. rewrite Hd. now split.
  - exists (Some (_create_error_response VNone
                    JSONRPCError.INVALID_REQUEST "Invalid Request")).
    rewrite (process_non_mapping item w Hmap).
    split; [reflexivity|].
    destruct item; try discriminate; repeat split.
Qed.

Lemma process_single_answers (item r : value) (w : World) :
  fst (_process_single_request item w) = Ret (Some r) -> answers item r.
Proof.
  destruct (process_single_cases item w) as (r' & Hp & H).
  rewrite Hp. cbn [fst]. intros E. injection E as ->. apply H.
Qed.

(** Bringing a response up to date changes its result only. *)
Lemma same_frame_refl (a : value) : same_frame a a.
Proof. repeat split. auto. Qed.

Lemma same_frame_trans (a b c : value) :
  same_frame a b -> same_frame b c -> same_frame a c.
Proof.
  intros (H1 & H2 & H3) (K1 & K2 & K3). split; [auto|].
  split; congruence.
Qed.

Lemma with_result_frame (env old r : value) :
  result_of env = Some old -> same_frame env (with_result env r).
Proof.
  destruct env as [| | | | | |d|]; try discriminate.
  cbn [result_of with_result]. intros Hres. split; [|split].
  - intros Henv.
    destruct d as [|[k1 v1] d]; [discriminate|].
    destruct v1 as [| | | |version| | |]; try discriminate.
    destruct d as [|[k2 p] d]; [discriminate|].
    destruct d as [|[k3 x] d]; [discriminate|].
    destruct d; [|discriminate].
    cbn [is_envelope] in Henv.
    apply andb_true_iff in Henv as [Henv _].
    apply andb_true_iff in Henv as [Henv H3].
    apply andb_true_iff in Henv as [H1 H2].
    apply String.eqb_eq in H1, H3. subst k1 k3.
    revert Hres. cbn [Dict.get Dict.set keqb string_Key].
    change (String.eqb "result" "jsonrpc") with false.
    change (String.eqb "result" "id") with false. cbv iota.
    destruct (String.eqb_spec "result" k2) as [<-|_]; [|discriminate].
    intros _. cbn [is_envelope]. now rewrite H2.
  - cbn [envelope_id]. now rewrite Dict_get_set.
  - cbn [envelope_error_code]. now rewrite Dict_get_set.
Qed.

Lemma evolves_refl (h : held) : evolves h h.
Proof. split; [apply same_frame_refl | reflexivity]. Qed.

Lemma evolves_trans (a b c : held) :
  evolves a b -> evolves b c -> evolves a c.
Proof.
  intros [F1 O1] [F2 O2]. split.
  - eapply same_frame_trans; eassumption.
  - intros Ha. specialize (O1 Ha). subst b. auto.
Qed.

Lemma refresh_evolves (w w' : World) (h : held) :
  evolves h (refresh w w' h).
Proof.
  unfold refresh.
  destruct (held_records h) as [|k|ks] eqn:Hr; [apply evolves_refl| |].
  - destruct (result_of (held_envelope h)) as [old|] eqn:Hres;
      [|apply evolves_refl].
    destruct (refresh_record w w' (Some k, old)) as [[k'|] user].
    + split; [|congruence]. cbn [held_envelope].
      eapply with_result_frame. eassumption.
    + split; [apply same_frame_refl | congruence].
  - destruct (result_of (held_envelope h)) as [old|] eqn:Hres;
      [|apply evolves_refl].
    destruct old; try apply evolves_refl.
    split; [|congruence]. cbn [held_envelope].
    eapply with_result_frame. eassumption.
Qed.

Lemma Forall2_evolves_refl (acc : list held) : Forall2 evolves acc acc.
Proof.
  induction acc; constructor; [apply evolves_refl | assumption].
Qed.

Lemma Forall2_evolves_refresh (w w' : World) (acc kept : list held) :
  Forall2 evolves (map (refresh w w') acc) kept -> Forall2 evolves acc kept.
Proof.
  revert kept. induction acc as [|h acc IH]; intros kept H; cbn [map] in H.
  - inversion H. constructor.
  - inversion H as [|? k ? kept' Hk Hrest]; subst. constructor.
    + eapply evolves_trans; [apply refresh_evolves | exact Hk].
    + now apply IH.
Qed.

Lemma calls_app (xs ys : list value) :
  calls (xs ++ ys)%list = (calls xs ++ calls ys)%list.
Proof. apply filter_app. Qed.

Lemma run_requests_app (xs ys : list value) (w : World) :
  run_requests (xs ++ ys)%list w = run_requests ys (run_requests xs w).
Proof.
  revert w. induction xs as [|x xs IH]; intros w; cbn [run_requests app];
    [reflexivity | apply IH].
Qed.

(** The loop never raises.  It leaves the state the entries lead to, and
    a list made of the responses it started from, brought up to date,
    followed by one response per entry that is no notification, in the
    order of the entries. *)
Lemma collect_responses_spec (items : list value) :
  forall acc w, exists kept new,
    collect_responses items acc w
    = (Ret (kept ++ new)%list, run_requests items w) /\
    Forall2 evolves acc kept /\
    Forall2 produced (calls items) new.
Proof.
  induction items as [|item items IH]; intros acc w.
  - exists acc, []. cbn [collect_responses run_requests calls filter].
    rewrite app_nil_r. split; [reflexivity|].
    split; [apply Forall2_evolves_refl | constructor].
  - destruct (process_single_cases item w) as (r & Hp & Hr).
    cbn [collect_responses run_requests]. rewrite Hp.
    set (w1 := snd (_process_single_request item w)) in *.
    unfold calls. cbn [filter]. fold (calls items).
    destruct r as [env|].
    + destruct Hr as [Hn _]. rewrite Hn. cbn [negb].
      destruct (IH (map (refresh w w1) acc ++ [mkHeld env (shares item env w)])%list w1)
        as (kept1 & new1 & Hc & Hk & Hnew).
      apply Forall2_app_inv_l in Hk as (ka & kb & Hka & Hkb & ->).
      inversion Hkb as [|? k0 ? kb' Hk0 Hnil]; subst. inversion Hnil; subst.
      exists ka, (k0 :: new1). split; [|split].
      * rewrite Hc. now rewrite <- app_assoc.
      * eapply Forall2_evolves_refresh. eassumption.
      * constructor; [|exact Hnew].
        exists env, w. split; [now rewrite Hp | exact Hk0].
    + rewrite Hr. cbn [negb].
      destruct (IH (map (refresh w w1) acc) w1) as (kept1 & new1 & Hc & Hk & Hnew).
      exists kept1, new1. split; [exact Hc|]. split; [|exact Hnew].
      eapply Forall2_evolves_refresh. eassumption.
Qed.

Lemma process_batch_spec (items : list value) (w : World) :
  exists new,
    process_batch items [] w
    = (Ret (map held_envelope new), run_requests items w) /\
    Forall2 produced (calls items) new.
Proof.
  destruct (collect_responses_spec items [] w) as (kept & new & Hc & Hk & Hn).
  inversion Hk; subst. exists new.
  unfold process_batch, bind. rewrite Hc. now split.
Qed.

Lemma produced_answers (item : value) (k : held) :
  produced item k -> answers item (held_envelope k).
Proof.
  intros (r & w0 & Hp & (Hf & Hi & _) & _).
  destruct (process_single_answers item r w0 Hp) as [He Hid].
  cbn [held_envelope] in *. split; [now apply Hf | now rewrite Hi].
Qed.

Lemma process_batch_answers (items : list value) (w : World) :
  exists rs,
    process_batch items [] w = (Ret rs, run_requests items w) /\
    Forall2 answers (calls items) rs.
Proof.
  destruct (process_batch_spec items w) as (new & Hp & Hn).
  exists (map held_envelope new). split; [exact Hp|].
  clear Hp. induction Hn as [|item k items' new' Hk _ IH]; cbn [map];
    constructor; [now apply produced_answers | exact IH].
Qed.

Lemma answers_envelopes (items rs : list value) :
  Forall2 answers items rs -> forallb is_envelope rs = true.
Proof.
  induction 1 as [|item r items rs (Henv & _) _ IH]; simpl; [reflexivity|].
  now rewrite Henv, IH.
Qed.

Lemma well_formed_sent (env : value) :
  is_envelope env = true -> well_formed_reply (sent env) = true.
Proof.
  intros E. unfold sent. destruct (serialises env);
    [now apply well_formed_single | reflexivity].
Qed.

Lemma well_formed_batch_reply (rs : list value) :
  forallb is_envelope rs = true -> well_formed_reply (batch_reply rs) = true.
Proof.
  intros E. destruct rs as [|r rs]; [reflexivity|].
  unfold batch_reply, sent. destruct (serialises (VList (r :: rs)));
    [exact E | reflexivity].
Qed.

Lemma handle_batch_answers (items : list value) (w : World) :
  exists rs,
    process_batch items [] w = (Ret rs, run_requests items w) /\
    Forall2 answers (calls items) rs /\
    _handle_request (Json (VList items)) w
    = (batch_reply rs, run_requests items w).
Proof.
  destruct (process_batch_answers items w) as (rs & Hp & Ha).
  exists rs. split; [exact Hp|]. split; [exact Ha|].
  now rewrite handle_batch, Hp.
Qed.

Lemma get_default_some (k : string) (d : dict) (default v : value) :
  Dict.get k d = Some v -> get_default k d default = v.
Proof. unfold get_default. now intros ->. Qed.

Lemma get_default_del (k : string) (d : dict) (default : value) :
  String.eqb k "params" = false ->
  get_default k (Dict.del "params" d) default = get_default k d default.
Proof.
  intros Hk. unfold get_default. rewrite Dict_get_del.
  simpl keqb. now rewrite Hk.
Qed.

Lemma call_method_no_params (name : string) (p : value) :
  is_list_or_mapping p = false ->
  _call_method name p = _call_method name (VList []).
Proof.
  intros Hp. unfold _call_method.
  destruct (Dict.get name method_map) as [func|]; [|reflexivity].
  destruct p; try discriminate; reflexivity.
Qed.

Lemma process_invalid_envelope (d : dict) (w : World) :
  envelope_method d = None ->
  _process_single_request (VDict d) w =
  (Ret (if Dict.mem "id" d
        then Some (_create_error_response (get_default "id" d VNone)
                     JSONRPCError.INVALID_REQUEST "Invalid Request")
        else None), w).
Proof.
  unfold envelope_method, _process_single_request. cbv zeta.
  destruct (py_eq (get_default "jsonrpc" d VNone) (VStr "2.0")); cbn [negb].
  - destruct (get_default "method" d VNone) as [| | | |name| | |]; intros E;
      try (destruct (Dict.mem "id" d); reflexivity).
    destruct (truthy (VStr name)); [discriminate|].
    cbn [negb]. destruct (Dict.mem "id" d); reflexivity.
  - intros _. destruct (Dict.mem "id" d); reflexivity.
Qed.

Lemma process_valid_envelope (d : dict) (name : string) (w : World) :
  envelope_method d = Some name ->
  _process_single_request (VDict d) w =
  match _call_method name (get_default "params" d (VList [])) w with
  | (Ret v, w') =>
      (Ret (if Dict.mem "id" d
            then Some (success_response v (get_default "id" d VNone))
            else None), w')
  | (Raise e, w') =>
      (Ret (if Dict.mem "id" d
            then Some (_create_error_response (get_default "id" d VNone)
                         (error_code_of (exn_str e)) (exn_str e))
            else None), w')
  end.
Proof.
  unfold envelope_method, _process_single_request. cbv zeta.
  destruct (py_eq (get_default "jsonrpc" d VNone) (VStr "2.0"));
    [|discriminate]. cbn [negb].
  destruct (get_default "method" d VNone) as [| | | |name'| | |];
    try discriminate.
  destruct (truthy (VStr name')); [|discriminate].
  intros E. injection E as ->. cbn [negb]. unfold try_except, bind.
  destruct (_call_method name (get_default "params" d (VList [])) w)
    as [[v|e] w']; destruct (Dict.mem "id" d); reflexivity.
Qed.

Lemma call_method_success (name : string) (func : handler) (params : value)
    (v : value) (w w' : World) :
  Dict.get name method_map = Some func ->
  apply_params func params w = (Ret v, w') ->
  _call_method name params w = (Ret v, w').
Proof.
  intros Hreg Hok. unfold _call_method, try_except. now rewrite Hreg, Hok.
Qed.

(** ** The dispatcher: the properties of the specification *)

(** C1: whatever the transport hands over (a body that does not decode,
    or any decoded value), [_handle_request] gives back a well-formed
    output: one response envelope, a non-empty list of response
    envelopes, or the empty body.  Neither the processing of one request
    nor the loop over a batch ever ends in an exception: validation and
    the call of the handler always yield a value. *)
Theorem dispatch_well_formed (request : raw_body) (w : World) :
  well_formed_reply (fst (_handle_request request w)) = true /\
  (forall data w0, exists r w1,
      _process_single_request data w0 = (Ret r, w1) /\
      match r with Some env => is_envelope env = true | None => True end) /\
  (forall items w0, exists rs w1,
      process_batch items [] w0 = (Ret rs, w1) /\
      forallb is_envelope rs = true).
Proof.
  assert (Hsingle : forall data w0, exists r w1,
      _process_single_request data w0 = (Ret r, w1) /\
      match r with Some env => is_envelope env = true | None => True end).
  { intros data w0. destruct (process_single_cases data w0) as (r & Hp & Hr).
    exists r, (snd (_process_single_request data w0)). split; [exact Hp|].
    destruct r as [env|]; [apply Hr | exact I]. }
  assert (Hbatch : forall items w0, exists rs w1,
      process_batch items [] w0 = (Ret rs, w1) /\
      forallb is_envelope rs = true).
  { intros items w0.
    destruct (process_batch_answers items w0) as (rs & Hrs & Hall).
    exists rs, (run_requests items w0). split; [exact Hrs|].
    eapply answers_envelopes; eassumption. }
  split; [|split; assumption].
  destruct request as [|data]; [reflexivity|].
  destruct data as [| | | | |items|d|re im];
    try (rewrite handle_single by (try reflexivity; intros; discriminate);
         rewrite process_non_mapping by reflexivity; reflexivity).
  - reflexivity.
  - rewrite handle_batch.
    destruct (Hbatch items w) as (rs & w1 & -> & Henv).
    now apply well_formed_batch_reply.
  - rewrite handle_single by (try reflexivity; intros; discriminate).
    destruct (Hsingle (VDict d) w) as (r & w1 & -> & Henv).
    destruct r as [env|]; [now apply well_formed_sent | reflexivity].
Qed.

(** C2: a request object without the key [id] is never answered.  Sent
    alone it is processed, yields no response, and the reply is the empty
    body.  As an entry of a batch it is processed at its turn, in the state
    the entries before it lead to, and adds nothing to the list of
    responses: the list has one envelope per entry with an [id] among the
    entries before and after it, in their order, each carrying the
    identifier of its entry, and the reply is made of that list alone; a
    batch of notifications only is answered by the empty body.  This holds
    whether the envelope is valid or not and whether the method succeeds
    or fails. *)
Theorem notification_never_answered (d : dict) (pre post : list value)
    (w : World) (Hid : Dict.mem "id" d = false) :
  (exists w',
      _process_single_request (VDict d) w = (Ret None, w') /\
      _handle_request (Json (VDict d)) w = (NoContent, w')) /\
  (exists w2 rs,
      _process_single_request (VDict d) (run_requests pre w)
        = (Ret None, w2) /\
      process_batch (pre ++ VDict d :: post)%list [] w
        = (Ret rs, run_requests post w2) /\
      Forall2 answers (calls (pre ++ post)%list) rs /\
      List.length rs = List.length (calls (pre ++ post)%list) /\
      _handle_request (Json (VList (pre ++ VDict d :: post)%list)) w
        = (batch_reply rs, run_requests post w2)) /\
  (forall items w0,
      forallb is_notification items = true ->
      _handle_request (Json (VList (VDict d :: items))) w0
      = (NoContent, run_requests (VDict d :: items) w0)).
Proof.
  assert (Hnone : forall w0, exists w1,
             _process_single_request (VDict d) w0 = (Ret None, w1)).
  { intros w0. destruct (process_mapping d w0) as [w1 Hd].
    rewrite Hid in Hd. now exists w1. }
  split; [|split].
  - destruct (Hnone w) as [w' Hd]. exists w'. split; [exact Hd|].
    rewrite handle_single by (try reflexivity; intros; discriminate).
    now rewrite Hd.
  - destruct (Hnone (run_requests pre w)) as [w2 Hd].
    destruct (handle_batch_answers (pre ++ VDict d :: post)%list w)
      as (rs & Hp & Ha & Hh).
    assert (Hstate : run_requests (pre ++ VDict d :: post)%list w
                     = run_requests post w2).
    { rewrite run_requests_app. cbn [run_requests]. now rewrite Hd. }
    assert (Hcalls : calls (pre ++ VDict d :: post)%list
                     = calls (pre ++ post)%list).
    { rewrite !calls_app. unfold calls at 2. cbn [filter is_notification].
      now rewrite Hid. }
    rewrite Hstate in Hp, Hh. rewrite Hcalls in Ha.
    exists w2, rs. split; [exact Hd|]. split; [exact Hp|].
    split; [exact Ha|]. split; [|exact Hh].
    symmetry. eapply Forall2_length. eassumption.
  - intros items w0 Hall.
    destruct (handle_batch_answers (VDict d :: items) w0) as (rs & _ & Ha & Hh).
    assert (Hcalls : calls (VDict d :: items) = []).
    { unfold calls. cbn [filter is_notification]. rewrite Hid. cbn [negb].
      clear -Hall. induction items as [|item items IH]; [reflexivity|].
      cbn [forallb] in Hall. apply andb_true_iff in Hall as [Hitem Hrest].
      cbn [filter]. rewrite Hitem. cbn [negb]. now apply IH. }
    rewrite Hcalls in Ha. inversion Ha; subst. exact Hh.
Qed.

(** X25: a single request object with [jsonrpc] equal to "2.0", a string
    as [method] and the key [id] present (whatever its value, [None]
    included) is processed into exactly one response envelope, and the [id]
    of that envelope is the very value of the request, on success and on
    error alike.  The reply is that envelope when its result can be
    serialised, as an error envelope always can; when it cannot, the reply
    is the INTERNAL_ERROR envelope of the outer [except] clause, whose
    identifier is null. *)
Theorem call_answered_with_its_id (d : dict) (name : string)
    (request_id : value) (w : World)
    (Hversion : py_eq (get_default "jsonrpc" d VNone) (VStr "2.0") = true)
    (Hmethod : Dict.get "method" d = Some (VStr name))
    (Hid : Dict.get "id" d = Some request_id) :
  exists env w',
    _process_single_request (VDict d) w = (Ret (Some env), w') /\
    is_envelope env = true /\
    envelope_id env = Some request_id /\
    _handle_request (Json (VDict d)) w
    = (if serialises env then Body env
       else internal_error (jsonify_error env), w') /\
    (result_of env = None -> serialises env = true).
Proof.
  destruct (process_mapping d w) as [w' Hd].
  assert (Hmem : Dict.mem "id" d = true)
    by (apply Dict_mem_get; now exists request_id).
  rewrite Hmem in Hd. destruct Hd as (env & Hp & Henv & Hidv).
  exists env, w'. split; [exact Hp|]. split; [exact Henv|]. split; [|split].
  - rewrite Hidv. unfold get_default. now rewrite Hid.
  - rewrite handle_single by (try reflexivity; intros; discriminate).
    now rewrite Hp.
  - destruct env; try discriminate.
    unfold serialises, payloads, payload. now intros ->.
Qed.

(** X5: for a batch, the list of responses has one envelope per entry
    that is no notification, in the order of those entries, each carrying
    the identifier of its entry, and the state is the one the entries,
    processed in order, lead to.  The reply is the empty body when the list
    is empty (every entry a notification, or no entry at all), the list
    when every result in it can be serialised, and otherwise the one
    INTERNAL_ERROR envelope of the outer [except] clause, with a null
    identifier, in place of the whole list. *)
Theorem batch_answers_every_call (items : list value) (w : World) :
  exists rs,
    process_batch items [] w = (Ret rs, run_requests items w) /\
    Forall2 answers (calls items) rs /\
    List.length rs = List.length (calls items) /\
    _handle_request (Json (VList items)) w
    = (match rs with
       | [] => NoContent
       | _ => if serialises (VList rs) then Body (VList rs)
              else internal_error (jsonify_error (VList rs))
       end, run_requests items w).
Proof.
  destruct (handle_batch_answers items w) as (rs & Hp & Ha & Hh).
  exists rs. split; [exact Hp|]. split; [exact Ha|].
  split; [symmetry; eapply Forall2_length; eassumption|].
  rewrite Hh. destruct rs; reflexivity.
Qed.

Lemma error_code_of_not_found_suffix (a : string) :
  error_code_of (a ++ " not found") = JSONRPCError.METHOD_NOT_FOUND.
Proof.
  unfold error_code_of. rewrite lower_app.
  rewrite contains_app_r; reflexivity.
Qed.

Lemma call_method_failure (name : string) (func : handler) (params : value)
    (w w' : World) (e : exn) :
  Dict.get name method_map = Some func ->
  apply_params func params w = (Raise e, w') ->
  _call_method name params w =
  (Raise (mkExn Exception_ (call_failure_message name e)), w').
Proof.
  intros Hreg Hfail. unfold _call_method, try_except.
  rewrite Hreg, Hfail. unfold call_failure_message.
  destruct e as [[| |] msg]; reflexivity.
Qed.

Lemma registered_name_not_empty (name : string) (func : handler) :
  Dict.get name method_map = Some func -> truthy (VStr name) = true.
Proof. destruct name; [discriminate | reflexivity]. Qed.

(** C5, as the code has it: for a call with [id] present, a valid
    envelope and a registered method, a failure raised inside the handler
    yields an error envelope carrying the request's [id] and the text of
    the failure; its code is INTERNAL_ERROR (-32603) unless the text, in
    lower case, contains "not found", and METHOD_NOT_FOUND (-32601) when it
    does.  The failure of [get_user_by_id] on an id that is not in the user
    table reads "... not found": it gets the code -32601. *)
Theorem handler_failure_code (d : dict) (name : string) (func : handler)
    (request_id : value) (e : exn) (w w' : World)
    (Hversion : py_eq (get_default "jsonrpc" d VNone) (VStr "2.0") = true)
    (Hmethod : Dict.get "method" d = Some (VStr name))
    (Hid : Dict.get "id" d = Some request_id)
    (Hreg : Dict.get name method_map = Some func)
    (Hfail : apply_params func (get_default "params" d (VList [])) w
             = (Raise e, w')) :
  let message := call_failure_message name e in
  _process_single_request (VDict d) w =
    (Ret (Some (_create_error_response request_id
                  (if contains "not found" (lower message)
                   then JSONRPCError.METHOD_NOT_FOUND
                   else JSONRPCError.INTERNAL_ERROR) message)), w') /\
  (forall user_id,
      error_code_of
        (call_failure_message "get_user_by_id"
           (mkExn ValueError ("User with ID " ++ py_str user_id ++ " not found")))
      = JSONRPCError.METHOD_NOT_FOUND).
Proof.
  intros message. split.
  - assert (Hmem : Dict.mem "id" d = true)
      by (apply Dict_mem_get; now exists request_id).
    unfold _process_single_request. cbv zeta.
    rewrite Hversion, Hmem.
    rewrite !(fun x => @get_default_some "method" d x _ Hmethod).
    rewrite !(fun x => @get_default_some "id" d x _ Hid).
    rewrite (@registered_name_not_empty name func Hreg).
    cbn [negb]. unfold try_except, bind.
    rewrite (@call_method_failure name func _ w w' e Hreg Hfail).
    reflexivity.
  - intros user_id.
    exact (error_code_of_not_found_suffix
             ("Invalid parameter values for method 'get_user_by_id': User with ID "
              ++ py_str user_id)).
Qed.

(** C6, as the code has it: a call with [id] present, [jsonrpc] equal to
    "2.0" and, as [method], a non-empty string that is not a key of the
    method registry is answered by an error envelope with code
    METHOD_NOT_FOUND (-32601) carrying the request's [id]. *)
Theorem unknown_method_code (d : dict) (name : string) (request_id : value)
    (w : World)
    (Hversion : py_eq (get_default "jsonrpc" d VNone) (VStr "2.0") = true)
    (Hmethod : Dict.get "method" d = Some (VStr name))
    (Hname : name <> "")
    (Hid : Dict.get "id" d = Some request_id)
    (Hreg : Dict.get name method_map = None) :
  let env := _create_error_response request_id JSONRPCError.METHOD_NOT_FOUND
               ("Method '" ++ name ++ "' not found") in
  _process_single_request (VDict d) w = (Ret (Some env), w) /\
  _handle_request (Json (VDict d)) w = (Body env, w) /\
  envelope_error_code env = Some (VInt JSONRPCError.METHOD_NOT_FOUND) /\
  envelope_id env = Some request_id.
Proof.
  intros env.
  assert (Hp : _process_single_request (VDict d) w = (Ret (Some env), w)).
  { assert (Hmem : Dict.mem "id" d = true)
      by (apply Dict_mem_get; now exists request_id).
    assert (Ht : truthy (VStr name) = true)
      by (destruct name; [congruence | reflexivity]).
    unfold _process_single_request. cbv zeta.
    rewrite Hversion, Hmem.
    rewrite !(fun x => @get_default_some "method" d x _ Hmethod).
    rewrite !(fun x => @get_default_some "id" d x _ Hid).
    rewrite Ht. cbn [negb]. unfold try_except, bind, _call_method.
    rewrite Hreg. cbn [raise ret exn_str negb].
    now rewrite error_code_of_unknown_method. }
  split; [exact Hp|]. split; [|split; reflexivity].
  rewrite handle_single by (try reflexivity; intros; discriminate).
  now rewrite Hp.
Qed.

(** An entry that is no mapping is answered by the INVALID_REQUEST
    envelope, which nothing changes afterwards. *)
Lemma produced_non_mapping (item : value) (k : held) :
  is_mapping item = false ->
  produced item k ->
  held_envelope k
  = _create_error_response VNone JSONRPCError.INVALID_REQUEST "Invalid Request".
Proof.
  intros Hmap (r & w0 & Hp & _ & Hown).
  rewrite (process_non_mapping item w0 Hmap) in Hp. cbn [fst] in Hp.
  injection Hp as <-.
  rewrite Hown; [reflexivity|].
  destruct item; try discriminate; reflexivity.
Qed.

(** C7, as the code has it: a value that is no mapping is never dropped
    as a notification.  Processed as a request, in particular as an entry
    of a batch (at any place, [None] and nested arrays included), it is
    answered by an INVALID_REQUEST (-32600) error envelope with a null
    identifier and leaves the state alone; in the list of responses of the
    batch this envelope stands at the place of the entry, between the
    responses to the entries before it and those to the entries after it,
    and the reply is made of that list.  At top level the same envelope is
    the reply for every value that is neither [None] nor an array; a
    top-level [None] is answered by the PARSE_ERROR (-32700) envelope with
    a null identifier (and a top-level array is a batch). *)
Theorem non_mapping_is_invalid_request (item : value)
    (pre post : list value) (w : World)
    (Hitem : is_mapping item = false) :
  let invalid :=
    _create_error_response VNone JSONRPCError.INVALID_REQUEST "Invalid Request" in
  _process_single_request item w = (Ret (Some invalid), w) /\
  match item with
  | VNone =>
      _handle_request (Json item) w =
      (Body (_create_error_response VNone
               JSONRPCError.PARSE_ERROR "Parse error"), w)
  | VList _ => True
  | _ => _handle_request (Json item) w = (Body invalid, w)
  end /\
  exists r1 r2,
    process_batch (pre ++ item :: post)%list [] w
    = (Ret (r1 ++ invalid :: r2)%list, run_requests post (run_requests pre w)) /\
    Forall2 answers (calls pre) r1 /\
    Forall2 answers (calls post) r2 /\
    _handle_request (Json (VList (pre ++ item :: post)%list)) w
    = (sent (VList (r1 ++ invalid :: r2)%list),
       run_requests post (run_requests pre w)).
Proof.
  intros invalid. split; [now apply process_non_mapping|]. split.
  - destruct item; try discriminate; try exact I; reflexivity.
  - destruct (process_batch_spec (pre ++ item :: post)%list w)
      as (new & Hp & Hn).
    assert (Hstate : run_requests (pre ++ item :: post)%list w
                     = run_requests post (run_requests pre w)).
    { rewrite run_requests_app. cbn [run_requests].
      now rewrite (process_non_mapping item _ Hitem). }
    assert (Hcall : is_notification item = false)
      by (destruct item; try reflexivity; discriminate).
    rewrite calls_app in Hn. unfold calls at 2 in Hn. cbn [filter] in Hn.
    rewrite Hcall in Hn. cbn [negb] in Hn. fold (calls post) in Hn.
    apply Forall2_app_inv_l in Hn as (n1 & n2 & Hn1 & Hn2 & ->).
    inversion Hn2 as [|? k ? n2' Hk Hn2']; subst.
    assert (Hanswers : forall items new,
               Forall2 produced items new ->
               Forall2 answers items (map held_envelope new)).
    { clear. intros items new H.
      induction H; cbn [map]; constructor;
        [now apply produced_answers | assumption]. }
    rewrite map_app in Hp. cbn [map] in Hp.
    rewrite (produced_non_mapping item k Hitem Hk) in Hp. fold invalid in Hp.
    rewrite Hstate in Hp.
    exists (map held_envelope n1), (map held_envelope n2').
    split; [exact Hp|]. split; [now apply Hanswers|].
    split; [now apply Hanswers|].
    rewrite handle_batch, Hp. unfold batch_reply.
    destruct (map held_envelope n1); reflexivity.
Qed.

(** C8: when [params] is present and is neither a mapping nor a list (a
    string, a number, a boolean, [None]), the method the registry resolves
    is called with no argument at all, what it returns or raises makes the
    response, and the request is processed exactly as the same request
    without the key [params]: same response, same state. *)
Theorem scalar_params_mean_no_arguments (d : dict) (p : value) (w : World)
    (Hparams : Dict.get "params" d = Some p)
    (Hscalar : is_list_or_mapping p = false) :
  (forall func : handler, apply_params func p = func [] []) /\
  (forall name func,
      Dict.get name method_map = Some func ->
      _call_method name p w =
      match func [] [] w with
      | (Ret v, w') => (Ret v, w')
      | (Raise e, w') =>
          (Raise (mkExn Exception_ (call_failure_message name e)), w')
      end) /\
  (forall name func,
      envelope_method d = Some name ->
      Dict.get name method_map = Some func ->
      _process_single_request (VDict d) w =
      match func [] [] w with
      | (Ret v, w') =>
          (Ret (if Dict.mem "id" d
                then Some (success_response v (get_default "id" d VNone))
                else None), w')
      | (Raise e, w') =>
          let message := call_failure_message name e in
          (Ret (if Dict.mem "id" d
                then Some (_create_error_response (get_default "id" d VNone)
                             (error_code_of message) message)
                else None), w')
      end) /\
  (forall name, _call_method name p = _call_method name (VList [])) /\
  _process_single_request (VDict d) w =
  _process_single_request (VDict (Dict.del "params" d)) w.
Proof.
  assert (Happly : forall func : handler, apply_params func p = func [] [])
    by (intros func; destruct p; try discriminate; reflexivity).
  assert (Hcall : forall name func,
      Dict.get name method_map = Some func ->
      _call_method name p w =
      match func [] [] w with
      | (Ret v, w') => (Ret v, w')
      | (Raise e, w') =>
          (Raise (mkExn Exception_ (call_failure_message name e)), w')
      end).
  { intros name func Hreg.
    destruct (func [] [] w) as [[v|e] w'] eqn:Hf.
    - apply (call_method_success name func p v w w' Hreg).
      now rewrite Happly.
    - apply (call_method_failure name func p w w' e Hreg).
      now rewrite Happly. }
  split; [exact Happly|]. split; [exact Hcall|]. split; [|split].
  - intros name func Hvalid Hreg.
    rewrite (process_valid_envelope d name w Hvalid).
    rewrite (get_default_some "params" d (VList []) p Hparams).
    rewrite (Hcall name func Hreg).
    destruct (func [] [] w) as [[v|e] w']; reflexivity.
  - intros name. now apply call_method_no_params.
  - unfold _process_single_request. cbv zeta.
    rewrite !get_default_del by reflexivity.
    assert (Hmem : Dict.mem "id" (Dict.del "params" d) = Dict.mem "id" d)
      by (unfold Dict.mem; now rewrite Dict_get_del).
    rewrite Hmem.
    assert (Hold : get_default "params" d (VList []) = p)
      by (now apply get_default_some).
    assert (Hnew : get_default "params" (Dict.del "params" d) (VList []) = VList []).
    { unfold get_default. now rewrite Dict_get_del. }
    rewrite Hold, Hnew.
    destruct (get_default "method" d VNone) as [| | | |name| | |]; try reflexivity.
    now rewrite (@call_method_no_params name p Hscalar).
Qed.

(** ** UserService: the effect of each method *)

Lemma table_key_cases (v : value) (w : World) :
  (exists e, table_key v w = (Raise e, w)) \/
  (exists k, table_key v w = (Ret k, w)).
Proof. destruct v; simpl; unfold ret, raise; eauto. Qed.

Lemma check_duplicate_email_cases (email : value) (us : list dict) (w : World) :
  (exists e, check_duplicate_email email us w = (Raise e, w)) \/
  check_duplicate_email email us w = (Ret tt, w).
Proof.
  induction us as [|user us IH]; simpl; [now right|].
  destruct (Dict.get "email" user) as [e|]; [|left; eexists; reflexivity].
  destruct (py_eq e email); [left; eexists; reflexivity | exact IH].
Qed.

Lemma create_user_cases (name email age : value) (w : World) :
  (exists e, create_user name email age w = (Raise e, w)) \/
  create_user name email age w =
  (Ret (VDict (new_user (counter w) name email age
                 (isoformat_now (clock w)) (isoformat_now (S (clock w))))),
   mkWorld
     (mkUserService
        (Dict.set (counter w)
           (new_user (counter w) name email age
              (isoformat_now (clock w)) (isoformat_now (S (clock w))))
           (table w))
        (counter w + 1))
     (S (S (clock w)))).
Proof.
  unfold create_user.
  destruct (negb (truthy name) || negb (truthy email));
    [left; eexists; reflexivity|].
  unfold bind. cbn [get_users].
  destruct (check_duplicate_email_cases email (Dict.values (users (user_service w))) w)
    as [[e He] | He]; rewrite He; [left; eauto | right; reflexivity].
Qed.

Lemma get_user_by_id_cases (user_id : value) (w : World) :
  (exists e, get_user_by_id user_id w = (Raise e, w)) \/
  (exists z user,
      table_key user_id w = (Ret (Some z), w) /\
      Dict.get z (table w) = Some user /\
      get_user_by_id user_id w = (Ret (VDict user), w)).
Proof.
  unfold get_user_by_id, bind.
  destruct (table_key_cases user_id w) as [[e He] | [k Hk]].
  - rewrite He. left; eauto.
  - rewrite Hk. cbn [get_users].
    destruct k as [z|]; cbn [lookup_user]; [|left; eexists; reflexivity].
    destruct (Dict.get z (users (user_service w))) as [user|] eqn:Hget;
      [|left; eexists; reflexivity].
    right. exists z, user. auto.
Qed.

Lemma update_user_cases (user_id : value) (kwargs : dict) (w : World) :
  (exists e, update_user user_id kwargs w = (Raise e, w)) \/
  (exists z user,
      table_key user_id w = (Ret (Some z), w) /\
      Dict.get z (table w) = Some user /\
      let user' := Dict.set "updated_at" (VStr (isoformat_now (clock w)))
                     (fold_left update_field kwargs user) in
      update_user user_id kwargs w =
      (Ret (VDict user'),
       mkWorld (mkUserService (Dict.set z user' (table w)) (counter w))
               (S (clock w)))).
Proof.
  unfold update_user, bind.
  destruct (table_key_cases user_id w) as [[e He] | [k Hk]].
  - rewrite He. left; eauto.
  - rewrite Hk. cbn [get_users].
    destruct k as [z|]; cbn [lookup_user]; [|left; eexists; reflexivity].
    destruct (Dict.get z (users (user_service w))) as [user|] eqn:Hget;
      [|left; eexists; reflexivity].
    right. exists z, user. auto.
Qed.

Lemma delete_user_cases (user_id : value) (w : World) :
  (exists e, delete_user user_id w = (Raise e, w)) \/
  (exists z user v,
      table_key user_id w = (Ret (Some z), w) /\
      Dict.get z (table w) = Some user /\
      delete_user user_id w =
      (Ret v,
       mkWorld (mkUserService (Dict.del z (table w)) (counter w)) (clock w))).
Proof.
  unfold delete_user, bind.
  destruct (table_key_cases user_id w) as [[e He] | [k Hk]].
  - rewrite He. left; eauto.
  - rewrite Hk. cbn [get_users].
    destruct k as [z|]; cbn [lookup_user]; [|left; eexists; reflexivity].
    destruct (Dict.get z (users (user_service w))) as [user|] eqn:Hget;
      [|left; eexists; reflexivity].
    right. exists z, user. eexists. split; [reflexivity|]. split; [exact Hget|].
    reflexivity.
Qed.

(** ** UserService: the id counter bounds the table *)

Lemma Forall_Dict_set {K V} `{Key K} (P : K * V -> Prop) (k : K) (v : V)
    (d : list (K * V)) :
  Forall P d -> P (k, v) -> Forall P (Dict.set k v d).
Proof.
  intros Hd Hkv. induction Hd as [|[a b] d Hab Hd IH]; simpl.
  - constructor; [exact Hkv | constructor].
  - destruct (keqb k a); constructor; auto.
Qed.

Lemma Forall_Dict_del {K V} `{Key K} (P : K * V -> Prop) (k : K)
    (d : list (K * V)) :
  Forall P d -> Forall P (Dict.del k d).
Proof.
  intros Hd. unfold Dict.del. induction Hd as [|kv d Hkv Hd IH]; simpl.
  - constructor.
  - destruct (negb (keqb k (fst kv))); [constructor|]; auto.
Qed.

Lemma table_inv_key (us : UserService) (z : Z) (user : dict) :
  table_inv us -> Dict.get z (users us) = Some user -> z < next_id us.
Proof.
  intros Hinv Hget. apply Dict_get_In in Hget.
  unfold table_inv in Hinv. rewrite Forall_forall in Hinv.
  exact (Hinv _ Hget).
Qed.

Lemma table_inv_fresh (us : UserService) (z : Z) :
  table_inv us -> next_id us <= z -> Dict.get z (users us) = None.
Proof.
  intros Hinv Hz. destruct (Dict.get z (users us)) as [user|] eqn:Hget;
    [|reflexivity].
  pose proof (table_inv_key us z user Hinv Hget). lia.
Qed.

Lemma table_inv_init : table_inv UserService_init.
Proof. constructor. Qed.

(** One method call keeps the invariant and never lowers the counter; the
    only id a call can give out is the value of the counter, which the
    call then steps over. *)
Lemma run_op_step (op : user_op) (w w1 : World) (r : result value) :
  table_inv (user_service w) ->
  run_op op w = (r, w1) ->
  table_inv (user_service w1) /\
  counter w <= counter w1 /\
  (forall z, created_id (op, r) = Some z ->
             z = counter w /\ counter w1 = z + 1).
Proof.
  intros Hinv Hrun. unfold counter.
  destruct op as [name email age | user_id | user_id kwargs | user_id |];
    cbn [run_op] in Hrun.
  - destruct (create_user_cases name email age w) as [[e He] | Hok].
    + rewrite He in Hrun. injection Hrun as <- <-.
      split; [exact Hinv|]. split; [lia | discriminate].
    + rewrite Hok in Hrun. injection Hrun as <- <-.
      cbn [user_service users next_id]. unfold counter, table.
      split; [|split; [lia|]].
      * apply Forall_Dict_set; [|cbn beta iota delta [fst next_id]; lia].
        eapply Forall_impl; [|exact Hinv].
        cbn beta iota delta [next_id]. intros kv Hkv. lia.
      * intros z Hz. cbn in Hz. injection Hz as <-. split; reflexivity.
  - destruct (get_user_by_id_cases user_id w) as [[e He] | (z & user & _ & _ & Hok)];
      [rewrite He in Hrun | rewrite Hok in Hrun];
      injection Hrun as <- <-; (split; [exact Hinv|]); (split; [lia | discriminate]).
  - destruct (update_user_cases user_id kwargs w) as [[e He] | (z & user & _ & Hget & Hok)].
    + rewrite He in Hrun. injection Hrun as <- <-.
      split; [exact Hinv|]. split; [lia | discriminate].
    + cbv zeta in Hok. rewrite Hok in Hrun. injection Hrun as <- <-.
      cbn [user_service users next_id]. unfold counter, table.
      split; [|split; [lia | discriminate]].
      apply Forall_Dict_set; [exact Hinv|]. cbn [fst].
      exact (table_inv_key _ _ _ Hinv Hget).
  - destruct (delete_user_cases user_id w) as [[e He] | (z & user & v & _ & Hget & Hok)].
    + rewrite He in Hrun. injection Hrun as <- <-.
      split; [exact Hinv|]. split; [lia | discriminate].
    + rewrite Hok in Hrun. injection Hrun as <- <-.
      cbn [user_service users next_id]. unfold counter, table.
      split; [|split; [lia | discriminate]].
      apply Forall_Dict_del. exact Hinv.
  - unfold list_users, bind in Hrun. cbn in Hrun. injection Hrun as <- <-.
    split; [exact Hinv|]. split; [lia | discriminate].
Qed.

(** Along a run the invariant holds at the end, and the ids given out are
    strictly increasing, from the value of the counter at the start up to
    its value at the end. *)
Lemma run_ops_ids (ops : list user_op) :
  forall w, table_inv (user_service w) ->
    table_inv (user_service (snd (run_ops ops w))) /\
    counter w <= counter (snd (run_ops ops w)) /\
    StronglySorted Z.lt (created_ids (fst (run_ops ops w))) /\
    Forall (fun z => counter w <= z < counter (snd (run_ops ops w)))
           (created_ids (fst (run_ops ops w))).
Proof.
  induction ops as [|op ops IH]; intros w Hinv; cbn [run_ops].
  - cbn. split; [exact Hinv|]. split; [lia|]. split; constructor.
  - destruct (run_op op w) as [r w1] eqn:Hrun.
    destruct (@run_op_step op w w1 r Hinv Hrun) as (Hinv1 & Hle & Hid).
    destruct (IH w1 Hinv1) as (Hinv2 & Hle2 & Hsorted & Hall).
    destruct (run_ops ops w1) as [tr w2]. cbn [fst snd] in *.
    split; [exact Hinv2|]. split; [lia|].
    unfold created_ids. cbn [flat_map]. fold (created_ids tr).
    destruct (created_id (op, r)) as [z|].
    + destruct (Hid z eq_refl) as [-> Hnext]. cbn [app]. split.
      * constructor; [exact Hsorted|].
        eapply Forall_impl; [|exact Hall]. cbn beta. intros a Ha. lia.
      * constructor; [lia|].
        eapply Forall_impl; [|exact Hall]. cbn beta. intros a Ha. lia.
    + cbn [app]. split; [exact Hsorted|].
      eapply Forall_impl; [|exact Hall]. cbn beta. intros a Ha. lia.
Qed.

(** C9: the user table and the id counter.  In every state where each
    key of the table is below [next_id] (the initial state is one), every
    method keeps it so and never lowers [next_id].  [create_user] either
    raises and changes nothing, or appends the record it returns to the
    table under the current value of [next_id], which is no key of the
    table, and moves [next_id] up by one; whatever its outcome, every user
    already stored is left as it was.  Along any run the ids given out
    increase strictly and were no key of the table at the start.
    [delete_user] on a stored key removes that key and leaves [next_id]
    alone, and after it no later [create_user] gives out the id that was
    freed. *)
Theorem user_ids_never_reused (w : World)
    (Hinv : table_inv (user_service w)) :
  table_inv UserService_init /\
  (forall op,
      table_inv (user_service (snd (run_op op w))) /\
      counter w <= counter (snd (run_op op w))) /\
  (forall name email age,
      create_user name email age w =
      if negb (truthy name) || negb (truthy email) then
        (Raise (mkExn ValueError "Name and email are required"), w)
      else
        match check_duplicate_email email (Dict.values (table w)) w with
        | (Raise e, _) => (Raise e, w)
        | (Ret _, _) =>
            let user := new_user (counter w) name email age
                          (isoformat_now (clock w))
                          (isoformat_now (S (clock w))) in
            (Ret (VDict user),
             mkWorld (mkUserService (table w ++ [(counter w, user)])%list
                                    (counter w + 1))
                     (S (S (clock w))))
        end) /\
  (forall name email age k u,
      Dict.get k (table w) = Some u ->
      Dict.get k (table (snd (create_user name email age w))) = Some u) /\
  (forall name email age user w1,
      create_user name email age w = (Ret (VDict user), w1) ->
      Dict.get "id" user = Some (VInt (counter w)) /\
      Dict.get (counter w) (table w) = None /\
      Dict.get (counter w) (table w1) = Some user /\
      counter w1 = counter w + 1 /\
      (forall k u, Dict.get k (table w) = Some u ->
                   Dict.get k (table w1) = Some u)) /\
  (forall ops,
      table_inv (user_service (snd (run_ops ops w))) /\
      counter w <= counter (snd (run_ops ops w)) /\
      StronglySorted Z.lt (created_ids (fst (run_ops ops w))) /\
      Forall (fun z => counter w <= z /\ Dict.get z (table w) = None)
             (created_ids (fst (run_ops ops w)))) /\
  (forall user_id z u,
      table_key user_id w = (Ret (Some z), w) ->
      Dict.get z (table w) = Some u ->
      delete_user user_id w =
      (Ret (VDict [("message",
                    VStr ("User " ++ py_str user_id
                          ++ " deleted successfully"))]),
       mkWorld (mkUserService (Dict.del z (table w)) (counter w)) (clock w))) /\
  (forall user_id v w1 ops,
      delete_user user_id w = (Ret v, w1) ->
      exists z,
        table_key user_id w = (Ret (Some z), w) /\
        Dict.mem z (table w) = true /\
        Dict.mem z (table w1) = false /\
        ~ In z (created_ids (fst (run_ops ops w1)))).
Proof.
  assert (Hfresh : Dict.get (counter w) (table w) = None)
    by (apply table_inv_fresh; [exact Hinv | unfold counter; lia]).
  assert (Hcreate : forall name email age,
      create_user name email age w =
      if negb (truthy name) || negb (truthy email) then
        (Raise (mkExn ValueError "Name and email are required"), w)
      else
        match check_duplicate_email email (Dict.values (table w)) w with
        | (Raise e, _) => (Raise e, w)
        | (Ret _, _) =>
            let user := new_user (counter w) name email age
                          (isoformat_now (clock w))
                          (isoformat_now (S (clock w))) in
            (Ret (VDict user),
             mkWorld (mkUserService (table w ++ [(counter w, user)])%list
                                    (counter w + 1))
                     (S (S (clock w))))
        end).
  { intros name email age. unfold create_user.
    destruct (negb (truthy name) || negb (truthy email)); [reflexivity|].
    unfold bind. cbn [get_users]. fold (table w).
    destruct (check_duplicate_email_cases email (Dict.values (table w)) w)
      as [[e He] | He]; rewrite He; [reflexivity|].
    cbv zeta. rewrite <- (Dict_set_fresh _ _ _ Hfresh). reflexivity. }
  split; [exact table_inv_init|].
  split; [|split; [exact Hcreate|]; split; [|split; [|split; [|split]]]].
  - intros op. destruct (run_op op w) as [r w1] eqn:Hrun.
    destruct (@run_op_step op w w1 r Hinv Hrun) as (H1 & H2 & _). now split.
  - intros name email age k u Hk. rewrite Hcreate.
    destruct (negb (truthy name) || negb (truthy email)); [exact Hk|].
    destruct (check_duplicate_email email (Dict.values (table w)) w)
      as [[[]|e] w0]; [|exact Hk].
    cbv zeta. unfold table at 1. cbn [snd user_service users].
    rewrite Dict_get_app. now rewrite Hk.
  - intros name email age user w1 Hret.
    destruct (create_user_cases name email age w) as [[e He] | Hok];
      [congruence|].
    rewrite Hok in Hret. injection Hret as <- <-.
    split; [reflexivity|]. split; [exact Hfresh|].
    unfold table, counter in *. cbn [user_service users next_id].
    split; [|split; [reflexivity|]].
    + rewrite Dict_get_set.
      destruct (keqb_spec (next_id (user_service w)) (next_id (user_service w)));
        [reflexivity | congruence].
    + intros k u Hk. rewrite Dict_get_set.
      destruct (keqb_spec k (next_id (user_service w))) as [->|_];
        [congruence | exact Hk].
  - intros ops. destruct (run_ops_ids ops w Hinv) as (H1 & H2 & H3 & H4).
    split; [exact H1|]. split; [exact H2|]. split; [exact H3|].
    eapply Forall_impl; [|exact H4]. cbn beta. intros z Hz.
    split; [lia|]. apply table_inv_fresh; [exact Hinv | unfold counter in Hz; lia].
  - intros user_id z u Hkey Hget. unfold delete_user, bind.
    rewrite Hkey. cbn [get_users lookup_user]. fold (table w).
    rewrite Hget. reflexivity.
  - intros user_id v w1 ops Hdel.
    destruct (delete_user_cases user_id w) as [[e He] | (z & user & v' & Hkey & Hget & Hok)];
      [congruence|].
    rewrite Hok in Hdel. injection Hdel as <- <-.
    exists z. split; [exact Hkey|]. split; [|split].
    + apply Dict_mem_get. now exists user.
    + unfold table at 1. cbn [user_service users]. unfold Dict.mem.
      rewrite Dict_get_del.
      destruct (keqb_spec z z); [reflexivity | congruence].
    + set (w1 := mkWorld (mkUserService (Dict.del z (table w)) (counter w)) (clock w)).
      assert (Hinv1 : table_inv (user_service w1))
        by (apply Forall_Dict_del; exact Hinv).
      destruct (run_ops_ids ops w1 Hinv1) as (_ & _ & _ & Hall).
      rewrite Forall_forall in Hall. intros Hin.
      specialize (Hall z Hin).
      pose proof (table_inv_key _ _ _ Hinv Hget) as Hz.
      unfold counter in Hall. cbn [w1 user_service next_id] in Hall.
      unfold counter in Hall. lia.
Qed.

(** ** UserService: the loop of [update_user] *)

Lemma update_field_get (user : dict) (kv : string * value) (k : string) :
  Dict.get k (update_field user kv) =
  if updatable (fst kv) && String.eqb k (fst kv) then Some (snd kv)
  else Dict.get k user.
Proof.
  unfold update_field. fold (updatable (fst kv)).
  destruct (updatable (fst kv)); cbn [andb]; [|reflexivity].
  rewrite Dict_get_set. reflexivity.
Qed.

(** After the loop, an updatable key holds the value the keyword
    arguments give it (the last one, should a key come twice), any other
    key what it held before. *)
Lemma fold_update_get (kwargs : dict) :
  forall (user : dict) (k : string),
    Dict.get k (fold_left update_field kwargs user) =
    if updatable k then
      match Dict.get k (rev kwargs) with
      | Some v => Some v
      | None => Dict.get k user
      end
    else Dict.get k user.
Proof.
  induction kwargs as [|kv kwargs IH]; intros user k; cbn [fold_left rev].
  - cbn [Dict.get]. now destruct (updatable k).
  - rewrite IH, Dict_get_app, update_field_get.
    destruct kv as [k' v]. cbn [fst snd Dict.get]. cbn [keqb string_Key].
    destruct (String.eqb_spec k k') as [->|Hne].
    + destruct (updatable k'); cbn [andb]; [|reflexivity].
      now destruct (Dict.get k' (rev kwargs)).
    + rewrite andb_false_r.
      destruct (updatable k); [|reflexivity].
      now destruct (Dict.get k (rev kwargs)).
Qed.

(** Keyword arguments outside the allow-list leave no trace. *)
Lemma fold_update_filter (kwargs : dict) :
  forall user : dict,
    fold_left update_field (filter (fun kv => updatable (fst kv)) kwargs) user =
    fold_left update_field kwargs user.
Proof.
  induction kwargs as [|kv kwargs IH]; intros user; cbn [filter fold_left];
    [reflexivity|].
  destruct (updatable (fst kv)) eqn:Hu; cbn [fold_left].
  - apply IH.
  - rewrite IH. unfold update_field. fold (updatable (fst kv)).
    now rewrite Hu.
Qed.

(** C10: on an existing user, [update_user] succeeds; the record it
    returns, which is the one the table then holds, has the keys [name],
    [email] and [age] set from the keyword arguments that carry these
    names, [updated_at] set to the reading of the clock, and every other
    key ([id], [created_at], ...) as before; keyword arguments with other
    names are ignored: the call does what it does without them. *)
Theorem update_user_frame (user_id : value) (kwargs : dict) (user : dict)
    (w : World)
    (Hexists : get_user_by_id user_id w = (Ret (VDict user), w)) :
  exists user' w',
    update_user user_id kwargs w = (Ret (VDict user'), w') /\
    get_user_by_id user_id w' = (Ret (VDict user'), w') /\
    (forall k, updatable k = true ->
       Dict.get k user' =
       match Dict.get k (rev kwargs) with
       | Some v => Some v
       | None => Dict.get k user
       end) /\
    Dict.get "updated_at" user' = Some (VStr (isoformat_now (clock w))) /\
    (forall k, updatable k = false -> k <> "updated_at" ->
       Dict.get k user' = Dict.get k user) /\
    update_user user_id (filter (fun kv => updatable (fst kv)) kwargs) w =
    (Ret (VDict user'), w') /\
    counter w' = counter w.
Proof.
  destruct (get_user_by_id_cases user_id w) as [[e He] | (z & u & Hkey & Hget & Hok)];
    [congruence|].
  assert (u = user) as -> by congruence.
  assert (Hup : forall kw,
    update_user user_id kw w =
    (Ret (VDict (Dict.set "updated_at" (VStr (isoformat_now (clock w)))
                   (fold_left update_field kw user))),
     mkWorld (mkUserService
                (Dict.set z (Dict.set "updated_at" (VStr (isoformat_now (clock w)))
                               (fold_left update_field kw user)) (table w))
                (counter w))
             (S (clock w)))).
  { intros kw.
    destruct (update_user_cases user_id kw w) as [[e He] | (z' & u' & Hkey' & Hget' & Hok')].
    - exfalso. revert He. unfold update_user, bind. rewrite Hkey.
      cbn [get_users lookup_user]. unfold table in Hget. rewrite Hget.
      discriminate.
    - cbv zeta in Hok'.
      assert (z' = z) as -> by congruence.
      assert (u' = user) as -> by congruence.
      exact Hok'. }
  eexists. eexists. split; [apply Hup|]. split; [|split; [|split; [|split; [|split]]]].
  - unfold get_user_by_id, bind.
    assert (Hkey' : forall w', table_key user_id w' = (Ret (Some z), w')).
    { intros w'. revert Hkey. destruct user_id; simpl; unfold ret, raise;
        intros E; try discriminate; injection E as E; now rewrite E. }
    rewrite Hkey'. cbn [get_users lookup_user user_service users].
    rewrite Dict_get_set.
    destruct (keqb_spec z z); [reflexivity | congruence].
  - intros k Hk. rewrite Dict_get_set.
    cbn [keqb string_Key].
    destruct (String.eqb_spec k "updated_at") as [->|_]; [discriminate Hk|].
    rewrite fold_update_get, Hk. reflexivity.
  - rewrite Dict_get_set. reflexivity.
  - intros k Hk Hne. rewrite Dict_get_set. cbn [keqb string_Key].
    destruct (String.eqb_spec k "updated_at") as [->|_]; [congruence|].
    rewrite fold_update_get, Hk. reflexivity.
  - rewrite Hup, fold_update_filter. reflexivity.
  - reflexivity.
Qed.
(** ** Further properties of the dispatcher *)

(** X1: a request object whose envelope is not valid ([jsonrpc] is not
    "2.0", or [method] is missing, is no string or is empty) calls no
    method: the state is left as it was.  With [id] present the answer is
    the INVALID_REQUEST envelope carrying that [id]; without, there is no
    answer. *)
Theorem invalid_envelope_calls_nothing (d : dict) (w : World)
    (Hinvalid : envelope_method d = None) :
  _process_single_request (VDict d) w =
  (Ret (if Dict.mem "id" d
        then Some (_create_error_response (get_default "id" d VNone)
                     JSONRPCError.INVALID_REQUEST "Invalid Request")
        else None), w) /\
  snd (_handle_request (Json (VDict d)) w) = w.
Proof.
  pose proof (process_invalid_envelope d w Hinvalid) as Hp.
  split; [exact Hp|].
  rewrite handle_single by (try reflexivity; intros; discriminate).
  rewrite Hp. destruct (Dict.mem "id" d); reflexivity.
Qed.

(** X2: when the method of a valid call returns, the response is the
    success envelope holding exactly the returned value under [result] and
    the [id] of the request, and the state is the one the method left.  The
    reply is that envelope when the returned value can be serialised; when
    it cannot (it holds a complex number, or an int beyond the digit
    limit), the reply is the INTERNAL_ERROR envelope of the outer [except]
    clause, with a null identifier, and the state is still the one the
    method left. *)
Theorem successful_call_wraps_the_result (d : dict) (name : string)
    (func : handler) (request_id v : value) (w w' : World)
    (Hvalid : envelope_method d = Some name)
    (Hid : Dict.get "id" d = Some request_id)
    (Hreg : Dict.get name method_map = Some func)
    (Hreturn : apply_params func (get_default "params" d (VList [])) w
               = (Ret v, w')) :
  let env := VDict [("jsonrpc", VStr "2.0"); ("result", v);
                    ("id", request_id)] in
  _process_single_request (VDict d) w = (Ret (Some env), w') /\
  _handle_request (Json (VDict d)) w
    = (if serialisable v then Body env
       else internal_error (jsonify_error env), w').
Proof.
  intros env.
  assert (Hp : _process_single_request (VDict d) w = (Ret (Some env), w')).
  { rewrite (process_valid_envelope d name w Hvalid).
    rewrite (call_method_success name func _ v w w' Hreg Hreturn).
    assert (Hmem : Dict.mem "id" d = true)
      by (apply Dict_mem_get; now exists request_id).
    rewrite Hmem. now rewrite (get_default_some "id" d VNone request_id Hid). }
  split; [exact Hp|].
  rewrite handle_single by (try reflexivity; intros; discriminate).
  rewrite Hp. unfold sent.
  assert (Hs : serialises env = serialisable v).
  { unfold serialises, env. cbn [payloads payload result_of Dict.get keqb
      string_Key forallb].
    change (String.eqb "result" "jsonrpc") with false.
    change (String.eqb "result" "result") with true.
    cbv iota. cbn [forallb]. apply andb_true_r. }
  now rewrite Hs.
Qed.

Lemma get_default_set_id (k : string) (d : dict) (v default : value) :
  String.eqb k "id" = false ->
  get_default k (Dict.set "id" v d) default = get_default k d default.
Proof.
  intros Hk. unfold get_default. rewrite Dict_get_set.
  cbn [keqb string_Key]. now rewrite Hk.
Qed.

Lemma get_default_del_id (k : string) (d : dict) (default : value) :
  String.eqb k "id" = false ->
  get_default k (Dict.del "id" d) default = get_default k d default.
Proof.
  intros Hk. unfold get_default. rewrite Dict_get_del.
  cbn [keqb string_Key]. now rewrite Hk.
Qed.

Lemma process_state_of (d d' : dict) (w : World) :
  envelope_method d' = envelope_method d ->
  get_default "params" d' (VList []) = get_default "params" d (VList []) ->
  snd (_process_single_request (VDict d') w)
  = snd (_process_single_request (VDict d) w).
Proof.
  intros Hm Hp. destruct (envelope_method d) as [name|] eqn:E.
  - rewrite (process_valid_envelope d' name w Hm).
    rewrite (process_valid_envelope d name w E). rewrite Hp.
    destruct (_call_method name (get_default "params" d (VList [])) w)
      as [[v|e] w']; reflexivity.
  - rewrite (process_invalid_envelope d' w Hm).
    rewrite (process_invalid_envelope d w E). reflexivity.
Qed.

(** X3: the [id] of a request has no part in what the request does.  The
    state after processing is the same whatever the value of [id], and the
    same when [id] is taken away: a notification runs its method like the
    call it is made from, and only the answer is withheld. *)
Theorem id_has_no_effect_on_the_state (d : dict) (request_id : value)
    (w : World) :
  snd (_process_single_request (VDict (Dict.set "id" request_id d)) w)
  = snd (_process_single_request (VDict d) w) /\
  snd (_process_single_request (VDict (Dict.del "id" d)) w)
  = snd (_process_single_request (VDict d) w) /\
  fst (_process_single_request (VDict (Dict.del "id" d)) w) = Ret None.
Proof.
  split; [|split].
  - apply process_state_of.
    + unfold envelope_method. now rewrite !get_default_set_id by reflexivity.
    + now apply get_default_set_id.
  - apply process_state_of.
    + unfold envelope_method. now rewrite !get_default_del_id by reflexivity.
    + now apply get_default_del_id.
  - destruct (process_mapping (Dict.del "id" d) w) as [w' H].
    assert (Hmem : Dict.mem "id" (Dict.del "id" d) = false)
      by (unfold Dict.mem; now rewrite Dict_get_del).
    rewrite Hmem in H. now rewrite H.
Qed.

Lemma process_envelope_code (data env : value) (w w' : World) :
  _process_single_request data w = (Ret (Some env), w') ->
  uses_known_code env = true.
Proof.
  destruct data as [| | | | | |d|];
    try (cbn; intros E; injection E as <- _; reflexivity).
  destruct (envelope_method d) as [name|] eqn:E.
  - rewrite (process_valid_envelope d name w E).
    destruct (_call_method name (get_default "params" d (VList [])) w)
      as [[v|e] w1]; destruct (Dict.mem "id" d); intros H;
      try discriminate; injection H as <- _; [reflexivity|].
    unfold uses_known_code. cbn [envelope_error_code _create_error_response
      Dict.get keqb string_Key String.eqb Ascii.eqb Bool.eqb].
    destruct (error_code_of_cases (exn_str e)) as [-> | ->]; reflexivity.
  - rewrite (process_invalid_envelope d w E).
    destruct (Dict.mem "id" d); intros H; try discriminate.
    injection H as <- _. reflexivity.
Qed.

Lemma produced_known_code (item : value) (k : held) :
  produced item k -> uses_known_code (held_envelope k) = true.
Proof.
  intros (r & w0 & Hp & (_ & _ & Hcode) & _). cbn [held_envelope] in Hcode.
  unfold uses_known_code. rewrite Hcode.
  destruct (_process_single_request item w0) as [res w1] eqn:E.
  cbn [fst] in Hp. subst res.
  exact (process_envelope_code item r w0 w1 E).
Qed.

(** X4: every error envelope the server sends carries one of the codes
    PARSE_ERROR, INVALID_REQUEST, METHOD_NOT_FOUND and INTERNAL_ERROR; the
    code INVALID_PARAMS (-32602) of the enumeration is never sent, whatever
    the request and whatever the methods do. *)
Theorem only_four_codes_are_sent (request : raw_body) (w : World) :
  forallb uses_known_code (reply_envelopes (fst (_handle_request request w)))
  = true.
Proof.
  destruct request as [|data]; [reflexivity|].
  destruct data as [| | | | |items|d|re im]; try reflexivity.
  - destruct (process_batch_spec items w) as (new & Hp & Hn).
    rewrite handle_batch, Hp. cbn [fst].
    assert (Hall : forallb uses_known_code (map held_envelope new) = true).
    { clear Hp. induction Hn as [|item k items' new' Hk _ IH];
        [reflexivity|].
      cbn [map forallb]. now rewrite (produced_known_code item k Hk), IH. }
    destruct (map held_envelope new) as [|r rs]; [reflexivity|].
    unfold batch_reply, sent.
    destruct (serialises (VList (r :: rs))); [exact Hall | reflexivity].
  - rewrite handle_single by (try reflexivity; intros; discriminate).
    destruct (_process_single_request (VDict d) w) as [[[env|]|e] w'] eqn:Hp;
      try reflexivity.
    assert (Hdict : exists l, env = VDict l).
    { destruct (process_mapping d w) as [w1 H].
      destruct (Dict.mem "id" d).
      - destruct H as (env' & H1 & H2 & _). rewrite Hp in H1.
        injection H1 as <- _. destruct env; try discriminate. eauto.
      - rewrite Hp in H. discriminate. }
    destruct Hdict as [l ->]. cbn [fst]. unfold sent.
    destruct (serialises (VDict l)); [|reflexivity].
    cbn [reply_envelopes forallb].
    now rewrite (process_envelope_code (VDict d) (VDict l) w w' Hp).
Qed.

Lemma answers_ids (items rs : list value) :
  Forall2 answers items rs ->
  map envelope_id rs = map (fun item => Some (request_id_of item)) items.
Proof.
  induction 1 as [|item r items rs [_ Hid] _ IH]; cbn [map];
    [reflexivity | now rewrite Hid, IH].
Qed.

(** X6: a batch is processed entry by entry, in order, on one state.
    Handling the batch [xs ++ ys] ends in the state that handling [ys]
    leaves when it starts where handling [xs] ended, and its list of
    responses carries the identifiers of the responses to [xs] followed by
    those of the responses to [ys]. *)
Theorem batch_is_sequential (xs ys : list value) (w : World) :
  let w1 := snd (_handle_request (Json (VList xs)) w) in
  let w2 := snd (_handle_request (Json (VList ys)) w1) in
  snd (_handle_request (Json (VList (xs ++ ys)%list)) w) = w2 /\
  exists r1 r2 r,
    process_batch xs [] w = (Ret r1, w1) /\
    process_batch ys [] w1 = (Ret r2, w2) /\
    process_batch (xs ++ ys)%list [] w = (Ret r, w2) /\
    map envelope_id r = (map envelope_id r1 ++ map envelope_id r2)%list.
Proof.
  destruct (handle_batch_answers xs w) as (r1 & H1 & A1 & E1).
  cbv zeta. rewrite E1. cbn [snd].
  destruct (handle_batch_answers ys (run_requests xs w)) as (r2 & H2 & A2 & E2).
  rewrite E2. cbn [snd].
  destruct (handle_batch_answers (xs ++ ys)%list w) as (r & H & A & E).
  rewrite run_requests_app in H, E. rewrite E. cbn [snd].
  split; [reflexivity|].
  exists r1, r2, r. split; [exact H1|]. split; [exact H2|].
  split; [exact H|].
  rewrite (answers_ids _ _ A), (answers_ids _ _ A1), (answers_ids _ _ A2).
  now rewrite calls_app, map_app.
Qed.

(** X7: no [TypeError] and no [ValueError] leaves [_call_method]: what the
    method raises of these classes is raised again as a plain [Exception]
    whose text starts with "Invalid parameters for method" or with "Invalid
    parameter values for method", and any other exception passes as it
    is. *)
Theorem call_method_raises_plain_exceptions (name : string) (params : value)
    (e : exn) (w w' : World)
    (Hraise : _call_method name params w = (Raise e, w')) :
  exn_cls e = Exception_ /\
  match Dict.get name method_map with
  | None => e = mkExn Exception_ ("Method '" ++ name ++ "' not found") /\ w' = w
  | Some func =>
      exists e0,
        apply_params func params w = (Raise e0, w') /\
        exn_str e = call_failure_message name e0
  end.
Proof.
  revert Hraise. unfold _call_method, try_except.
  destruct (Dict.get name method_map) as [func|].
  - destruct (apply_params func params w) as [[v|e0] w0]; [discriminate|].
    destruct e0 as [[| |] msg]; cbn; intros H; injection H as <- <-;
      (split; [reflexivity|]); eexists; split; reflexivity.
  - cbn. intros H. injection H as <- <-. repeat split.
Qed.

(** ** Which methods write to the user table *)

Lemma keeps_ret {A} (a : A) : keeps_users (ret a).
Proof. intros w. reflexivity. Qed.

Lemma keeps_raise {A} (e : exn) : keeps_users (@raise A e).
Proof. intros w. reflexivity. Qed.

Lemma keeps_bind {A B} (m : M A) (k : A -> M B) :
  keeps_users m -> (forall a, keeps_users (k a)) -> keeps_users (bind m k).
Proof.
  intros Hm Hk w. unfold bind. specialize (Hm w).
  destruct (m w) as [[a|e] w1]; cbn [snd] in *; [|exact Hm].
  rewrite <- Hm. apply Hk.
Qed.

Lemma keeps_try {A} (m : M A) (h : exn -> M A) :
  keeps_users m -> (forall e, keeps_users (h e)) ->
  keeps_users (try_except m h).
Proof.
  intros Hm Hh w. unfold try_except. specialize (Hm w).
  destruct (m w) as [[a|e] w1]; cbn [snd] in *; [exact Hm|].
  rewrite <- Hm. apply Hh.
Qed.

Lemma keeps_now : keeps_users now.
Proof. intros w. reflexivity. Qed.

Lemma keeps_call_with {A} (sg : signature) (args : list value) (kw : dict)
    (body : list value -> dict -> M A) :
  (forall vs extra, keeps_users (body vs extra)) ->
  keeps_users (call_with sg args kw body).
Proof.
  intros Hb. unfold call_with.
  destruct (bind_call sg args kw) as [[vs extra]|];
    [apply Hb | apply keeps_raise].
Qed.

Lemma keeps_get_user_by_id (user_id : value) :
  keeps_users (get_user_by_id user_id).
Proof.
  intros w.
  destruct (get_user_by_id_cases user_id w)
    as [[e ->] | (z & user & _ & _ & ->)]; reflexivity.
Qed.

Lemma keeps_numeric_method (name : string) (args : list value) (kw : dict) :
  keeps_users (numeric_method name args kw).
Proof. intros w. reflexivity. Qed.

(** A registered method that is none of the three writers keeps the user
    service, whatever its arguments. *)
Lemma registered_reader (name : string) (func : handler) :
  Dict.get name method_map = Some func ->
  writes_users name = false ->
  forall args kw, keeps_users (func args kw).
Proof.
  unfold method_map. cbn [Dict.get keqb string_Key].
  repeat match goal with
         | |- context [String.eqb name ?s] =>
             destruct (String.eqb_spec name s) as [->|?]
         end;
    intros H Hw; try discriminate;
    injection H as <-; intros args kw;
    try apply keeps_numeric_method;
    apply keeps_call_with; intros vs extra.
  - apply keeps_get_user_by_id.
  - apply keeps_bind; [intros w; reflexivity | intros; apply keeps_ret].
  - apply keeps_bind; [apply keeps_now | intros; apply keeps_ret].
  - apply keeps_bind; [apply keeps_now | intros; apply keeps_ret].
Qed.

Lemma keeps_call_method (name : string) (params : value) :
  writes_users name = false -> keeps_users (_call_method name params).
Proof.
  intros Hw. unfold _call_method.
  destruct (Dict.get name method_map) as [func|] eqn:Hreg;
    [|apply keeps_raise].
  apply keeps_try.
  - pose proof (registered_reader name func Hreg Hw) as Hk.
    destruct params; apply Hk.
  - intros e. destruct (exn_cls e); apply keeps_raise.
Qed.

Lemma keeps_process (item : value) :
  may_write item = false -> keeps_users (_process_single_request item).
Proof.
  intros Hm w. destruct item as [| | | | | |d|]; try reflexivity.
  cbn [may_write] in Hm.
  destruct (envelope_method d) as [name|] eqn:E.
  - rewrite (process_valid_envelope d name w E).
    pose proof (keeps_call_method name (get_default "params" d (VList [])) Hm w)
      as Hk.
    destruct (_call_method name (get_default "params" d (VList [])) w)
      as [[v|e] w']; exact Hk.
  - now rewrite (process_invalid_envelope d w E).
Qed.

Lemma keeps_run_requests (items : list value) :
  forallb (fun item => negb (may_write item)) items = true ->
  forall w, user_service (run_requests items w) = user_service w.
Proof.
  induction items as [|item items IH]; intros Hall w;
    cbn [run_requests]; [reflexivity|].
  cbn [forallb] in Hall. apply andb_true_iff in Hall as [Hitem Hrest].
  apply negb_true_iff in Hitem.
  rewrite (IH Hrest). now apply keeps_process.
Qed.

(** X8: only [create_user], [update_user] and [delete_user] write to the
    user service.  A request that does not name one of them through a valid
    envelope (another method, registered or not, an invalid envelope, a
    value that is no mapping) leaves the user table and the id counter as
    they were, whatever its parameters and whether the method returns or
    raises; so does a batch of such requests. *)
Theorem only_three_methods_write (items : list value) (w : World)
    (Hread : forallb (fun item => negb (may_write item)) items = true) :
  user_service (snd (_handle_request (Json (VList items)) w))
  = user_service w /\
  Forall (fun item =>
            forall w0,
              user_service (snd (_process_single_request item w0))
              = user_service w0) items.
Proof.
  split.
  - destruct (handle_batch_answers items w) as (rs & _ & _ & ->).
    now apply keeps_run_requests.
  - apply Forall_forall. intros item Hin w0.
    rewrite forallb_forall in Hread. specialize (Hread item Hin).
    apply negb_true_iff in Hread.
    exact (keeps_process item Hread w0).
Qed.

(** ** The registry and what the server advertises *)

Lemma Dict_mem_keys {K V} `{Key K} (k : K) (d : list (K * V)) :
  Dict.mem k d = true <-> In k (Dict.keys d).
Proof.
  unfold Dict.mem, Dict.keys.
  induction d as [|[a b] d IH]; cbn [Dict.get map fst In].
  - split; [discriminate | contradiction].
  - destruct (keqb_spec k a) as [->|Hne].
    + split; [now left | reflexivity].
    + rewrite IH. split; [now right | intros [E|E]; [congruence | exact E]].
Qed.

(** X9: the three lists of method names of the source agree.  The names
    [get_server_info] reports and the names the route [/] reports are the
    keys of the registry of [_call_method], in the same order: a name is
    advertised exactly when the registry resolves it. *)
Theorem advertised_methods_are_registered (name : string) :
  Dict.keys method_map = supported_methods /\
  info_methods = supported_methods /\
  (In name supported_methods <->
   exists func, Dict.get name method_map = Some func) /\
  forall w,
    fst (get_server_info w) =
    Ret (VDict [("server_type", VStr "JSON-RPC"); ("version", VStr "1.0.0");
                ("timestamp", VStr (isoformat_now (clock w)));
                ("status", VStr "running");
                ("supported_methods",
                 VList (map VStr (Dict.keys method_map)))]).
Proof.
  assert (Hkeys : Dict.keys method_map = supported_methods) by reflexivity.
  split; [exact Hkeys|]. split; [reflexivity|]. split; [|reflexivity].
  rewrite <- Hkeys, <- Dict_mem_keys. apply Dict_mem_get.
Qed.

(** ** UserService: the shape of the table *)

Lemma Dict_keys_set_present {K V} `{Key K} (k : K) (v : V) (d : list (K * V)) :
  Dict.mem k d = true -> Dict.keys (Dict.set k v d) = Dict.keys d.
Proof.
  unfold Dict.mem, Dict.keys.
  induction d as [|[a b] d IH]; cbn [Dict.get Dict.set map fst];
    [discriminate|].
  destruct (keqb_spec k a) as [->|Hne]; [reflexivity|].
  intros E. cbn [map fst]. now rewrite IH.
Qed.

Lemma Dict_keys_del {K V} `{Key K} (k : K) (d : list (K * V)) :
  Dict.keys (Dict.del k d) = filter (fun a => negb (keqb k a)) (Dict.keys d).
Proof.
  unfold Dict.del, Dict.keys.
  induction d as [|[a b] d IH]; cbn [filter map fst]; [reflexivity|].
  destruct (negb (keqb k a)); cbn [map fst]; now rewrite IH.
Qed.

Lemma Forall_filter_keep {A} (P : A -> Prop) (p : A -> bool) (l : list A) :
  Forall P l -> Forall P (filter p l).
Proof.
  induction 1 as [|a l Ha Hl IH]; cbn [filter]; [constructor|].
  destruct (p a); [constructor|]; auto.
Qed.

Lemma StronglySorted_filter {A} (R : A -> A -> Prop) (p : A -> bool)
    (l : list A) :
  StronglySorted R l -> StronglySorted R (filter p l).
Proof.
  induction 1 as [|a l Hl IH Ha]; cbn [filter]; [constructor|].
  destruct (p a); [|exact IH].
  constructor; [exact IH | now apply Forall_filter_keep].
Qed.

Lemma StronglySorted_snoc {A} (R : A -> A -> Prop) (l : list A) (x : A) :
  StronglySorted R l -> Forall (fun a => R a x) l ->
  StronglySorted R (l ++ [x])%list.
Proof.
  induction 1 as [|a l Hl IH Ha]; intros Hx; cbn [app].
  - constructor; constructor.
  - inversion Hx as [|? ? Hax Hlx]; subst.
    constructor; [now apply IH|].
    apply Forall_app. split; [exact Ha | constructor; [exact Hax | constructor]].
Qed.

Lemma StronglySorted_lt_NoDup (l : list Z) :
  StronglySorted Z.lt l -> NoDup l.
Proof.
  induction 1 as [|a l Hl IH Ha]; constructor; [|exact IH].
  intros Hin. rewrite Forall_forall in Ha. specialize (Ha a Hin). lia.
Qed.

(** The loop of [update_user] adds no key to a record that has the three
    updatable ones. *)
Lemma fold_update_keys (kwargs : dict) :
  forall user : dict,
    (forall k, updatable k = true -> Dict.mem k user = true) ->
    Dict.keys (fold_left update_field kwargs user) = Dict.keys user.
Proof.
  induction kwargs as [|kv kwargs IH]; intros user Hu; cbn [fold_left];
    [reflexivity|].
  assert (Hstep : Dict.keys (update_field user kv) = Dict.keys user).
  { unfold update_field. fold (updatable (fst kv)).
    destruct (updatable (fst kv)) eqn:E; [|reflexivity].
    apply Dict_keys_set_present. now apply Hu. }
  rewrite IH; [exact Hstep|].
  intros k Hk. apply Dict_mem_keys. rewrite Hstep.
  apply Dict_mem_keys. now apply Hu.
Qed.

Lemma record_shape_updated (z : Z) (user : dict) (kwargs : dict) (t : string) :
  record_shape (z, user) ->
  record_shape (z, Dict.set "updated_at" (VStr t)
                     (fold_left update_field kwargs user)).
Proof.
  unfold record_shape. cbn [fst snd]. intros [Hkeys Hid].
  assert (Hmem : forall k, updatable k = true -> Dict.mem k user = true).
  { intros k Hk. apply Dict_mem_keys. rewrite Hkeys.
    unfold updatable in Hk. cbn [existsb] in Hk.
    repeat (apply orb_true_iff in Hk as [Hk|Hk];
            [apply String.eqb_eq in Hk; subst; cbn; auto 10|]).
    discriminate. }
  pose proof (fold_update_keys kwargs user Hmem) as Hk.
  split.
  - rewrite Dict_keys_set_present; [now rewrite Hk|].
    apply Dict_mem_keys. rewrite Hk, Hkeys. cbn. auto 10.
  - rewrite Dict_get_set. cbn [keqb string_Key String.eqb Ascii.eqb Bool.eqb].
    rewrite fold_update_get. exact Hid.
Qed.

(** One method call keeps the table well formed. *)
Lemma run_op_service_ok (op : user_op) (w : World) :
  service_ok (user_service w) ->
  service_ok (user_service (snd (run_op op w))).
Proof.
  intros (Hinv & Hsorted & Hshape).
  destruct (run_op op w) as [r w1] eqn:Hrun.
  destruct (run_op_step op w w1 r Hinv Hrun) as (Hinv1 & _ & _).
  cbn [snd]. split; [exact Hinv1|]. clear Hinv1.
  destruct op as [name email age | user_id | user_id kwargs | user_id |];
    cbn [run_op] in Hrun.
  - destruct (create_user_cases name email age w) as [[e He] | Hok].
    + rewrite He in Hrun. injection Hrun as <- <-. now split.
    + rewrite Hok in Hrun. injection Hrun as <- <-.
      cbn [user_service users].
      assert (Hfresh : Dict.get (counter w) (table w) = None)
        by (apply table_inv_fresh; [exact Hinv | unfold counter; lia]).
      rewrite (Dict_set_fresh _ _ _ Hfresh). split.
      * unfold Dict.keys. rewrite map_app. cbn [map fst].
        apply StronglySorted_snoc; [exact Hsorted|].
        unfold table_inv in Hinv. unfold table.
        rewrite Forall_forall in Hinv |- *.
        intros k Hk. apply in_map_iff in Hk as ([k' u] & <- & Hin).
        exact (Hinv _ Hin).
      * apply Forall_app. split; [exact Hshape|].
        constructor; [|constructor]. split; reflexivity.
  - destruct (get_user_by_id_cases user_id w)
      as [[e He] | (z & user & _ & _ & Hok)];
      [rewrite He in Hrun | rewrite Hok in Hrun];
      injection Hrun as <- <-; now split.
  - destruct (update_user_cases user_id kwargs w)
      as [[e He] | (z & user & _ & Hget & Hok)].
    + rewrite He in Hrun. injection Hrun as <- <-. now split.
    + cbv zeta in Hok. rewrite Hok in Hrun. injection Hrun as <- <-.
      cbn [user_service users]. split.
      * rewrite Dict_keys_set_present; [exact Hsorted|].
        apply Dict_mem_get. now exists user.
      * apply Forall_Dict_set; [exact Hshape|].
        apply record_shape_updated.
        rewrite Forall_forall in Hshape.
        apply (Hshape (z, user)). now apply Dict_get_In.
  - destruct (delete_user_cases user_id w)
      as [[e He] | (z & user & v & _ & Hget & Hok)].
    + rewrite He in Hrun. injection Hrun as <- <-. now split.
    + rewrite Hok in Hrun. injection Hrun as <- <-.
      cbn [user_service users]. split.
      * rewrite Dict_keys_del. now apply StronglySorted_filter.
      * now apply Forall_Dict_del.
  - unfold list_users, bind in Hrun. cbn in Hrun. injection Hrun as <- <-.
    now split.
Qed.

Lemma run_ops_service_ok (ops : list user_op) :
  forall w, service_ok (user_service w) ->
            service_ok (user_service (snd (run_ops ops w))).
Proof.
  induction ops as [|op ops IH]; intros w Hok; cbn [run_ops]; [exact Hok|].
  pose proof (run_op_service_ok op w Hok) as H1.
  destruct (run_op op w) as [r w1]. cbn [snd] in H1.
  specialize (IH w1 H1). destruct (run_ops ops w1) as [tr w2]. exact IH.
Qed.

(** X10: the user table stays a well-formed dictionary of well-formed
    records.  Its keys are strictly increasing in the order of insertion
    (hence no key comes twice), and every record has exactly the fields
    [id], [name], [email], [age], [created_at], [updated_at], with [id]
    equal to the key it is stored under.  This holds at the start and is
    kept by every method, on success and on failure, along any run. *)
Theorem user_table_stays_well_formed (ops : list user_op) (w : World)
    (Hok : service_ok (user_service w)) :
  service_ok UserService_init /\
  service_ok (user_service (snd (run_ops ops w))) /\
  NoDup (Dict.keys (table (snd (run_ops ops w)))) /\
  Forall (fun kv => Dict.get "id" (snd kv) = Some (VInt (fst kv)))
         (table (snd (run_ops ops w))).
Proof.
  split.
  - split; [apply table_inv_init|]. split; constructor.
  - pose proof (run_ops_service_ok ops w Hok) as (H1 & H2 & H3).
    split; [now split|]. split.
    + now apply StronglySorted_lt_NoDup.
    + eapply Forall_impl; [|exact H3]. intros kv [_ Hid]. exact Hid.
Qed.

(** ** UserService: what each method does *)

Lemma table_key_eq (v : value) (w : World) :
  table_key v w = (key_of v, w).
Proof. destruct v; reflexivity. Qed.

Lemma key_of_raises (v : value) (e : exn) :
  key_of v = Raise e -> exn_cls e = TypeError.
Proof. destruct v; cbn; intros E; try discriminate; now injection E as <-. Qed.

Lemma get_user_by_id_spec (user_id : value) (w : World) :
  get_user_by_id user_id w =
  match key_of user_id with
  | Raise e => (Raise e, w)
  | Ret k =>
      match lookup_user k (table w) with
      | Some user => (Ret (VDict user), w)
      | None => (Raise (not_found user_id), w)
      end
  end.
Proof.
  unfold get_user_by_id, bind. rewrite table_key_eq.
  destruct (key_of user_id) as [k|e]; [|reflexivity].
  cbn [get_users]. fold (table w).
  destruct (lookup_user k (table w)); reflexivity.
Qed.

Lemma update_user_spec (user_id : value) (kwargs : dict) (w : World) :
  update_user user_id kwargs w =
  match key_of user_id with
  | Raise e => (Raise e, w)
  | Ret k =>
      match k, lookup_user k (table w) with
      | Some z, Some user =>
          let user' := Dict.set "updated_at" (VStr (isoformat_now (clock w)))
                         (fold_left update_field kwargs user) in
          (Ret (VDict user'),
           mkWorld (mkUserService (Dict.set z user' (table w)) (counter w))
                   (S (clock w)))
      | _, _ => (Raise (not_found user_id), w)
      end
  end.
Proof.
  unfold update_user, bind. rewrite table_key_eq.
  destruct (key_of user_id) as [k|e]; [|reflexivity].
  cbn [get_users]. fold (table w).
  destruct k as [z|]; [|reflexivity].
  destruct (lookup_user (Some z) (table w)); reflexivity.
Qed.

Lemma delete_user_spec (user_id : value) (w : World) :
  delete_user user_id w =
  match key_of user_id with
  | Raise e => (Raise e, w)
  | Ret k =>
      match k, lookup_user k (table w) with
      | Some z, Some _ =>
          (Ret (VDict [("message",
                        VStr ("User " ++ py_str user_id
                              ++ " deleted successfully"))]),
           mkWorld (mkUserService (Dict.del z (table w)) (counter w)) (clock w))
      | _, _ => (Raise (not_found user_id), w)
      end
  end.
Proof.
  unfold delete_user, bind. rewrite table_key_eq.
  destruct (key_of user_id) as [k|e]; [|reflexivity].
  cbn [get_users]. fold (table w).
  destruct k as [z|]; [|reflexivity].
  destruct (lookup_user (Some z) (table w)); reflexivity.
Qed.

Lemma record_shape_email (kv : Z * dict) :
  record_shape kv -> exists e, Dict.get "email" (snd kv) = Some e.
Proof.
  intros [Hkeys _]. apply Dict_mem_get, Dict_mem_keys.
  rewrite Hkeys. cbn. auto 10.
Qed.

Lemma check_duplicate_email_outcome (email : value) (t : list (Z * dict))
    (w : World) :
  Forall record_shape t ->
  check_duplicate_email email (Dict.values t) w =
  if email_taken email t then
    (Raise (mkExn ValueError
              ("User with email " ++ py_str email ++ " already exists")), w)
  else (Ret tt, w).
Proof.
  unfold email_taken, emails, Dict.values.
  induction 1 as [|kv t Hkv Ht IH];
    cbn [map check_duplicate_email existsb]; [reflexivity|].
  destruct (record_shape_email kv Hkv) as [e He].
  unfold dict in *. rewrite !He.
  cbv beta iota. destruct (py_eq e email); [reflexivity | exact IH].
Qed.

(** X11: what [create_user] does, case by case.  When [name] or [email]
    is falsy it raises "Name and email are required"; otherwise, when some
    stored email is equal to [email], it raises "User with email ...
    already exists"; in both cases nothing changes, and no id is used up.
    Otherwise it returns the new record, stored last in the table under the
    value of the counter, which then goes up by one. *)
Theorem create_user_outcome (name email age : value) (w : World)
    (Hok : service_ok (user_service w)) :
  create_user name email age w =
  if negb (truthy name) || negb (truthy email) then
    (Raise (mkExn ValueError "Name and email are required"), w)
  else if email_taken email (table w) then
    (Raise (mkExn ValueError
              ("User with email " ++ py_str email ++ " already exists")), w)
  else
    let user := new_user (counter w) name email age
                  (isoformat_now (clock w)) (isoformat_now (S (clock w))) in
    (Ret (VDict user),
     mkWorld (mkUserService (table w ++ [(counter w, user)])%list
                            (counter w + 1))
             (S (S (clock w)))).
Proof.
  destruct Hok as (Hinv & _ & Hshape).
  unfold create_user.
  destruct (negb (truthy name) || negb (truthy email)); [reflexivity|].
  unfold bind. cbn [get_users]. fold (table w).
  rewrite (check_duplicate_email_outcome email (table w) w Hshape).
  destruct (email_taken email (table w)); [reflexivity|].
  cbn. fold (table w). fold (counter w).
  rewrite Dict_set_fresh; [reflexivity|].
  apply table_inv_fresh; [exact Hinv | unfold counter; lia].
Qed.

(** X12: a call of [UserService] that fails changes nothing: the table,
    the counter and the clock are as before.  What it raises is a
    [ValueError], or the [TypeError] of an id that cannot be hashed;
    [list_users] never fails. *)
Theorem failed_user_call_changes_nothing (op : user_op) (e : exn)
    (w w' : World)
    (Hok : service_ok (user_service w))
    (Hraise : run_op op w = (Raise e, w')) :
  w' = w /\
  (exn_cls e = ValueError \/ exn_cls e = TypeError) /\
  op <> OpList.
Proof.
  destruct op as [name email age | user_id | user_id kwargs | user_id |];
    cbn [run_op] in Hraise.
  - rewrite (create_user_outcome name email age w Hok) in Hraise.
    destruct (negb (truthy name) || negb (truthy email));
      [|destruct (email_taken email (table w))];
      try discriminate; injection Hraise as <- <-;
      (split; [reflexivity|]); (split; [now left | discriminate]).
  - rewrite get_user_by_id_spec in Hraise.
    destruct (key_of user_id) as [k|e0] eqn:Hk.
    + destruct (lookup_user k (table w)); try discriminate.
      injection Hraise as <- <-.
      split; [reflexivity|]. split; [now left | discriminate].
    + injection Hraise as <- <-.
      split; [reflexivity|]. split; [right; now apply (key_of_raises user_id) | discriminate].
  - rewrite update_user_spec in Hraise.
    destruct (key_of user_id) as [k|e0] eqn:Hk.
    + destruct k as [z|]; [destruct (lookup_user (Some z) (table w))|];
        try discriminate; injection Hraise as <- <-;
        (split; [reflexivity|]); (split; [now left | discriminate]).
    + injection Hraise as <- <-.
      split; [reflexivity|]. split; [right; now apply (key_of_raises user_id) | discriminate].
  - rewrite delete_user_spec in Hraise.
    destruct (key_of user_id) as [k|e0] eqn:Hk.
    + destruct k as [z|]; [destruct (lookup_user (Some z) (table w))|];
        try discriminate; injection Hraise as <- <-;
        (split; [reflexivity|]); (split; [now left | discriminate]).
    + injection Hraise as <- <-.
      split; [reflexivity|]. split; [right; now apply (key_of_raises user_id) | discriminate].
  - discriminate.
Qed.

(** X13: an id that is no key of the table (an int that was never given
    out or was deleted, a string, [None], a float that is no whole number)
    makes [get_user_by_id], [update_user] and [delete_user] raise
    "User with ID ... not found", the id printed as [str] prints it, and
    leaves the state as it was. *)
Theorem missing_user_is_not_found (user_id : value) (k : option Z)
    (kwargs : dict) (w : World)
    (Hkey : key_of user_id = Ret k)
    (Hmissing : lookup_user k (table w) = None) :
  let failure :=
    mkExn ValueError ("User with ID " ++ py_str user_id ++ " not found") in
  get_user_by_id user_id w = (Raise failure, w) /\
  update_user user_id kwargs w = (Raise failure, w) /\
  delete_user user_id w = (Raise failure, w).
Proof.
  cbv zeta. rewrite get_user_by_id_spec, update_user_spec, delete_user_spec.
  rewrite Hkey.
  destruct k; rewrite ?Hmissing; (split; [reflexivity | split; reflexivity]).
Qed.

(** X14: what is created can be read back.  After a successful
    [create_user], [get_user_by_id] on the id of the new record returns that
    record, every user that could be read before reads the same, and
    [list_users] returns the former list with the new record at the end. *)
Theorem created_user_is_read_back (name email age : value) (user : dict)
    (w w1 : World)
    (Hok : service_ok (user_service w))
    (Hcreate : create_user name email age w = (Ret (VDict user), w1)) :
  get_user_by_id (VInt (counter w)) w1 = (Ret (VDict user), w1) /\
  (forall user_id user0,
      get_user_by_id user_id w = (Ret (VDict user0), w) ->
      get_user_by_id user_id w1 = (Ret (VDict user0), w1)) /\
  (forall l,
      list_users w = (Ret (VList l), w) ->
      list_users w1 = (Ret (VList (l ++ [VDict user])%list), w1)).
Proof.
  rewrite (create_user_outcome name email age w Hok) in Hcreate.
  destruct (negb (truthy name) || negb (truthy email)); [discriminate|].
  destruct (email_taken email (table w)); [discriminate|].
  cbv zeta in Hcreate. injection Hcreate as <- <-.
  destruct Hok as (Hinv & _ & _).
  assert (Hfresh : Dict.get (counter w) (table w) = None)
    by (apply table_inv_fresh; [exact Hinv | unfold counter; lia]).
  split; [|split].
  - rewrite get_user_by_id_spec. cbn [key_of table_key ret fst lookup_user].
    unfold table at 1. cbn [user_service users].
    rewrite Dict_get_app, Hfresh. cbn [Dict.get].
    destruct (keqb_spec (counter w) (counter w)); [reflexivity | congruence].
  - intros user_id user0. rewrite !get_user_by_id_spec.
    destruct (key_of user_id) as [k|e]; [|discriminate].
    unfold table at 2. cbn [user_service users].
    destruct k as [z|]; cbn [lookup_user]; [|discriminate].
    rewrite Dict_get_app.
    destruct (Dict.get z (table w)) as [u|]; [|discriminate].
    intros E. injection E as ->. reflexivity.
  - intros l. unfold list_users, bind. cbn [get_users ret].
    intros E. injection E as <-.
    cbn [user_service users]. unfold table, Dict.values.
    rewrite !map_app. reflexivity.
Qed.

(** X15: what is deleted is gone, and only that.  After a successful
    [delete_user] the same id is not found any more ([get_user_by_id] and a
    second [delete_user] raise), every other key of the table holds what it
    held, the counter is as it was, and the answer is the message
    "User ... deleted successfully". *)
Theorem deleted_user_is_gone (user_id v : value) (w w1 : World)
    (Hdelete : delete_user user_id w = (Ret v, w1)) :
  v = VDict [("message",
              VStr ("User " ++ py_str user_id ++ " deleted successfully"))] /\
  get_user_by_id user_id w1 = (Raise (not_found user_id), w1) /\
  delete_user user_id w1 = (Raise (not_found user_id), w1) /\
  counter w1 = counter w /\
  exists z,
    key_of user_id = Ret (Some z) /\
    Dict.get z (table w1) = None /\
    forall k, k <> z -> Dict.get k (table w1) = Dict.get k (table w).
Proof.
  rewrite delete_user_spec in Hdelete.
  destruct (key_of user_id) as [k|e] eqn:Hk; [|discriminate].
  destruct k as [z|]; [|discriminate].
  destruct (lookup_user (Some z) (table w)) as [user|]; [|discriminate].
  injection Hdelete as <- <-.
  assert (Hgone : Dict.get z (Dict.del z (table w)) = None).
  { rewrite Dict_get_del. destruct (keqb_spec z z); [reflexivity | congruence]. }
  split; [reflexivity|].
  rewrite get_user_by_id_spec, delete_user_spec, Hk.
  unfold table in *. cbn [user_service users lookup_user]. rewrite Hgone.
  split; [reflexivity|]. split; [reflexivity|]. split; [reflexivity|].
  exists z. split; [reflexivity|]. split; [exact Hgone|].
  intros k Hne.
  rewrite Dict_get_del. destruct (keqb_spec k z); [congruence | reflexivity].
Qed.

(** ** The records a batch shares with the table *)

Lemma Dict_mem_set {K V} `{Key K} (k k' : K) (v : V) (d : list (K * V)) :
  Dict.mem k (Dict.set k' v d) = keqb k k' || Dict.mem k d.
Proof.
  unfold Dict.mem. rewrite Dict_get_set. destruct (keqb k k'); reflexivity.
Qed.

Lemma Dict_mem_del {K V} `{Key K} (k k' : K) (d : list (K * V)) :
  Dict.mem k (Dict.del k' d) = negb (keqb k k') && Dict.mem k d.
Proof.
  unfold Dict.mem. rewrite Dict_get_del. destruct (keqb k k'); reflexivity.
Qed.

Lemma still_held_same (w w' : World) (k : Z) :
  Dict.mem k (table w') = true -> counter w' = counter w ->
  still_held w w' k = true.
Proof.
  unfold still_held, table, counter. intros -> ->.
  rewrite Z.eqb_refl. cbn [negb]. now rewrite andb_false_r.
Qed.

(** The test [still_held] against the methods: through a call of
    [UserService], the record under a key of the table stays where it is
    unless the call is a [delete_user] of that key that succeeds, or a
    [create_user] that succeeds while the counter stands at that key. *)
Lemma still_held_run_op (op : user_op) (w : World) (k : Z) :
  Dict.mem k (table w) = true ->
  still_held w (snd (run_op op w)) k =
  match op, fst (run_op op w) with
  | OpCreate _ _ _, Ret _ => negb (counter w =? k)
  | OpDelete user_id, Ret _ =>
      match key_of user_id with
      | Ret (Some z) => negb (k =? z)
      | _ => true
      end
  | _, _ => true
  end.
Proof.
  intros Hk. destruct op as [name email age|user_id|user_id kwargs|user_id|];
    cbn [run_op].
  - destruct (create_user_cases name email age w) as [[e ->] | ->];
      cbn [fst snd]; [now apply still_held_same|].
    unfold still_held. cbn [user_service users next_id].
    fold (table w) (counter w). rewrite Dict_mem_set, Hk, orb_true_r.
    assert (Hne : (counter w + 1 =? counter w) = false)
      by (apply Z.eqb_neq; lia).
    rewrite Hne. cbn [negb andb]. now rewrite andb_true_r.
  - rewrite get_user_by_id_spec.
    destruct (key_of user_id) as [k0|e]; [|now apply still_held_same].
    destruct (lookup_user k0 (table w)); now apply still_held_same.
  - rewrite update_user_spec.
    destruct (key_of user_id) as [[z|]|e]; try now apply still_held_same.
    cbn [lookup_user]. destruct (Dict.get z (table w));
      [|now apply still_held_same].
    cbn [fst snd]. apply still_held_same; [|reflexivity].
    unfold table at 1. cbn [user_service users].
    now rewrite Dict_mem_set, Hk, orb_true_r.
  - rewrite delete_user_spec.
    destruct (key_of user_id) as [[z|]|e]; try now apply still_held_same.
    cbn [lookup_user]. destruct (Dict.get z (table w));
      [|now apply still_held_same].
    cbn [fst snd]. unfold still_held. cbn [user_service users next_id].
    fold (table w) (counter w). rewrite Dict_mem_del, Hk.
    rewrite Z.eqb_refl. cbn [negb keqb Z_Key].
    now rewrite andb_false_r, !andb_true_r.
  - now apply still_held_same.
Qed.







(** ** UserService: emails *)

Lemma ForallOrdPairs_snoc {A} (R : A -> A -> Prop) (l : list A) (x : A) :
  ForallOrdPairs R l -> Forall (fun a => R a x) l ->
  ForallOrdPairs R (l ++ [x])%list.
Proof.
  induction 1 as [|a l Ha Hl IH]; intros Hx; cbn [app].
  - constructor; constructor.
  - inversion Hx as [|? ? Hax Hlx]; subst.
    constructor; [|now apply IH].
    apply Forall_app. split; [exact Ha | constructor; [exact Hax | constructor]].
Qed.

Lemma ForallOrdPairs_map_filter {A B} (R : B -> B -> Prop) (f : A -> B)
    (p : A -> bool) (l : list A) :
  ForallOrdPairs R (map f l) -> ForallOrdPairs R (map f (filter p l)).
Proof.
  induction l as [|a l IH]; cbn [map filter]; intros H; [exact H|].
  inversion H as [|? ? Ha Hl]; subst.
  destruct (p a); [|now apply IH].
  cbn [map]. constructor; [|now apply IH].
  rewrite Forall_forall in Ha |- *. intros b Hb. apply Ha.
  apply in_map_iff in Hb as (a' & <- & Hin).
  apply in_map. apply filter_In in Hin. exact (proj1 Hin).
Qed.

Lemma emails_set_same (z : Z) (user user' : dict) (t : list (Z * dict)) :
  Dict.get z t = Some user ->
  Dict.get "email" user' = Dict.get "email" user ->
  emails (Dict.set z user' t) = emails t.
Proof.
  intros Hget Hsame. unfold emails.
  induction t as [|[k u] t IH]; cbn [Dict.get Dict.set map] in *;
    [discriminate|].
  destruct (keqb k z) eqn:E; destruct (keqb z k) eqn:E';
    cbn [map snd].
  - injection Hget as ->. now rewrite Hsame.
  - destruct (keqb_spec z k); [discriminate|].
    destruct (keqb_spec k z); [congruence | discriminate].
  - destruct (keqb_spec z k); [|discriminate].
    destruct (keqb_spec k z); [discriminate | congruence].
  - now rewrite IH.
Qed.

Lemma email_not_taken (email : value) (t : list (Z * dict)) :
  email_taken email t = false ->
  Forall (fun o => forall e1 e2,
              o = Some e1 -> Some email = Some e2 -> py_eq e1 e2 = false)
         (emails t).
Proof.
  unfold email_taken. induction (emails t) as [|o l IH]; cbn [existsb];
    intros H; [constructor|].
  apply orb_false_iff in H as [Ho Hl].
  constructor; [|now apply IH].
  intros e1 e2 -> E. injection E as <-. exact Ho.
Qed.

Lemma Dict_get_rev_absent {K V} `{Key K} (k : K) (d : list (K * V)) :
  Dict.mem k d = false -> Dict.get k (rev d) = None.
Proof.
  intros Hm. destruct (Dict.get k (rev d)) as [v|] eqn:E; [|reflexivity].
  assert (Hin : Dict.mem k (rev d) = true)
    by (apply Dict_mem_get; now exists v).
  apply Dict_mem_keys in Hin. unfold Dict.keys in Hin.
  rewrite map_rev in Hin. apply in_rev in Hin.
  apply Dict_mem_keys in Hin. congruence.
Qed.

(** A call that cannot write an email keeps the stored emails distinct. *)
Lemma run_op_emails (op : user_op) (w : World) :
  service_ok (user_service w) ->
  emails_distinct (table w) ->
  updates_email op = false ->
  emails_distinct (table (snd (run_op op w))).
Proof.
  intros Hok Hd Hop.
  destruct op as [name email age | user_id | user_id kwargs | user_id |];
    cbn [run_op].
  - rewrite (create_user_outcome name email age w Hok).
    destruct (negb (truthy name) || negb (truthy email)); [exact Hd|].
    destruct (email_taken email (table w)) eqn:Htaken; [exact Hd|].
    cbv zeta. cbn [snd]. unfold table at 1. cbn [user_service users].
    unfold emails_distinct, emails. rewrite map_app. cbn [map snd].
    apply ForallOrdPairs_snoc; [exact Hd|].
    exact (email_not_taken email (table w) Htaken).
  - rewrite get_user_by_id_spec.
    destruct (key_of user_id) as [k|e]; [|exact Hd].
    destruct (lookup_user k (table w)); exact Hd.
  - rewrite update_user_spec.
    destruct (key_of user_id) as [k|e]; [|exact Hd].
    destruct k as [z|]; [|exact Hd].
    destruct (lookup_user (Some z) (table w)) as [user|] eqn:Hget; [|exact Hd].
    cbv zeta. cbn [snd]. unfold table at 1. cbn [user_service users].
    unfold emails_distinct.
    rewrite (emails_set_same z user _ (table w) Hget); [exact Hd|].
    rewrite Dict_get_set. cbn [keqb string_Key String.eqb Ascii.eqb Bool.eqb].
    rewrite fold_update_get. cbn [updates_email] in Hop.
    now rewrite (Dict_get_rev_absent "email" kwargs Hop).
  - rewrite delete_user_spec.
    destruct (key_of user_id) as [k|e]; [|exact Hd].
    destruct k as [z|]; [|exact Hd].
    destruct (lookup_user (Some z) (table w)); [|exact Hd].
    cbn [snd]. unfold table at 1. cbn [user_service users].
    unfold emails_distinct, emails, Dict.del.
    now apply ForallOrdPairs_map_filter.
  - exact Hd.
Qed.

(** X17: [create_user] keeps the stored emails distinct.  Along any run
    in which no [update_user] carries the keyword [email], no stored email
    is equal ([==]) to one stored after it, provided this held at the start
    (as it does in the initial state).  The proviso on [update_user] is
    needed: it writes [email] without the check [create_user] makes. *)
Theorem emails_stay_distinct (ops : list user_op) (w : World)
    (Hok : service_ok (user_service w))
    (Hdistinct : emails_distinct (table w))
    (Hops : forallb (fun op => negb (updates_email op)) ops = true) :
  emails_distinct (table initial_world) /\
  emails_distinct (table (snd (run_ops ops w))).
Proof.
  split; [constructor|].
  revert w Hok Hdistinct. induction ops as [|op ops IH]; intros w Hok Hd;
    cbn [run_ops]; [exact Hd|].
  cbn [forallb] in Hops. apply andb_true_iff in Hops as [Hop Hrest].
  apply negb_true_iff in Hop.
  pose proof (run_op_service_ok op w Hok) as Hok1.
  pose proof (run_op_emails op w Hok Hd Hop) as Hd1.
  destruct (run_op op w) as [r w1]. cbn [snd] in *.
  specialize (IH Hrest w1 Hok1 Hd1).
  destruct (run_ops ops w1) as [tr w2]. exact IH.
Qed.

(** ** CalculationService *)

Lemma signed_positive_nonzero (s : bool) (p : Z) :
  0 < p -> (if s then (-1) else 1) * p <> 0.
Proof. destruct s; lia. Qed.

Lemma float_to_Z_finite_nonzero (s : bool) (m : positive) (e z : Z) :
  float_to_Z (S754_finite s m e) = Some z -> z <> 0.
Proof.
  change (float_to_Z (S754_finite s m e))
    with (if 0 <=? e
          then Some ((if s then (-1) else 1) * (Z.pos m * 2 ^ e))
          else if (Z.pos m mod 2 ^ (- e)) =? 0
               then Some ((if s then (-1) else 1) * (Z.pos m / 2 ^ (- e)))
               else None).
  destruct (0 <=? e) eqn:He.
  - apply Z.leb_le in He. intros E.
    assert (Hz : z = (if s then (-1) else 1) * (Z.pos m * 2 ^ e))
      by congruence.
    rewrite Hz. apply signed_positive_nonzero.
    apply Z.mul_pos_pos; [lia | apply Z.pow_pos_nonneg; lia].
  - apply Z.leb_gt in He.
    destruct (Z.pos m mod 2 ^ (- e) =? 0) eqn:Hm; [|discriminate].
    apply Z.eqb_eq in Hm. intros E.
    assert (Hz : z = (if s then (-1) else 1) * (Z.pos m / 2 ^ (- e)))
      by congruence.
    rewrite Hz. apply signed_positive_nonzero.
    assert (Hp : 0 < 2 ^ (- e)) by (apply Z.pow_pos_nonneg; lia).
    apply Z.div_str_pos. split; [exact Hp|].
    apply Z.divide_pos_le; [lia|]. apply Z.mod_divide; lia.
Qed.

Lemma py_eq_zero (b : value) : py_eq b (VInt 0) = is_zero b.
Proof.
  assert (Hfinite : forall s m e,
             match float_to_Z (S754_finite s m e) with
             | Some y => 0 =? y
             | None => false
             end = false).
  { intros s m e.
    destruct (float_to_Z (S754_finite s m e)) as [z|] eqn:E; [|reflexivity].
    apply float_to_Z_finite_nonzero in E. apply Z.eqb_neq. congruence. }
  destruct b as [|[|]|[|p|p]|[s|s| |s m e]|s|l|d|re im]; try reflexivity.
  - cbn [py_eq real_part numeric num_eq is_zero]. apply Hfinite.
  - destruct im as [[|]|[|]| |[|] mi ei]; destruct re as [sr|sr| |sr mr er];
      try reflexivity; apply (Hfinite sr mr er).
Qed.

(** X18: [divide] refuses a zero divisor of any numeric type ([0],
    [False], [0.0], [-0.0], [0j]) with "Division by zero is not allowed", whatever
    the dividend (a number or not), before anything is read from the
    environment; with any other divisor the record it returns holds, under
    [result], what [a / b] gives. *)
Theorem divide_refuses_zero (a b : value) (w : World) :
  divide a b w =
  if is_zero b then
    (Raise (mkExn ValueError "Division by zero is not allowed"), w)
  else
    match py_arith "/" a b with
    | Raise e => (Raise e, w)
    | Ret quotient =>
        (Ret (VDict [("operation", VStr "division");
                     ("operands", VList [a; b]); ("result", quotient);
                     ("calculation_id", VStr (uuid4_str (clock w)));
                     ("calculated_at", VStr (isoformat_now (S (clock w))))]),
         mkWorld (user_service w) (S (S (clock w))))
    end.
Proof.
  unfold divide. rewrite py_eq_zero.
  destruct (is_zero b); [reflexivity|].
  unfold bind, py_truediv, lift.
  destruct (py_arith "/" a b); reflexivity.
Qed.

(** X19: on ints ([bool] included, as the ints 0 and 1) the arithmetic of
    [add], [subtract], [multiply] and, for an exponent that is not
    negative, [power] is exact and never fails: the record holds the two
    operands as they came and the exact sum, difference, product or power,
    with the uuid and the time read in that order. *)
Theorem int_calculations_are_exact (a b : value) (x y : Z) (w : World)
    (Ha : int_operand a = Some x) (Hb : int_operand b = Some y) :
  let record operation result :=
    (Ret (VDict [("operation", VStr operation); ("operands", VList [a; b]);
                 ("result", VInt result);
                 ("calculation_id", VStr (uuid4_str (clock w)));
                 ("calculated_at", VStr (isoformat_now (S (clock w))))]),
     mkWorld (user_service w) (S (S (clock w)))) in
  add a b w = record "addition" (x + y) /\
  subtract a b w = record "subtraction" (x - y) /\
  multiply a b w = record "multiplication" (x * y) /\
  (0 <= y -> power a b w = record "power" (x ^ y)).
Proof.
  cbv zeta. unfold add, subtract, multiply, power, py_binop, py_pow, bind.
  rewrite Ha, Hb. repeat split.
  intros Hy. apply Z.leb_le in Hy. now rewrite Hy.
Qed.

Lemma batch_step_mapping (d : dict) (w : World) :
  exists r w',
    batch_step (VDict d) w = (Ret r, w') /\
    user_service w' = user_service w /\
    (forall message, operation_problem d = Some message ->
                     r = error_entry message d /\ w' = w).
Proof.
  unfold batch_step, try_except, bind, operation_problem, error_entry.
  cbn [op_get ret]. cbv zeta.
  set (operation := get_default "operation" d VNone).
  set (a := get_default "a" d VNone).
  set (b := get_default "b" d VNone).
  destruct (is_None a || is_None b).
  { eexists; eexists. split; [reflexivity|]. split; [reflexivity|].
    intros m E. injection E as <-. now split. }
  destruct (negb (is_number a) || negb (is_number b)).
  { eexists; eexists. split; [reflexivity|]. split; [reflexivity|].
    intros m E. injection E as <-. now split. }
  destruct (py_eq operation (VStr "add")).
  { cbn [orb]. unfold add, bind, py_binop, lift.
    destruct (int_operand a), (int_operand b);
      try destruct (py_arith "+" a b);
      eexists; eexists; (split; [reflexivity|]);
      (split; [reflexivity | discriminate]). }
  destruct (py_eq operation (VStr "subtract")).
  { cbn [orb]. unfold subtract, bind, py_binop, lift.
    destruct (int_operand a), (int_operand b);
      try destruct (py_arith "-" a b);
      eexists; eexists; (split; [reflexivity|]);
      (split; [reflexivity | discriminate]). }
  destruct (py_eq operation (VStr "multiply")).
  { cbn [orb]. unfold multiply, bind, py_binop, lift.
    destruct (int_operand a), (int_operand b);
      try destruct (py_arith "*" a b);
      eexists; eexists; (split; [reflexivity|]);
      (split; [reflexivity | discriminate]). }
  cbn [orb].
  destruct (py_eq operation (VStr "divide")).
  { rewrite divide_refuses_zero. destruct (is_zero b).
    - eexists; eexists. split; [reflexivity|]. split; [reflexivity|].
      intros m E. injection E as <-. now split.
    - destruct (py_arith "/" a b);
        eexists; eexists; (split; [reflexivity|]);
        (split; [reflexivity | discriminate]). }
  destruct (py_eq operation (VStr "power")).
  { unfold power, bind, py_pow, lift.
    destruct (int_operand a), (int_operand b);
      try destruct (0 <=? z0);
      try destruct (py_arith "**" a b);
      eexists; eexists; (split; [reflexivity|]);
      (split; [reflexivity | discriminate]). }
  eexists; eexists. split; [reflexivity|]. split; [reflexivity|].
  intros m E. injection E as <-. now split.
Qed.

Lemma batch_loop_mappings (ds : list dict) :
  forall w, exists rs w',
    (forall acc,
        batch_loop (map VDict ds) acc w = (Ret (acc ++ rs)%list, w')) /\
    Forall2 (fun d r => exists w0 w1, batch_step (VDict d) w0 = (Ret r, w1))
            ds rs /\
    user_service w' = user_service w.
Proof.
  induction ds as [|d ds IH]; intros w.
  - exists [], w. split; [|split; [constructor | reflexivity]].
    intros acc. cbn. now rewrite app_nil_r.
  - destruct (batch_step_mapping d w) as (r & w1 & Hstep & Hus & _).
    destruct (IH w1) as (rs & w2 & Hrs & Hall & Hus2).
    exists (r :: rs), w2. split; [|split].
    + intros acc. cbn [map batch_loop]. unfold bind. rewrite Hstep, Hrs.
      now rewrite <- app_assoc.
    + constructor; [now exists w, w1 | exact Hall].
    + congruence.
Qed.

Lemma batch_loop_app (xs ys : list value) :
  forall acc w,
    batch_loop (xs ++ ys)%list acc w =
    match batch_loop xs acc w with
    | (Ret rs, w') => batch_loop ys rs w'
    | (Raise e, w') => (Raise e, w')
    end.
Proof.
  induction xs as [|x xs IH]; intros acc w; cbn [batch_loop app];
    [reflexivity|].
  unfold bind. destruct (batch_step x w) as [[r|e] w1]; auto.
Qed.

(** X20: on a list of mappings [batch_calculate] never raises: it
    returns one entry per operation, in the order of the operations, each
    the entry of its operation (a calculation record, or an error entry),
    and it never touches the user service.  A failure of one operation is
    caught and does not stop the others. *)
Theorem batch_calculate_answers_every_operation (ds : list dict) (w : World) :
  exists rs w',
    batch_calculate (VList (map VDict ds)) w = (Ret (VList rs), w') /\
    List.length rs = List.length ds /\
    Forall2 (fun d r => exists w0 w1, batch_step (VDict d) w0 = (Ret r, w1))
            ds rs /\
    user_service w' = user_service w.
Proof.
  destruct (batch_loop_mappings ds w) as (rs & w' & Hrs & Hall & Hus).
  exists rs, w'. split; [|split; [|split]].
  - unfold batch_calculate, bind. cbn [py_iter ret]. now rewrite (Hrs []).
  - symmetry. eapply Forall2_length. eassumption.
  - exact Hall.
  - exact Hus.
Qed.

(** X21: an entry of a batch that is wrong in a way that shows before any
    arithmetic (an operand missing or [None]; an operand that is no number;
    a name that is none of the five operations; a division by a zero) is
    answered, at its place in the list, by the error entry with the
    matching message ("Missing operands 'a' or 'b'", "Operands must be
    numbers", "Unknown operation: ...", "Division by zero is not allowed"),
    which repeats the operation and the operands; it reads nothing from
    the environment, and the entries before and after are computed as
    without it. *)
Theorem wrong_operation_is_reported_in_place (pre post : list dict)
    (d : dict) (message : string) (w : World)
    (Hproblem : operation_problem d = Some message) :
  exists r1 r2 w1 w2,
    batch_calculate (VList (map VDict pre)) w = (Ret (VList r1), w1) /\
    batch_calculate (VList (map VDict post)) w1 = (Ret (VList r2), w2) /\
    batch_calculate (VList (map VDict (pre ++ d :: post)%list)) w
    = (Ret (VList (r1 ++
                   VDict [("error", VStr message);
                          ("operation", get_default "operation" d VNone);
                          ("operands", VList [get_default "a" d VNone;
                                              get_default "b" d VNone])]
                   :: r2)%list), w2).
Proof.
  destruct (batch_loop_mappings pre w) as (r1 & w1 & H1 & _ & _).
  destruct (batch_loop_mappings post w1) as (r2 & w2 & H2 & _ & _).
  destruct (batch_step_mapping d w1) as (r & w1' & Hstep & _ & Hmsg).
  destruct (Hmsg message Hproblem) as [-> ->].
  exists r1, r2, w1, w2.
  unfold batch_calculate, bind. cbn [py_iter ret].
  rewrite (H1 []), (H2 []). split; [reflexivity|]. split; [reflexivity|].
  rewrite map_app. cbn [map]. unfold dict in *.
  rewrite batch_loop_app, (H1 []). cbn [batch_loop app]. unfold bind.
  rewrite Hstep, H2. rewrite <- app_assoc. reflexivity.
Qed.

(** X22: an element of the list that is no mapping makes
    [batch_calculate] raise: the attribute error of [op.get] is caught by
    the [except] clause of the loop, whose own [op.get] raises it again
    outside any [try].  The entries computed so far are lost; what was read
    from the environment for them stays read. *)
Theorem batch_calculate_raises_on_non_mapping (pre : list dict)
    (item : value) (post : list value) (w : World)
    (Hitem : is_mapping item = false) :
  exists w',
    batch_calculate (VList (map VDict pre ++ item :: post)%list) w
    = (Raise (mkExn Exception_ (builtin_error_text "get" item)), w') /\
    snd (batch_calculate (VList (map VDict pre)) w) = w'.
Proof.
  destruct (batch_loop_mappings pre w) as (r1 & w1 & H1 & _ & _).
  exists w1. unfold batch_calculate, bind. cbn [py_iter ret].
  rewrite batch_loop_app. rewrite (H1 []). split; [|reflexivity].
  cbn [batch_loop]. unfold bind, batch_step, try_except.
  destruct item; try discriminate; reflexivity.
Qed.

(** ** TaxService *)

(** X23: [calculate_tax] refuses a negative income, and a negative
    deduction once the income is a number, with "Income and deductions must
    be non-negative", before anything is computed or read. *)
Theorem calculate_tax_refuses_negatives (income deductions tax_rate : value)
    (w : World)
    (Hnegative : is_negative income = true \/
                 (is_number income = true /\ is_negative deductions = true)) :
  calculate_tax income deductions tax_rate w =
  (Raise (mkExn ValueError "Income and deductions must be non-negative"), w).
Proof.
  unfold calculate_tax, bind.
  destruct Hnegative as [Hi | [Hi Hd]].
  - destruct income as [| | |[s|[|]| |[|] m e]| | | |]; try discriminate;
      cbn in *; try rewrite Hi; reflexivity.
  - destruct income as [| |z|f| | | |]; try discriminate; cbn [lt_zero ret];
      [| destruct (z <? 0) | destruct f as [s|[|]| |[|] m e]];
      try reflexivity;
      (destruct deductions as [| | |[s'|[|]| |[|] m' e']| | | |];
       try discriminate; cbn in *; try rewrite Hd; reflexivity).
Qed.

(** X24: for an income and a deduction that are ints and not negative,
    the taxable income is exactly [max(0, income - deductions)], an int
    that is never negative, whatever the tax rate; the record repeats the
    income, the deduction and the rate as they came.  With an int rate the
    tax and the net income are exact as well and the call cannot fail; with
    any other rate they are what the multiplication and the subtraction
    give, and the call fails only if one of these does. *)
Theorem calculate_tax_on_ints (income deductions tax_rate : value)
    (i d : Z) (w : World)
    (Hincome : int_operand income = Some i)
    (Hdeductions : int_operand deductions = Some d)
    (Hi : 0 <= i) (Hd : 0 <= d) :
  let taxable := VInt (Z.max 0 (i - d)) in
  let record tax net :=
    (Ret (VDict [("income", income); ("deductions", deductions);
                 ("taxable_income", taxable); ("tax_rate", tax_rate);
                 ("tax_amount", tax); ("net_income", net);
                 ("calculation_id", VStr (uuid4_str (clock w)));
                 ("calculated_at", VStr (isoformat_now (S (clock w))))]),
     mkWorld (user_service w) (S (S (clock w)))) in
  match int_operand tax_rate with
  | Some r =>
      calculate_tax income deductions tax_rate w =
      record (VInt (Z.max 0 (i - d) * r)) (VInt (i - Z.max 0 (i - d) * r))
  | None =>
      match py_arith "*" taxable tax_rate with
      | Raise e => calculate_tax income deductions tax_rate w = (Raise e, w)
      | Ret tax =>
          match py_binop "-" Z.sub income tax w with
          | (Raise e, _) =>
              calculate_tax income deductions tax_rate w = (Raise e, w)
          | (Ret net, _) =>
              calculate_tax income deductions tax_rate w = record tax net
          end
      end
  end.
Proof.
  cbv zeta.
  assert (Hlt : forall v z, int_operand v = Some z -> 0 <= z ->
                            lt_zero v w = (Ret false, w)).
  { intros v z Hv Hz. destruct v as [|[|]|z'| | | | |]; try discriminate;
      cbn in *; try reflexivity.
    injection Hv as ->. apply Z.ltb_ge in Hz. now rewrite Hz. }
  assert (Hmax : max_zero (VInt (i - d)) w = (Ret (VInt (Z.max 0 (i - d))), w)).
  { cbn [max_zero ret]. destruct (0 <? i - d) eqn:E.
    - apply Z.ltb_lt in E. now rewrite Z.max_r by lia.
    - apply Z.ltb_ge in E. now rewrite Z.max_l by lia. }
  assert (Hsub : py_binop "-" Z.sub income deductions w
                 = (Ret (VInt (i - d)), w))
    by (unfold py_binop; now rewrite Hincome, Hdeductions).
  assert (Hpure : forall op f a b,
             py_binop op f a b w = (fst (py_binop op f a b w), w)).
  { intros op f a b. unfold py_binop, lift, ret.
    destruct (int_operand a), (int_operand b); reflexivity. }
  assert (Hpre :
    calculate_tax income deductions tax_rate w =
    match fst (py_binop "*" Z.mul (VInt (Z.max 0 (i - d))) tax_rate w) with
    | Raise e => (Raise e, w)
    | Ret tax =>
        match fst (py_binop "-" Z.sub income tax w) with
        | Raise e => (Raise e, w)
        | Ret net =>
            (Ret (VDict [("income", income); ("deductions", deductions);
                         ("taxable_income", VInt (Z.max 0 (i - d)));
                         ("tax_rate", tax_rate);
                         ("tax_amount", tax); ("net_income", net);
                         ("calculation_id", VStr (uuid4_str (clock w)));
                         ("calculated_at",
                          VStr (isoformat_now (S (clock w))))]),
             mkWorld (user_service w) (S (S (clock w))))
        end
    end).
  { unfold calculate_tax, bind.
    rewrite (Hlt income i Hincome Hi). cbv beta iota.
    rewrite (Hlt deductions d Hdeductions Hd). cbv beta iota.
    rewrite Hsub. cbv beta iota. rewrite Hmax. cbv beta iota.
    pose proof (Hpure "*" Z.mul (VInt (Z.max 0 (i - d))) tax_rate) as Hp1.
    destruct (py_binop "*" Z.mul (VInt (Z.max 0 (i - d))) tax_rate w)
      as [[tax|e] w1]; cbn [fst] in *; injection Hp1 as ->; [|reflexivity].
    pose proof (Hpure "-" Z.sub income tax) as Hp2.
    destruct (py_binop "-" Z.sub income tax w) as [[net|e] w2];
      cbn [fst] in *; injection Hp2 as ->; reflexivity. }
  rewrite Hpre. clear Hpre.
  destruct (int_operand tax_rate) as [r|] eqn:Hr.
  - unfold py_binop. rewrite Hr, Hincome. reflexivity.
  - assert (Hmul : py_binop "*" Z.mul (VInt (Z.max 0 (i - d))) tax_rate w
                   = (py_arith "*" (VInt (Z.max 0 (i - d))) tax_rate, w))
      by (unfold py_binop; now rewrite Hr).
    rewrite Hmul. cbn [fst].
    destruct (py_arith "*" (VInt (Z.max 0 (i - d))) tax_rate) as [tax|e];
      [|reflexivity].
    pose proof (Hpure "-" Z.sub income tax) as Hp2.
    destruct (py_binop "-" Z.sub income tax w) as [[net|e] w2];
      cbn [fst] in *; reflexivity.
Qed.

End Server.

(** ** The model at work on the sample environment *)

Local Abbreviation sample f :=
  (f Sample.isoformat_now Sample.repr_value Sample.call_error_text
     Sample.unhashable_text Sample.numeric_service) (only parsing).

Local Abbreviation served f :=
  (f Sample.isoformat_now Sample.repr_value Sample.call_error_text
     Sample.unhashable_text Sample.numeric_service
     Sample.int_max_str_digits Sample.jsonify_error) (only parsing).

Example ping_round_trip :
  served _handle_request
    (Json (VDict (Sample.request (VStr "ping") [("id", VInt 1)]))) initial_world
  = (Body (VDict [("jsonrpc", VStr "2.0");
                  ("result", VDict [("message", VStr "pong");
                                    ("timestamp", VStr "2024-01-01T00:00:00.0")]);
                  ("id", VInt 1)]),
     mkWorld UserService_init 1).
Proof. reflexivity. Qed.

Example wrong_version_is_invalid_request :
  fst (served _handle_request
         (Json (VDict [("jsonrpc", VStr "1.0"); ("method", VStr "ping");
                       ("id", VInt 3)])) initial_world)
  = Body (_create_error_response (VInt 3) (-32600) "Invalid Request").
Proof. reflexivity. Qed.

Example batch_drops_the_notification :
  fst (served _handle_request
         (Json (VList [VDict Sample.ping_notification;
                       VDict (Sample.request (VStr "ping") [("id", VInt 5)])]))
         initial_world)
  = Body (VList [VDict [("jsonrpc", VStr "2.0");
                        ("result", VDict [("message", VStr "pong");
                                          ("timestamp", VStr "2024-01-01T00:00:00.1")]);
                        ("id", VInt 5)]]).
Proof. reflexivity. Qed.

(** A record created and then renamed in one batch is sent as renamed. *)
Example created_user_is_sent_as_updated :
  fst (served _handle_request
         (Json (VList
            [call_of "create_user"
               (VDict [("name", VStr "Ann"); ("email", VStr "ann@example.com")])
               (VInt 1);
             notification_of "update_user"
               (VDict [("user_id", VInt 1); ("name", VStr "Bea")])]))
         initial_world)
  = Body (VList [success_response
                   (VDict [("id", VInt 1); ("name", VStr "Bea");
                           ("email", VStr "ann@example.com"); ("age", VNone);
                           ("created_at", VStr "2024-01-01T00:00:00.0");
                           ("updated_at", VStr "2024-01-01T00:00:00.2")])
                   (VInt 1)]).
Proof. reflexivity. Qed.

Example batch_of_notifications_has_no_body :
  fst (served _handle_request
         (Json (VList [VDict Sample.ping_notification;
                       VDict Sample.ping_notification])) initial_world)
  = NoContent.
Proof. reflexivity. Qed.

Example ids_after_a_delete :
  created_ids
    (fst (run_ops Sample.isoformat_now Sample.repr_value Sample.unhashable_text
            [OpCreate (VStr "Ann") (VStr "ann@example.com") VNone;
             OpCreate (VStr "Bob") (VStr "ann@example.com") VNone;
             OpDelete (VInt 1);
             OpCreate (VStr "Bob") (VStr "bob@example.com") (VInt 30)]
            initial_world))
  = [1; 2].
Proof. reflexivity. Qed.

Lemma notification_never_answered_witness :
  Dict.mem "id" Sample.ping_notification = false /\
  (exists w',
      sample _process_single_request (VDict Sample.ping_notification)
        initial_world = (Ret None, w') /\
      served _handle_request (Json (VDict Sample.ping_notification))
        initial_world = (NoContent, w')) /\
  exists rs w3,
    sample process_batch
      ([VInt 3] ++ VDict Sample.ping_notification :: [VDict Sample.ping_call])%list
      [] initial_world = (Ret rs, w3) /\
    List.length rs = 2%nat.
Proof.
  split; [reflexivity|].
  destruct (served notification_never_answered Sample.ping_notification
              [VInt 3] [VDict Sample.ping_call] initial_world eq_refl)
    as (Hsingle & (w2 & rs & _ & Hbatch & _ & Hlength & _) & _).
  split; [exact Hsingle|].
  exists rs. eexists. split; [exact Hbatch | exact Hlength].
Defined.

(** C3: the claim fails on the code.  The request
    [{"jsonrpc": "2.0", "method": "power", "params": [-8, 0.5], "id": 7}]
    is a mapping with [jsonrpc] equal to "2.0", a string as [method] and
    the key [id] present.  Processed, it yields the success envelope with
    the identifier 7, whose result holds the complex number [(-8) ** 0.5].
    [jsonify] cannot serialise it, the outer [except] clause of
    [_handle_request] takes over, and the one envelope of the reply is the
    INTERNAL_ERROR envelope, whose identifier is null and not 7. *)
Theorem unserialisable_result_loses_the_id :
  let reply :=
    _create_error_response VNone (-32603)
      "Internal error: Object of type complex is not JSON serializable" in
  py_eq (get_default "jsonrpc" Sample.power_call VNone) (VStr "2.0") = true /\
  Dict.get "method" Sample.power_call = Some (VStr "power") /\
  Dict.get "id" Sample.power_call = Some (VInt 7) /\
  sample _process_single_request (VDict Sample.power_call) initial_world
    = (Ret (Some (success_response (Sample.power_record 0) (VInt 7))),
       mkWorld UserService_init 1) /\
  served _handle_request (Json (VDict Sample.power_call)) initial_world
    = (Body reply, mkWorld UserService_init 1) /\
  envelope_id reply = Some VNone /\
  envelope_id reply <> Some (VInt 7).
Proof.
  cbv zeta. repeat (split; [reflexivity|]). discriminate.
Qed.

(** C4: the claim fails on the code.  The batch of the calls [ping], with
    the identifier 1, and [power(-8, 0.5)], with the identifier 7, has two
    entries that are no notifications, and the loop builds two responses,
    carrying 1 and 7.  The second cannot be serialised: the reply is not a
    list of two envelopes but the one INTERNAL_ERROR envelope of the outer
    [except] clause, with a null identifier. *)
Theorem unserialisable_result_loses_the_batch :
  let batch := [VDict Sample.ping_call_1; VDict Sample.power_call] in
  let reply := fst (served _handle_request (Json (VList batch)) initial_world) in
  calls batch = batch /\
  map envelope_id
    (match fst (sample process_batch batch [] initial_world) with
     | Ret responses => responses
     | Raise _ => []
     end) = [Some (VInt 1); Some (VInt 7)] /\
  reply = Body (_create_error_response VNone (-32603)
            "Internal error: Object of type complex is not JSON serializable") /\
  List.length (reply_envelopes reply) = 1%nat /\
  List.length (reply_envelopes reply) <> List.length (calls batch).
Proof.
  cbv zeta. repeat (split; [reflexivity|]). discriminate.
Qed.

Lemma call_answered_with_its_id_witness :
  py_eq (get_default "jsonrpc" Sample.ping_call VNone) (VStr "2.0") = true /\
  Dict.get "method" Sample.ping_call = Some (VStr "ping") /\
  Dict.get "id" Sample.ping_call = Some VNone /\
  exists env w',
    sample _process_single_request (VDict Sample.ping_call) initial_world
      = (Ret (Some env), w') /\
    is_envelope env = true /\
    envelope_id env = Some VNone.
Proof.
  repeat (split; [reflexivity|]).
  destruct (served call_answered_with_its_id Sample.ping_call "ping" VNone
              initial_world eq_refl eq_refl eq_refl)
    as (env & w' & Hp & Henv & Hid & _).
  exists env, w'. repeat split; assumption.
Defined.

Lemma handler_failure_code_witness :
  sample _process_single_request (VDict Sample.ping_with_argument) initial_world
  = (Ret (Some (_create_error_response (VInt 2) (-32603)
        "Invalid parameters for method 'ping': ping() got arguments that do not fit its signature")),
     initial_world).
Proof.
  exact (proj1 (sample handler_failure_code Sample.ping_with_argument "ping" _
                  (VInt 2)
                  (mkExn TypeError (Sample.call_error_text "ping" [VInt 1] []))
                  initial_world initial_world
                  eq_refl eq_refl eq_refl eq_refl eq_refl)).
Defined.

(** C5 as stated fails: [get_user_by_id] on an id that is not in the user
    table raises, the method is registered, the envelope is valid and [id]
    is present, yet the code of the error envelope is -32601, not -32603. *)
Lemma get_missing_user_is_not_internal_error :
  get_user_by_id Sample.repr_value Sample.unhashable_text (VInt 99) initial_world
    = (Raise (mkExn ValueError "User with ID 99 not found"), initial_world) /\
  served _handle_request (Json (VDict Sample.get_missing_user)) initial_world
    = (Body (_create_error_response (VInt 1) (-32601)
         "Invalid parameter values for method 'get_user_by_id': User with ID 99 not found"),
       initial_world) /\
  envelope_error_code
    (_create_error_response (VInt 1) (-32601)
       "Invalid parameter values for method 'get_user_by_id': User with ID 99 not found")
    <> Some (VInt (-32603)).
Proof. split; [reflexivity|]. split; [reflexivity | discriminate]. Qed.

Lemma unknown_method_code_witness :
  served _handle_request (Json (VDict Sample.unknown_method_call)) initial_world
  = (Body (_create_error_response (VInt 4) (-32601) "Method 'nope' not found"),
     initial_world).
Proof.
  refine (proj1 (proj2 (served unknown_method_code Sample.unknown_method_call
                          "nope" (VInt 4) initial_world
                          eq_refl eq_refl _ eq_refl eq_refl))).
  discriminate.
Defined.

(** C6 as stated fails: the empty string is a string and is no key of the
    registry, yet the call is answered with INVALID_REQUEST (-32600). *)
Lemma empty_method_is_invalid_request :
  Dict.get "" (sample method_map) = None /\
  served _handle_request (Json (VDict Sample.empty_method_call)) initial_world
    = (Body (_create_error_response (VInt 4) (-32600) "Invalid Request"),
       initial_world) /\
  envelope_error_code (_create_error_response (VInt 4) (-32600) "Invalid Request")
    <> Some (VInt (-32601)).
Proof. split; [reflexivity|]. split; [reflexivity | discriminate]. Qed.

Lemma non_mapping_is_invalid_request_witness :
  let invalid := _create_error_response VNone (-32600) "Invalid Request" in
  is_mapping (VStr "ping") = false /\
  served _handle_request (Json (VStr "ping")) initial_world
  = (Body invalid, initial_world) /\
  exists r1 r2 w',
    sample process_batch
      ([VDict Sample.ping_call] ++ VStr "ping" :: [VDict Sample.ping_notification])%list
      [] initial_world
    = (Ret (r1 ++ invalid :: r2)%list, w') /\
    List.length r1 = 1%nat /\ List.length r2 = 0%nat.
Proof.
  cbv zeta. split; [reflexivity|].
  destruct (served non_mapping_is_invalid_request (VStr "ping")
              [VDict Sample.ping_call] [VDict Sample.ping_notification]
              initial_world eq_refl)
    as (_ & Htop & r1 & r2 & Hbatch & H1 & H2 & _).
  split; [exact Htop|].
  exists r1, r2. eexists. split; [exact Hbatch|]. split.
  - exact (eq_sym (Forall2_length H1)).
  - exact (eq_sym (Forall2_length H2)).
Defined.

(** C7 as stated fails: a top-level [None] is no mapping, yet the reply is
    the PARSE_ERROR envelope, not the INVALID_REQUEST one. *)
Lemma top_level_null_is_parse_error :
  is_mapping VNone = false /\
  served _handle_request (Json VNone) initial_world
    = (Body (_create_error_response VNone (-32700) "Parse error"), initial_world) /\
  envelope_error_code (_create_error_response VNone (-32700) "Parse error")
    <> Some (VInt (-32600)).
Proof. split; [reflexivity|]. split; [reflexivity | discriminate]. Qed.

Lemma scalar_params_mean_no_arguments_witness :
  Dict.get "params" Sample.ping_with_scalar_params = Some (VStr "now") /\
  is_list_or_mapping (VStr "now") = false /\
  sample _process_single_request (VDict Sample.ping_with_scalar_params)
    initial_world
  = (Ret (Some (success_response
                  (VDict [("message", VStr "pong");
                          ("timestamp", VStr "2024-01-01T00:00:00.0")])
                  (VInt 7))),
     mkWorld UserService_init 1) /\
  sample _process_single_request (VDict Sample.ping_with_scalar_params)
    initial_world
  = sample _process_single_request
      (VDict (Dict.del "params" Sample.ping_with_scalar_params)) initial_world.
Proof.
  split; [reflexivity|]. split; [reflexivity|].
  destruct (sample scalar_params_mean_no_arguments
              Sample.ping_with_scalar_params (VStr "now")
              initial_world eq_refl eq_refl)
    as (_ & _ & Hprocess & _ & Hsame).
  split; [|exact Hsame].
  exact (Hprocess "ping" _ eq_refl eq_refl).
Defined.

Lemma user_ids_never_reused_witness :
  let bob := new_user 2 (VStr "Bob") (VStr "bob@example.com") VNone
               "2024-01-01T00:00:00.2" "2024-01-01T00:00:00.3" in
  table_inv (user_service Sample.one_user) /\
  create_user Sample.isoformat_now Sample.repr_value
    (VStr "Bob") (VStr "bob@example.com") VNone Sample.one_user
  = (Ret (VDict bob),
     mkWorld (mkUserService [(1, Sample.ann); (2, bob)] 3) 4) /\
  (forall k u,
      Dict.get k (table Sample.one_user) = Some u ->
      Dict.get k
        (table (snd (create_user Sample.isoformat_now Sample.repr_value
                       (VStr "Bob") (VStr "bob@example.com") VNone
                       Sample.one_user))) = Some u) /\
  forall ops,
    Forall (fun z => 2 <= z /\ Dict.get z (table Sample.one_user) = None)
      (created_ids
         (fst (run_ops Sample.isoformat_now Sample.repr_value
                 Sample.unhashable_text ops Sample.one_user))).
Proof.
  cbv zeta.
  assert (H : table_inv (user_service Sample.one_user)).
  { constructor; [simpl; lia | constructor]. }
  split; [exact H|].
  destruct (user_ids_never_reused Sample.isoformat_now Sample.repr_value
              Sample.unhashable_text Sample.one_user H)
    as (_ & _ & Hcreate & Hkeep & _ & Hrun & _).
  split; [|split].
  - exact (Hcreate (VStr "Bob") (VStr "bob@example.com") VNone).
  - intros k u. apply Hkeep.
  - intros ops. apply Hrun.
Defined.

Lemma update_user_frame_witness :
  get_user_by_id Sample.repr_value Sample.unhashable_text (VBool true)
    Sample.one_user = (Ret (VDict Sample.ann), Sample.one_user) /\
  exists user' w',
    update_user Sample.isoformat_now Sample.repr_value Sample.unhashable_text
      (VBool true) [("name", VStr "Bea"); ("id", VInt 7)] Sample.one_user
    = (Ret (VDict user'), w') /\
    Dict.get "id" user' = Some (VInt 1) /\
    Dict.get "name" user' = Some (VStr "Bea").
Proof.
  split; [reflexivity|].
  destruct (update_user_frame Sample.isoformat_now Sample.repr_value
              Sample.unhashable_text (VBool true)
              [("name", VStr "Bea"); ("id", VInt 7)] Sample.ann
              Sample.one_user eq_refl)
    as (user' & w' & Hup & _ & Hset & _ & Hkeep & _).
  exists user', w'. split; [exact Hup|]. split.
  - rewrite (Hkeep "id" eq_refl); [reflexivity | discriminate].
  - rewrite (Hset "name" eq_refl). reflexivity.
Defined.

(** ** Further runs on the sample environment *)

Lemma one_user_ok : service_ok (user_service Sample.one_user).
Proof.
  split; [|split].
  - constructor; [cbn; lia | constructor].
  - repeat constructor.
  - constructor; [split; reflexivity | constructor].
Qed.

Lemma one_user_emails : emails_distinct (table Sample.one_user).
Proof. repeat constructor. Qed.

Lemma invalid_envelope_calls_nothing_witness :
  envelope_method Sample.wrong_version_call = None /\
  sample _process_single_request (VDict Sample.wrong_version_call) initial_world
  = (Ret (Some (_create_error_response (VInt 3) (-32600) "Invalid Request")),
     initial_world).
Proof.
  split; [reflexivity|].
  exact (proj1 (served invalid_envelope_calls_nothing
                  Sample.wrong_version_call initial_world eq_refl)).
Defined.

Lemma successful_call_wraps_the_result_witness :
  served _handle_request (Json (VDict Sample.ping_call_1)) initial_world
  = (Body (VDict [("jsonrpc", VStr "2.0");
                  ("result", VDict [("message", VStr "pong");
                                    ("timestamp", VStr "2024-01-01T00:00:00.0")]);
                  ("id", VInt 1)]),
     mkWorld UserService_init 1) /\
  served _handle_request (Json (VDict Sample.power_call)) initial_world
  = (Body (_create_error_response VNone (-32603)
             "Internal error: Object of type complex is not JSON serializable"),
     mkWorld UserService_init 1).
Proof.
  split.
  - exact (proj2 (served successful_call_wraps_the_result Sample.ping_call_1
                    "ping" _ (VInt 1) _ initial_world _
                    eq_refl eq_refl eq_refl eq_refl)).
  - exact (proj2 (served successful_call_wraps_the_result Sample.power_call
                    "power" _ (VInt 7) _ initial_world _
                    eq_refl eq_refl eq_refl eq_refl)).
Defined.

Lemma call_method_raises_plain_exceptions_witness :
  sample _call_method "nope" (VList []) initial_world
  = (Raise (mkExn Exception_ "Method 'nope' not found"), initial_world) /\
  exn_cls (mkExn Exception_ "Method 'nope' not found") = Exception_.
Proof.
  split; [reflexivity|].
  exact (proj1 (sample call_method_raises_plain_exceptions "nope" (VList [])
                  (mkExn Exception_ "Method 'nope' not found")
                  initial_world initial_world eq_refl)).
Defined.

Lemma only_three_methods_write_witness :
  forallb (fun item => negb (may_write item))
    [VDict Sample.ping_call; VInt 3; VDict Sample.get_missing_user] = true /\
  user_service
    (snd (served _handle_request
            (Json (VList [VDict Sample.ping_call; VInt 3;
                          VDict Sample.get_missing_user])) Sample.one_user))
  = user_service Sample.one_user.
Proof.
  split; [reflexivity|].
  exact (proj1 (served only_three_methods_write
                  [VDict Sample.ping_call; VInt 3; VDict Sample.get_missing_user]
                  Sample.one_user eq_refl)).
Defined.

Lemma advertised_methods_are_registered_witness :
  In "ping" supported_methods <->
  exists func, Dict.get "ping" (sample method_map) = Some func.
Proof.
  exact (proj1 (proj2 (proj2
           (sample advertised_methods_are_registered "ping")))).
Defined.

Lemma user_table_stays_well_formed_witness :
  service_ok (user_service Sample.one_user) /\
  NoDup (Dict.keys
           (table (snd (run_ops Sample.isoformat_now Sample.repr_value
                          Sample.unhashable_text
                          [OpCreate (VStr "Bob") (VStr "bob@example.com") VNone;
                           OpDelete (VInt 1)] Sample.one_user)))).
Proof.
  split; [exact one_user_ok|].
  exact (proj1 (proj2 (proj2
    (user_table_stays_well_formed Sample.isoformat_now Sample.repr_value
       Sample.unhashable_text
       [OpCreate (VStr "Bob") (VStr "bob@example.com") VNone; OpDelete (VInt 1)]
       Sample.one_user one_user_ok)))).
Defined.

Lemma create_user_outcome_witness :
  service_ok (user_service Sample.one_user) /\
  create_user Sample.isoformat_now Sample.repr_value
    (VStr "Bob") (VStr "ann@example.com") VNone Sample.one_user
  = (Raise (mkExn ValueError
              "User with email ann@example.com already exists"),
     Sample.one_user).
Proof.
  split; [exact one_user_ok|].
  exact (create_user_outcome Sample.isoformat_now Sample.repr_value
           (VStr "Bob") (VStr "ann@example.com") VNone Sample.one_user
           one_user_ok).
Defined.

Lemma failed_user_call_changes_nothing_witness :
  run_op Sample.isoformat_now Sample.repr_value Sample.unhashable_text
    (OpUpdate (VList []) [("name", VStr "Bea")]) Sample.one_user
  = (Raise (mkExn TypeError "unhashable type"), Sample.one_user) /\
  (exn_cls (mkExn TypeError "unhashable type") = ValueError \/
   exn_cls (mkExn TypeError "unhashable type") = TypeError).
Proof.
  split; [reflexivity|].
  exact (proj1 (proj2
    (failed_user_call_changes_nothing Sample.isoformat_now Sample.repr_value
       Sample.unhashable_text (OpUpdate (VList []) [("name", VStr "Bea")])
       (mkExn TypeError "unhashable type") Sample.one_user Sample.one_user
       one_user_ok eq_refl))).
Defined.

Lemma missing_user_is_not_found_witness :
  key_of Sample.unhashable_text (VStr "1") = Ret None /\
  delete_user Sample.repr_value Sample.unhashable_text (VStr "1") Sample.one_user
  = (Raise (mkExn ValueError "User with ID 1 not found"), Sample.one_user).
Proof.
  split; [reflexivity|].
  exact (proj2 (proj2
    (missing_user_is_not_found Sample.isoformat_now Sample.repr_value
       Sample.unhashable_text (VStr "1") None [] Sample.one_user
       eq_refl eq_refl))).
Defined.

Lemma created_user_is_read_back_witness :
  let bob := new_user 2 (VStr "Bob") (VStr "bob@example.com") (VInt 30)
               "2024-01-01T00:00:00.2" "2024-01-01T00:00:00.3" in
  let w1 := mkWorld (mkUserService [(1, Sample.ann); (2, bob)] 3) 4 in
  create_user Sample.isoformat_now Sample.repr_value
    (VStr "Bob") (VStr "bob@example.com") (VInt 30) Sample.one_user
  = (Ret (VDict bob), w1) /\
  get_user_by_id Sample.repr_value Sample.unhashable_text (VInt 2) w1
  = (Ret (VDict bob), w1).
Proof.
  cbv zeta. split; [reflexivity|].
  exact (proj1
    (created_user_is_read_back Sample.isoformat_now Sample.repr_value
       Sample.unhashable_text
       (VStr "Bob") (VStr "bob@example.com") (VInt 30) _ Sample.one_user _
       one_user_ok eq_refl)).
Defined.

Lemma deleted_user_is_gone_witness :
  let w1 := mkWorld (mkUserService [] 2) 2 in
  delete_user Sample.repr_value Sample.unhashable_text (VInt 1) Sample.one_user
  = (Ret (VDict [("message", VStr "User 1 deleted successfully")]), w1) /\
  get_user_by_id Sample.repr_value Sample.unhashable_text (VInt 1) w1
  = (Raise (mkExn ValueError "User with ID 1 not found"), w1).
Proof.
  cbv zeta. split; [reflexivity|].
  exact (proj1 (proj2
    (deleted_user_is_gone Sample.repr_value Sample.unhashable_text
       (VInt 1) _ Sample.one_user _ eq_refl))).
Defined.


Lemma emails_stay_distinct_witness :
  forallb (fun op => negb (updates_email op))
    [OpCreate (VStr "Bob") (VStr "bob@example.com") VNone;
     OpUpdate (VInt 1) [("name", VStr "Bea")]; OpDelete (VInt 1)] = true /\
  emails_distinct
    (table (snd (run_ops Sample.isoformat_now Sample.repr_value
                   Sample.unhashable_text
                   [OpCreate (VStr "Bob") (VStr "bob@example.com") VNone;
                    OpUpdate (VInt 1) [("name", VStr "Bea")];
                    OpDelete (VInt 1)] Sample.one_user))).
Proof.
  split; [reflexivity|].
  exact (proj2
    (emails_stay_distinct Sample.isoformat_now Sample.repr_value
       Sample.unhashable_text
       [OpCreate (VStr "Bob") (VStr "bob@example.com") VNone;
        OpUpdate (VInt 1) [("name", VStr "Bea")]; OpDelete (VInt 1)]
       Sample.one_user one_user_ok one_user_emails eq_refl)).
Defined.

Lemma int_calculations_are_exact_witness :
  add Sample.isoformat_now Sample.uuid4_str Sample.py_arith
    (VInt 10) (VInt 5) initial_world
  = (Ret (VDict [("operation", VStr "addition");
                 ("operands", VList [VInt 10; VInt 5]); ("result", VInt 15);
                 ("calculation_id", VStr "00000000-0000-4000-8000-0");
                 ("calculated_at", VStr "2024-01-01T00:00:00.1")]),
     mkWorld UserService_init 2).
Proof.
  exact (proj1
    (int_calculations_are_exact Sample.isoformat_now Sample.uuid4_str
       Sample.py_arith (VInt 10) (VInt 5) 10 5 initial_world
       eq_refl eq_refl)).
Defined.

Lemma wrong_operation_is_reported_in_place_witness :
  operation_problem Sample.repr_value Sample.divide_by_zero
  = Some "Division by zero is not allowed" /\
  batch_calculate Sample.isoformat_now Sample.repr_value Sample.uuid4_str
    Sample.py_arith Sample.builtin_error_text
    (VList [VDict Sample.divide_by_zero]) initial_world
  = (Ret (VList [VDict [("error", VStr "Division by zero is not allowed");
                        ("operation", VStr "divide");
                        ("operands", VList [VInt 10; VInt 0])]]),
     initial_world).
Proof.
  split; [reflexivity|].
  destruct (wrong_operation_is_reported_in_place Sample.isoformat_now
              Sample.repr_value Sample.uuid4_str Sample.py_arith
              Sample.builtin_error_text [] [] Sample.divide_by_zero
              "Division by zero is not allowed" initial_world eq_refl)
    as (r1 & r2 & w1 & w2 & H1 & H2 & H3).
  cbn in H1. injection H1 as <- <-.
  cbn in H2. injection H2 as <- <-.
  exact H3.
Defined.

Lemma batch_calculate_raises_on_non_mapping_witness :
  is_mapping (VInt 3) = false /\
  batch_calculate Sample.isoformat_now Sample.repr_value Sample.uuid4_str
    Sample.py_arith Sample.builtin_error_text
    (VList [VInt 3; VDict Sample.divide_by_zero]) initial_world
  = (Raise (mkExn Exception_ "object does not support get"), initial_world).
Proof.
  split; [reflexivity|].
  destruct (batch_calculate_raises_on_non_mapping Sample.isoformat_now
              Sample.repr_value Sample.uuid4_str Sample.py_arith
              Sample.builtin_error_text [] (VInt 3)
              [VDict Sample.divide_by_zero] initial_world eq_refl)
    as (w' & H & Hw).
  cbn in Hw. subst w'. exact H.
Defined.

Lemma calculate_tax_refuses_negatives_witness :
  is_negative (VInt (-5)) = true /\
  calculate_tax Sample.isoformat_now Sample.uuid4_str Sample.py_arith
    Sample.builtin_error_text (VInt (-5)) (VInt 0) default_tax_rate
    initial_world
  = (Raise (mkExn ValueError "Income and deductions must be non-negative"),
     initial_world).
Proof.
  split; [reflexivity|].
  exact (calculate_tax_refuses_negatives Sample.isoformat_now Sample.uuid4_str
           Sample.py_arith Sample.builtin_error_text
           (VInt (-5)) (VInt 0) default_tax_rate initial_world
           (or_introl eq_refl)).
Defined.

Lemma calculate_tax_on_ints_witness :
  calculate_tax Sample.isoformat_now Sample.uuid4_str Sample.py_arith
    Sample.builtin_error_text (VInt 100) (VInt 20) (VInt 1) initial_world
  = (Ret (VDict [("income", VInt 100); ("deductions", VInt 20);
                 ("taxable_income", VInt 80); ("tax_rate", VInt 1);
                 ("tax_amount", VInt 80); ("net_income", VInt 20);
                 ("calculation_id", VStr "00000000-0000-4000-8000-0");
                 ("calculated_at", VStr "2024-01-01T00:00:00.1")]),
     mkWorld UserService_init 2).
Proof.
  apply (calculate_tax_on_ints Sample.isoformat_now Sample.uuid4_str
           Sample.py_arith Sample.builtin_error_text
           (VInt 100) (VInt 20) (VInt 1) 100 20 initial_world);
    [reflexivity | reflexivity | lia | lia].
Defined.
